(** * Verification of the scenario calculator of the valuation engine

    A shallow embedding of [valuation_app/services/calculator.py], of the
    models it consumes ([valuation_app/models/*.py]) and of the typed-record
    layer ([pydantic/__init__.py]) and date helper
    ([dateutil/relativedelta.py]).

    Numbers.  Python [float]s are modelled by exact rationals in lowest
    terms ([Qc], whose equality is Leibniz equality); a Python [int] is a
    [Z].  The only operation of the source that leaves the rationals is [**] with
    a fractional exponent ([(1 + wacc) ** (i / 12)] and
    [(1 + annual_rate) ** (1 / 12)]); its result is taken from a parameter
    [fpow] of the development.  Exceptions are explicit: every function
    that can raise returns a [result]. *)

From Stdlib Require Import ZArith QArith Qcanon Qround List String Bool Lia Lqa.
Import ListNotations.

Local Open Scope Z_scope.
Local Open Scope Qc_scope.

(* ------------------------------------------------------------------ *)
(** ** Exceptions *)

Inductive PyError : Type :=
| ZeroDivisionError
| IndexError
| KeyError
| ValueError
| ValidationError (msg : string).

Inductive result (A : Type) : Type :=
| Ok (a : A)
| Raise (e : PyError).

Arguments Ok {A} a.
Arguments Raise {A} e.

Definition bind {A B : Type} (c : result A) (k : A -> result B) : result B :=
  match c with
  | Ok a => k a
  | Raise e => Raise e
  end.

Notation "x <- c ;; k" := (bind c (fun x => k))
  (at level 61, c at next level, right associativity).
Notation "' pat <- c ;; k" := (bind c (fun x => match x with pat => k end))
  (at level 61, pat pattern, c at next level, right associativity).

(** A [for] loop whose body may raise and that threads an accumulator. *)
Fixpoint for_each {A S : Type} (body : S -> A -> result S) (xs : list A) (s : S)
  : result S :=
  match xs with
  | [] => Ok s
  | x :: rest => s' <- body s x ;; for_each body rest s'
  end.

(* ------------------------------------------------------------------ *)
(** ** Python numerics *)

(** A float literal, and the float of an int. *)
Definition fl (q : Q) : Qc := Q2Qc q.
Definition float_of_int (z : Z) : Qc := Q2Qc (inject_Z z).

(** [a <= b] as a test. *)
Definition Qcleb (a b : Qc) : bool := Qle_bool a b.

(** [max(a, b)] keeps [a] unless [b > a]; [min(a, b)] keeps [a] unless
    [b < a]. *)
Definition py_max (a b : Qc) : Qc := if Qcleb b a then a else b.
Definition py_min (a b : Qc) : Qc := if Qcleb a b then a else b.

(** Truth value of a float: everything but zero. *)
Definition truthy (x : Qc) : bool := negb (Qc_eq_bool x 0).

(** [a / b] on floats raises on a zero divisor. *)
Definition py_div (a b : Qc) : result Qc :=
  if Qc_eq_bool b 0 then Raise ZeroDivisionError else Ok (a / b).

(** [a // b] on ints (floor division). *)
Definition py_floordiv (a b : Z) : result Z :=
  if (b =? 0)%Z then Raise ZeroDivisionError else Ok (a / b)%Z.

(** [b ** n] with an int exponent: zero to a negative power raises. *)
Definition py_pow_int (b : Qc) (n : Z) : result Qc :=
  if (n <? 0)%Z then
    if Qc_eq_bool b 0 then Raise ZeroDivisionError
    else Ok (/ (b ^ Z.to_nat (- n)))
  else Ok (b ^ Z.to_nat n).

(** [sum(xs)]: starts from 0 and adds from the left. *)
Definition py_sum (xs : list Qc) : Qc := fold_left Qcplus xs 0.

(** [xs[i]]: a negative index counts from the end. *)
Definition py_index {A : Type} (xs : list A) (i : Z) : result A :=
  let j := if (i <? 0)%Z then (i + Z.of_nat (List.length xs))%Z else i in
  if (j <? 0)%Z then Raise IndexError
  else match nth_error xs (Z.to_nat j) with
       | Some x => Ok x
       | None => Raise IndexError
       end.

(** [xs[-1]]. *)
Definition py_last {A : Type} (xs : list A) : result A :=
  match rev xs with
  | [] => Raise IndexError
  | x :: _ => Ok x
  end.

(** [range(n)]. *)
Definition py_range (n : Z) : list Z :=
  map Z.of_nat (seq 0 (Z.to_nat n)).

(* ------------------------------------------------------------------ *)
(** ** Dictionaries

    A Python [dict] keeps insertion order: assigning to an existing key
    replaces the value in place, assigning to a new key appends. *)

Section Dict.
Context {K V : Type} (eqb : K -> K -> bool).

Fixpoint dict_get (k : K) (d : list (K * V)) : option V :=
  match d with
  | [] => None
  | (k', v) :: rest => if eqb k k' then Some v else dict_get k rest
  end.

Fixpoint dict_set (k : K) (v : V) (d : list (K * V)) : list (K * V) :=
  match d with
  | [] => [(k, v)]
  | (k', v') :: rest =>
      if eqb k k' then (k', v) :: rest else (k', v') :: dict_set k v rest
  end.

Definition dict_values (d : list (K * V)) : list V := map snd d.
Definition dict_keys (d : list (K * V)) : list K := map fst d.

(** [d.get(k, dflt)] *)
Definition dict_get_default (k : K) (dflt : V) (d : list (K * V)) : V :=
  match dict_get k d with Some v => v | None => dflt end.

End Dict.

Definition sdict (V : Type) : Type := list (string * V).
Definition sget {V} := @dict_get string V String.eqb.
Definition sset {V} := @dict_set string V String.eqb.
Definition zget {V} := @dict_get Z V Z.eqb.
Definition zset {V} := @dict_set Z V Z.eqb.

(* ------------------------------------------------------------------ *)
(** ** dateutil/relativedelta.py *)

Record date : Type := mkDate { year : Z; month : Z; day : Z }.

Definition _last_day_of_month (y m : Z) : Z :=
  if existsb (Z.eqb m) [1; 3; 5; 7; 8; 10; 12]%Z then 31%Z
  else if existsb (Z.eqb m) [4; 6; 9; 11]%Z then 30%Z
  else if ((y mod 4 =? 0)%Z && negb (y mod 100 =? 0)%Z) || (y mod 400 =? 0)%Z
       then 29%Z
       else 28%Z.

(** [datetime.date(y, m, d)] refuses years outside [MINYEAR..MAXYEAR]. *)
Definition date_new (y m d : Z) : result date :=
  if ((1 <=? y) && (y <=? 9999) && (1 <=? m) && (m <=? 12)
      && (1 <=? d) && (d <=? _last_day_of_month y m))%Z
  then Ok (mkDate y m d) else Raise ValueError.

Definition _add_months (dt : date) (months : Z) : result date :=
  let month0 := (month dt - 1 + months)%Z in
  let year' := (year dt + month0 / 12)%Z in
  let month' := (month0 mod 12 + 1)%Z in
  let day' := Z.min (day dt) (_last_day_of_month year' month') in
  date_new year' month' day'.

(* ------------------------------------------------------------------ *)
(** ** pydantic/__init__.py: the typed-record layer

    [conint] and [confloat] drop their keyword constraints and return the
    bare type; [BaseModel.__init__] looks at the names of the fields only:
    it takes the given value, else the default, else the factory's value,
    else raises; annotations are never consulted. *)

Module Pydantic.

Inductive PyType : Type := TInt | TFloat | TOther (name : string).

Definition conint (ge le : option Z) : PyType := TInt.
Definition confloat (ge le : option Qc) : PyType := TFloat.

Record FieldInfo (V : Type) : Type := mkField {
  annotation : PyType;
  default : option V;
  default_factory : option V
}.
Arguments mkField {V}.
Arguments annotation {V}.
Arguments default {V}.
Arguments default_factory {V}.

Definition required {V} (ty : PyType) : FieldInfo V := mkField ty None None.

Section Init.
Context {V : Type}.

Fixpoint collect (cls : string) (infos : list (string * FieldInfo V))
  (data : sdict V) : result (sdict V) :=
  match infos with
  | [] => Ok []
  | (name, info) :: rest =>
      v <- match sget name data with
           | Some v => Ok v
           | None =>
               match default info with
               | Some v => Ok v
               | None =>
                   match default_factory info with
                   | Some v => Ok v
                   | None => Raise (ValidationError
                       ("Field '" ++ name ++ "' is required for " ++ cls))
                   end
               end
           end ;;
      vs <- collect cls rest data ;;
      Ok ((name, v) :: vs)
  end.

(** The attributes of the new object: the declared fields, then the extra
    keys of [data]. *)
Definition BaseModel_init (cls : string) (infos : list (string * FieldInfo V))
  (data : sdict V) : result (sdict V) :=
  values <- collect cls infos data ;;
  Ok (fold_left (fun acc kv => sset (fst kv) (snd kv) acc)
        (filter (fun kv => match sget (fst kv) infos with
                           | Some _ => false | None => true end) data)
        values).

End Init.

End Pydantic.

(* ------------------------------------------------------------------ *)
(** ** models/common.py *)

Module InflationIndex.
Record t : Type := mk { name : string; annual_rate : Qc }.
End InflationIndex.

Module PriceAdjustment.
Record t : Type := mk {
  indexer : option InflationIndex.t;
  custom_monthly_rate : Qc
}.
End PriceAdjustment.

Module MonthlySchedule.
Record t : Type := mk { default : Qc; adjustments : list (Z * Qc) }.
Definition value_for (s : t) (month_index : Z) : Qc :=
  dict_get_default Z.eqb month_index (default s) (adjustments s).
End MonthlySchedule.

Module SeasonalPattern.
Record t : Type := mk { values : list Qc }.
Definition flat : t := mk (repeat 1 12).
Definition factor (s : t) (month_index : Z) : result Qc :=
  py_index (values s) (month_index mod 12)%Z.
End SeasonalPattern.

Module RampUpSettings.
Record t : Type := mk { months : Z; factor : Qc }.
End RampUpSettings.

Module TimeframeSettings.
Record t : Type := mk { start_date : date; months : Z }.
End TimeframeSettings.

Module CompanyState.
Record t : Type := mk {
  as_of : date;
  cash : Qc;
  accounts_receivable : Qc;
  accounts_payable : Qc;
  inventory : Qc;
  fixed_assets : Qc;
  accumulated_depreciation : Qc;
  debt : Qc;
  equity : Qc
}.
Definition net_fixed_assets (c : t) : Qc :=
  py_max 0 (fixed_assets c - accumulated_depreciation c).
End CompanyState.

(* ------------------------------------------------------------------ *)
(** ** models/revenue.py *)

Inductive RevenueRecognitionModel : Type := SUBSCRIPTION | SERVICES | TRANSACTIONAL.

Module RevenuePlan.
Record t : Type := mk {
  name : string;
  recognition : RevenueRecognitionModel;
  initial_customers : Qc;
  initial_arpa : Qc;
  new_customers : MonthlySchedule.t;
  churn_rate : MonthlySchedule.t;
  expansion_rate : MonthlySchedule.t;
  contraction_rate : MonthlySchedule.t;
  discount_rate : MonthlySchedule.t;
  arpa_growth_rate : MonthlySchedule.t;
  seasonal_pattern : SeasonalPattern.t;
  ramp_up : RampUpSettings.t;
  revenue_deferral_months : Z;
  services_attach_rate : Qc;
  services_asp : Qc;
  transactional_rate : Qc;
  transactional_volume : MonthlySchedule.t;
  transactional_fee : Qc
}.
End RevenuePlan.

Module RevenueModel.
Record t : Type := mk {
  plans : list RevenuePlan.t;
  other_recurring_revenue : MonthlySchedule.t;
  professional_services_revenue : MonthlySchedule.t;
  adjustments : sdict Qc
}.
End RevenueModel.

Module RevenueSummary.
Record t : Type := mk {
  total_gross : Qc;
  total_net : Qc;
  total_churn : Qc;
  total_expansion : Qc;
  arr : Qc
}.
End RevenueSummary.

(* ------------------------------------------------------------------ *)
(** ** models/headcount.py *)

Module SubscriptionCost.
Record t : Type := mk {
  name : string;
  monthly_cost : Qc;
  price_adjustment : PriceAdjustment.t
}.
End SubscriptionCost.

Module HeadcountPosition.
Record t : Type := mk {
  role : string;
  area : string;
  level : string;
  current_fte : Qc;
  base_salary : Qc;
  benefits_pct : Qc;
  benefits_fixed : Qc;
  bonus_pct : Qc;
  payroll_taxes_pct : Qc;
  subscriptions : list SubscriptionCost.t;
  salary_adjustment : PriceAdjustment.t
}.
End HeadcountPosition.

Module HiringPlan.
Record t : Type := mk {
  role : string;
  month_index : Z;
  quantity : Qc;
  salary_override : option Qc
}.
End HiringPlan.

Module HeadcountModel.
Record t : Type := mk {
  positions : list HeadcountPosition.t;
  hires : list HiringPlan.t;
  attrition_pct : MonthlySchedule.t
}.
End HeadcountModel.

Module HeadcountCostBreakdown.
Record t : Type := mk {
  area : string;
  salaries : Qc;
  benefits : Qc;
  subscriptions : Qc;
  total : Qc;
  fte : Qc
}.
End HeadcountCostBreakdown.

(* ------------------------------------------------------------------ *)
(** ** models/costs.py *)

Inductive CostNature : Type := FIXED | VARIABLE.
Inductive CostAllocation : Type := COGS | OPEX.
Inductive CostCenter : Type :=
  ENGINEERING | PRODUCT | SALES | MARKETING | CS | GNA | OTHER.

Definition CostCenter_eqb (a b : CostCenter) : bool :=
  match a, b with
  | ENGINEERING, ENGINEERING | PRODUCT, PRODUCT | SALES, SALES
  | MARKETING, MARKETING | CS, CS | GNA, GNA | OTHER, OTHER => true
  | _, _ => false
  end.

Module CostItem.
Record t : Type := mk {
  name : string;
  nature : CostNature;
  allocation : CostAllocation;
  cost_center : CostCenter;
  base_amount : Qc;
  variable_rate : Qc;
  driver : string;
  price_adjustment : PriceAdjustment.t;
  schedule : MonthlySchedule.t
}.
End CostItem.

Module SupplierContract.
Record t : Type := mk {
  name : string;
  start_month : Z;
  base_amount : Qc;
  escalation_pct : Qc;
  escalation_frequency_months : Z;
  allocation : CostAllocation;
  cost_center : CostCenter
}.
End SupplierContract.

Module CostModel.
Record t : Type := mk {
  items : list CostItem.t;
  supplier_contracts : list SupplierContract.t;
  cogs_variable_pct : Qc;
  cogs_per_customer : Qc
}.
End CostModel.

Module CostBreakdown.
Record t : Type := mk { cost_center : CostCenter; amount : Qc }.
End CostBreakdown.

(* ------------------------------------------------------------------ *)
(** ** models/taxes.py *)

Inductive TaxBase : Type := GROSS_REVENUE | NET_REVENUE | EBIT | EBT | PAYROLL.
Inductive TaxRegime : Type := SIMPLES | LUCRO_PRESUMIDO | LUCRO_REAL | CUSTOM.

Module TaxBracket.
Record t : Type := mk { threshold : Qc; rate : Qc }.
End TaxBracket.

Module TaxComponent.
Record t : Type := mk { name : string; base : TaxBase; rate : Qc; deductible : bool }.
End TaxComponent.

Module ProgressiveTax.
Record t : Type := mk { name : string; base : TaxBase; brackets : list TaxBracket.t }.
End ProgressiveTax.

Module TaxCredit.
Record t : Type := mk { name : string; base : TaxBase; rate : Qc }.
End TaxCredit.

Module TaxModel.
Record t : Type := mk {
  regime : TaxRegime;
  taxes : list TaxComponent.t;
  progressive : list ProgressiveTax.t;
  credits : list TaxCredit.t;
  effective_income_tax_rate : Qc
}.
End TaxModel.

Module TaxBreakdown.
Record t : Type := mk { name : string; amount : Qc }.
End TaxBreakdown.

(* ------------------------------------------------------------------ *)
(** ** models/capex.py, models/working_capital.py, models/funding.py *)

Module CapexItem.
Record t : Type := mk {
  name : string;
  month_index : Z;
  amount : Qc;
  useful_life_months : Z;
  salvage_value : Qc
}.
End CapexItem.

Module CapexModel.
Record t : Type := mk { items : list CapexItem.t }.
End CapexModel.

Module WorkingCapitalModel.
Record t : Type := mk { dso : Qc; dpo : Qc; dio : Qc; min_cash_balance : Qc }.
End WorkingCapitalModel.

Module WorkingCapitalDelta.
Record t : Type := mk {
  change_ar : Qc;
  change_ap : Qc;
  change_inventory : Qc;
  total_change : Qc
}.
End WorkingCapitalDelta.

Inductive DebtType : Type := TERM | REVOLVER.

Module EquityRound.
Record t : Type := mk {
  name : string;
  month_index : Z;
  amount : Qc;
  post_money_valuation : Qc;
  dilution_pct : Qc
}.
End EquityRound.

Module DebtInstrument.
Record t : Type := mk {
  name : string;
  month_index : Z;
  amount : Qc;
  interest_rate_annual : Qc;
  term_months : Z;
  debt_type : DebtType;
  grace_period_months : Z
}.
End DebtInstrument.

Module FundingModel.
Record t : Type := mk {
  equity_rounds : list EquityRound.t;
  debt : list DebtInstrument.t
}.
End FundingModel.

(* ------------------------------------------------------------------ *)
(** ** models/valuation.py *)

Inductive TerminalValueMethod : Type := PERPETUITY | MULTIPLE.
Inductive MultipleMetric : Type := REVENUE | EBITDA | ARR.

Definition MultipleMetric_eqb (a b : MultipleMetric) : bool :=
  match a, b with
  | REVENUE, REVENUE | EBITDA, EBITDA | ARR, ARR => true
  | _, _ => false
  end.

Module ValuationSettings.
Record t : Type := mk {
  wacc : Qc;
  perpetual_growth_rate : Qc;
  terminal_method : TerminalValueMethod;
  terminal_multiple : Qc;
  terminal_multiple_metric : MultipleMetric;
  exit_year_multiple : Qc;
  target_exit_year : Z;
  discount_rate_vc : Qc;
  probability_of_success : Qc;
  scorecard_weights : sdict Qc
}.
End ValuationSettings.

Module DiscountedCashFlowResult.
Record t : Type := mk {
  enterprise_value : Qc;
  equity_value : Qc;
  pv_of_cash_flows : Qc;
  pv_of_terminal_value : Qc;
  terminal_value : Qc;
  discount_factors : list Qc
}.
End DiscountedCashFlowResult.

Module MultipleValuationResult.
Record t : Type := mk { metric : MultipleMetric; multiple : Qc; value : Qc }.
End MultipleValuationResult.

Module VCValuationResult.
Record t : Type := mk {
  exit_value : Qc;
  ownership_required : Qc;
  post_money : Qc;
  pre_money : Qc
}.
End VCValuationResult.

Module ScorecardValuationResult.
Record t : Type := mk { total_score : Qc; valuation : Qc }.
End ScorecardValuationResult.

Module ValuationResult.
Record t : Type := mk {
  dcf : DiscountedCashFlowResult.t;
  multiples : list MultipleValuationResult.t;
  vc_method : VCValuationResult.t;
  scorecard : option ScorecardValuationResult.t
}.
End ValuationResult.

(* ------------------------------------------------------------------ *)
(** ** models/results.py *)

Module IncomeStatement.
Record t : Type := mk {
  gross_revenue : Qc;
  revenue_taxes : Qc;
  net_revenue : Qc;
  cogs : Qc;
  gross_margin : Qc;
  operating_expenses : Qc;
  ebitda : Qc;
  depreciation : Qc;
  amortization : Qc;
  ebit : Qc;
  interest : Qc;
  ebt : Qc;
  income_tax : Qc;
  net_income : Qc
}.
End IncomeStatement.

Module BalanceSheet.
Record t : Type := mk {
  cash : Qc;
  accounts_receivable : Qc;
  inventory : Qc;
  fixed_assets : Qc;
  accumulated_depreciation : Qc;
  accounts_payable : Qc;
  debt : Qc;
  equity : Qc
}.
End BalanceSheet.

Module CashFlowStatement.
Record t : Type := mk {
  operating_cash_flow : Qc;
  investing_cash_flow : Qc;
  financing_cash_flow : Qc;
  net_change_in_cash : Qc;
  ending_cash : Qc;
  fcff : Qc;
  fcfe : Qc
}.
End CashFlowStatement.

Module MonthlyProjection.
Record t : Type := mk {
  period_start : date;
  income_statement : IncomeStatement.t;
  balance_sheet : BalanceSheet.t;
  cash_flow : CashFlowStatement.t;
  revenue_summary : RevenueSummary.t;
  headcount_breakdown : list HeadcountCostBreakdown.t;
  cost_breakdown : list CostBreakdown.t;
  tax_breakdown : list TaxBreakdown.t;
  working_capital_delta : WorkingCapitalDelta.t
}.
End MonthlyProjection.

Module AnnualSummary.
Record t : Type := mk {
  year : Z;
  income_statement : IncomeStatement.t;
  cash_flow : CashFlowStatement.t
}.
End AnnualSummary.

(** The payload of a dashboard slice ([Dict[str, float | list | dict]]);
    the month labels are kept as dates instead of their ISO strings. *)
Inductive DashboardValue : Type :=
| DScalar (x : Qc)
| DSeries (xs : list Qc)
| DLabels (ds : list date).

Module DashboardSlice.
Record t : Type := mk { name : string; data : sdict DashboardValue }.
End DashboardSlice.

Module ScenarioResult.
Record t : Type := mk {
  monthly : list MonthlyProjection.t;
  annual : list AnnualSummary.t;
  valuation : ValuationResult.t;
  dashboards : list DashboardSlice.t
}.
End ScenarioResult.

(* ------------------------------------------------------------------ *)
(** ** models/scenario.py *)

Inductive ScenarioType : Type := BASE | BULL | BEAR.

Module ScenarioMeta.
Record t : Type := mk {
  id : string;
  name : string;
  scenario_type : ScenarioType;
  timezone : string;
  description : option string
}.
End ScenarioMeta.

Module CurrencySettings.
Record t : Type := mk {
  base_currency : string;
  display_currency : string;
  fx_rate : Qc
}.
End CurrencySettings.

Module ScenarioInput.
Record t : Type := mk {
  meta : ScenarioMeta.t;
  currency : CurrencySettings.t;
  timeframe : TimeframeSettings.t;
  company_state : CompanyState.t;
  revenue : RevenueModel.t;
  headcount : HeadcountModel.t;
  costs : CostModel.t;
  taxes : TaxModel.t;
  capex : CapexModel.t;
  working_capital : WorkingCapitalModel.t;
  funding : FundingModel.t;
  valuation : ValuationSettings.t
}.
End ScenarioInput.

(* ------------------------------------------------------------------ *)
(** ** services/calculator.py: running state *)

Module PlanState.
Record t : Type := mk { active_customers : Qc; deferred_revenue : list Qc }.
End PlanState.

Module HeadcountState.
Record t : Type := mk {
  position : HeadcountPosition.t;
  fte : Qc;
  current_salary : Qc
}.
End HeadcountState.

Module DebtState.
Record t : Type := mk {
  name : string;
  outstanding : Qc;
  interest_rate : Qc;
  term_months : Z;
  remaining_term : Z;
  grace_months : Z
}.
End DebtState.

(** One depreciation track: [(remaining_months, amount, salvage)]. *)
Definition DepreciationTrack : Type := (Z * Qc * Qc)%type.

(** What one iteration of the plan loop of [_compute_revenue] computed for
    its plan (the locals [gross_revenue], [recognized] and [discount]);
    kept beside the summary so that per-plan statements can be made. *)
Module PlanLine.
Record t : Type := mk {
  plan : string;
  gross_revenue : Qc;
  recognized : Qc;
  discount : Qc
}.
(** The amount the iteration adds to [total_net]. *)
Definition net_contribution (l : t) : Qc := recognized l - discount l.
End PlanLine.

(* ------------------------------------------------------------------ *)
(** ** [_compute_revenue] *)

Record RevenueAcc : Type := mkRevenueAcc {
  acc_total_gross : Qc;
  acc_total_net : Qc;
  acc_total_churn : Qc;
  acc_total_expansion : Qc;
  acc_arr : Qc;
  acc_plan_states : sdict PlanState.t;
  acc_lines : list PlanLine.t
}.

Definition revenue_plan_body (month_index : Z) (acc : RevenueAcc)
  (plan : RevenuePlan.t) : result RevenueAcc :=
  state <- match sget (RevenuePlan.name plan) (acc_plan_states acc) with
           | Some s => Ok s
           | None => Raise KeyError
           end ;;
  let new_customers :=
    py_max 0 (MonthlySchedule.value_for (RevenuePlan.new_customers plan) month_index) in
  let churn_rate := MonthlySchedule.value_for (RevenuePlan.churn_rate plan) month_index in
  let expansion_rate := MonthlySchedule.value_for (RevenuePlan.expansion_rate plan) month_index in
  let contraction_rate := MonthlySchedule.value_for (RevenuePlan.contraction_rate plan) month_index in
  let arpa_growth := MonthlySchedule.value_for (RevenuePlan.arpa_growth_rate plan) month_index in
  seasonal_factor <- SeasonalPattern.factor (RevenuePlan.seasonal_pattern plan) month_index ;;
  let churned_customers := PlanState.active_customers state * churn_rate in
  let active_customers :=
    py_max 0 (PlanState.active_customers state + new_customers - churned_customers) in
  growth <- py_pow_int (1 + arpa_growth) (month_index + 1) ;;
  let arpa := RevenuePlan.initial_arpa plan * growth in
  let arpa := arpa * seasonal_factor in
  let base_revenue := active_customers * arpa in
  let discount :=
    base_revenue * MonthlySchedule.value_for (RevenuePlan.discount_rate plan) month_index in
  let expansion_revenue := base_revenue * expansion_rate in
  let contraction_revenue := base_revenue * contraction_rate in
  let gross_revenue := base_revenue + expansion_revenue - contraction_revenue in
  let services_revenue :=
    RevenuePlan.services_attach_rate plan * new_customers * RevenuePlan.services_asp plan in
  let transactional_revenue :=
    MonthlySchedule.value_for (RevenuePlan.transactional_volume plan) month_index
    * RevenuePlan.transactional_fee plan in
  let gross_revenue := gross_revenue + (services_revenue + transactional_revenue) in
  '(recognized, deferred) <-
    (if (0 <? RevenuePlan.revenue_deferral_months plan)%Z then
       match PlanState.deferred_revenue state ++ [gross_revenue] with
       | [] => Raise IndexError
       | head :: rest =>
           Ok (head / float_of_int (Z.max 1 (RevenuePlan.revenue_deferral_months plan)),
               rest)
       end
     else Ok (gross_revenue, PlanState.deferred_revenue state)) ;;
  Ok {| acc_total_gross := acc_total_gross acc + gross_revenue;
        acc_total_net := acc_total_net acc + (recognized - discount);
        acc_total_churn := acc_total_churn acc + churned_customers * arpa;
        acc_total_expansion := acc_total_expansion acc + expansion_revenue;
        acc_arr := acc_arr acc + recognized * fl 12;
        acc_plan_states :=
          sset (RevenuePlan.name plan) (PlanState.mk active_customers deferred)
            (acc_plan_states acc);
        acc_lines :=
          acc_lines acc
          ++ [PlanLine.mk (RevenuePlan.name plan) gross_revenue recognized discount] |}.

Definition _compute_revenue (month_index : Z) (revenue_model : RevenueModel.t)
  (plan_states : sdict PlanState.t)
  : result (RevenueSummary.t * sdict PlanState.t * list PlanLine.t) :=
  acc <- for_each (revenue_plan_body month_index) (RevenueModel.plans revenue_model)
           (mkRevenueAcc 0 0 0 0 0 plan_states []) ;;
  let total_gross :=
    acc_total_gross acc
    + MonthlySchedule.value_for (RevenueModel.professional_services_revenue revenue_model)
        month_index in
  let total_net :=
    acc_total_net acc
    + MonthlySchedule.value_for (RevenueModel.other_recurring_revenue revenue_model)
        month_index in
  Ok (RevenueSummary.mk total_gross total_net (acc_total_churn acc)
        (acc_total_expansion acc) (acc_arr acc),
      acc_plan_states acc, acc_lines acc).

(* ------------------------------------------------------------------ *)
(** ** [_compute_revenue_taxes] *)

Definition tax_base_value (revenue_summary : RevenueSummary.t) (payroll_total : Qc)
  (b : TaxBase) : Qc :=
  match b with
  | GROSS_REVENUE => RevenueSummary.total_gross revenue_summary
  | NET_REVENUE => RevenueSummary.total_net revenue_summary
  | PAYROLL => payroll_total
  | EBIT | EBT => RevenueSummary.total_net revenue_summary
  end.

Definition _compute_revenue_taxes (revenue_summary : RevenueSummary.t)
  (tax_model : TaxModel.t) (payroll_total : Qc) : Qc * list TaxBreakdown.t :=
  fold_left
    (fun '(tax_amount, breakdown) tax =>
       let base := tax_base_value revenue_summary payroll_total (TaxComponent.base tax) in
       let amount := base * TaxComponent.rate tax in
       let breakdown := breakdown ++ [TaxBreakdown.mk (TaxComponent.name tax) amount] in
       match TaxComponent.base tax with
       | GROSS_REVENUE | NET_REVENUE => (tax_amount + amount, breakdown)
       | _ => (tax_amount, breakdown)
       end)
    (TaxModel.taxes tax_model) (0, []).

(* ------------------------------------------------------------------ *)
(** ** [_compute_depreciation] *)

Definition _compute_depreciation (month_index : Z)
  (capex_schedule : list (Z * CapexItem.t))
  (depreciation_tracks : list DepreciationTrack)
  (fixed_assets accumulated_depreciation : Qc)
  : result (Qc * Qc * Qc * list DepreciationTrack) :=
  let '(fixed_assets, depreciation_tracks) :=
    fold_left
      (fun '(fa, tracks) '(idx, item) =>
         if (idx =? month_index)%Z then
           (fa + CapexItem.amount item,
            tracks ++ [(CapexItem.useful_life_months item, CapexItem.amount item,
                        CapexItem.salvage_value item)])
         else (fa, tracks))
      capex_schedule (fixed_assets, depreciation_tracks) in
  '(depreciation, updated_tracks) <-
    for_each
      (fun '(depreciation, updated) '(remaining, amount, salvage) =>
         if (remaining <=? 0)%Z then Ok (depreciation, updated)
         else
           q <- py_div (amount - salvage) (float_of_int remaining) ;;
           let monthly_dep := py_max 0 q in
           Ok (depreciation + monthly_dep,
               updated ++ [((remaining - 1)%Z, amount, salvage)]))
      depreciation_tracks (0, []) ;;
  let accumulated_depreciation := accumulated_depreciation + depreciation in
  Ok (depreciation, accumulated_depreciation, fixed_assets, updated_tracks).

(* ------------------------------------------------------------------ *)
(** ** [_compute_debt] *)

Definition debt_state_body (acc : Qc * Qc * list DebtState.t) (state : DebtState.t)
  : result (Qc * Qc * list DebtState.t) :=
  let '(interest_expense, principal_paid, updated_states) := acc in
  if Qcleb (DebtState.outstanding state) 0 then Ok acc
  else
    let interest := DebtState.outstanding state * (DebtState.interest_rate state / fl 12) in
    let interest_expense := interest_expense + interest in
    if (0 <? DebtState.grace_months state)%Z then
      Ok (interest_expense, principal_paid,
          updated_states
          ++ [DebtState.mk (DebtState.name state) (DebtState.outstanding state)
                (DebtState.interest_rate state) (DebtState.term_months state)
                (DebtState.remaining_term state) (DebtState.grace_months state - 1)%Z])
    else
      principal_payment <-
        (if (0 <? DebtState.remaining_term state)%Z
         then py_div (DebtState.outstanding state) (float_of_int (DebtState.remaining_term state))
         else Ok (DebtState.outstanding state)) ;;
      let principal_payment := py_min principal_payment (DebtState.outstanding state) in
      let principal_paid := principal_paid + principal_payment in
      let outstanding := DebtState.outstanding state - principal_payment in
      let remaining_term := Z.max 0 (DebtState.remaining_term state - 1) in
      let state' :=
        DebtState.mk (DebtState.name state) outstanding (DebtState.interest_rate state)
          (DebtState.term_months state) remaining_term (DebtState.grace_months state) in
      Ok (interest_expense, principal_paid,
          if Qcleb outstanding (fl (1 # 1000000)) then updated_states
          else updated_states ++ [state']).

Definition _compute_debt (month_index : Z) (funding_model : FundingModel.t)
  (debt_states : list DebtState.t) (starting_debt_balance : Qc)
  : result (Qc * Qc * list DebtState.t) :=
  let debt_states :=
    fold_left
      (fun states instrument =>
         if (DebtInstrument.month_index instrument =? month_index)%Z then
           states
           ++ [DebtState.mk (DebtInstrument.name instrument)
                 (DebtInstrument.amount instrument)
                 (DebtInstrument.interest_rate_annual instrument)
                 (DebtInstrument.term_months instrument)
                 (DebtInstrument.term_months instrument)
                 (DebtInstrument.grace_period_months instrument)]
         else states)
      (FundingModel.debt funding_model) debt_states in
  for_each debt_state_body debt_states (0, 0, []).

(* ------------------------------------------------------------------ *)
(** ** [_compute_working_capital] and [_funding_inflows] *)

Definition _compute_working_capital (wc_model : WorkingCapitalModel.t)
  (net_revenue cost_base : Qc) (revenue_summary : RevenueSummary.t)
  (previous_ar previous_ap previous_inventory : Qc) : WorkingCapitalDelta.t :=
  let target_ar := net_revenue * (WorkingCapitalModel.dso wc_model / fl 30) in
  let target_ap := cost_base * (WorkingCapitalModel.dpo wc_model / fl 30) in
  let target_inventory :=
    RevenueSummary.total_gross revenue_summary * (WorkingCapitalModel.dio wc_model / fl 30) in
  let change_ar := target_ar - previous_ar in
  let change_ap := target_ap - previous_ap in
  let change_inventory := target_inventory - previous_inventory in
  let total_change := change_ar - change_ap + change_inventory in
  WorkingCapitalDelta.mk change_ar change_ap change_inventory total_change.

Definition _funding_inflows (month_index : Z) (funding_model : FundingModel.t) : Qc * Qc :=
  let equity :=
    py_sum (map EquityRound.amount
              (filter (fun round => (EquityRound.month_index round =? month_index)%Z)
                 (FundingModel.equity_rounds funding_model))) in
  let debt :=
    py_sum (map DebtInstrument.amount
              (filter (fun instrument => (DebtInstrument.month_index instrument =? month_index)%Z)
                 (FundingModel.debt funding_model))) in
  (equity, debt).

(* ------------------------------------------------------------------ *)
(** ** The part of the calculator that uses fractional powers *)

Section Calculator.

(** [fpow b e] stands for the float [b ** e] with a float exponent. *)
Variable fpow : Qc -> Qc -> Qc.

Definition monthly_factor (ix : InflationIndex.t) : Qc :=
  fpow (1 + InflationIndex.annual_rate ix) (1 / fl 12) - 1.

Definition factor_for_month (p : PriceAdjustment.t) (month_index : Z) : Qc :=
  let base := PriceAdjustment.custom_monthly_rate p in
  match PriceAdjustment.indexer p with
  | Some ix => base + monthly_factor ix
  | None => base
  end.

(* ------------------------------------------------------------------ *)
(** ** [_compute_headcount] *)

(** [hiring_lookup[hire.month_index].append(hire)] over all hires. *)
Definition build_hiring_lookup (hires : list HiringPlan.t) : list (Z * list HiringPlan.t) :=
  fold_left
    (fun lookup hire =>
       zset (HiringPlan.month_index hire)
         (dict_get_default Z.eqb (HiringPlan.month_index hire) [] lookup ++ [hire])
         lookup)
    hires [].

Definition apply_hire (hire : HiringPlan.t) (states : sdict HeadcountState.t)
  : result (sdict HeadcountState.t) :=
  match sget (HiringPlan.role hire) states with
  | None => Raise KeyError
  | Some state =>
      let fte := HeadcountState.fte state + HiringPlan.quantity hire in
      let current_salary :=
        match HiringPlan.salary_override hire with
        | Some s => if truthy s then s else HeadcountState.current_salary state
        | None => HeadcountState.current_salary state
        end in
      Ok (sset (HiringPlan.role hire)
            (HeadcountState.mk (HeadcountState.position state) fte current_salary)
            states)
  end.

Definition hire_body (headcount_model : HeadcountModel.t)
  (states : sdict HeadcountState.t) (hire : HiringPlan.t)
  : result (sdict HeadcountState.t) :=
  match sget (HiringPlan.role hire) states with
  | Some _ => apply_hire hire states
  | None =>
      match find (fun pos => String.eqb (HeadcountPosition.role pos) (HiringPlan.role hire))
              (HeadcountModel.positions headcount_model) with
      | None => Ok states
      | Some matching =>
          apply_hire hire
            (sset (HiringPlan.role hire)
               (HeadcountState.mk matching 0 (HeadcountPosition.base_salary matching))
               states)
      end
  end.

(** The five counters kept per area in [area_totals]. *)
Record AreaMetrics : Type := mkAreaMetrics {
  m_salaries : Qc;
  m_benefits : Qc;
  m_subscriptions : Qc;
  m_total : Qc;
  m_fte : Qc
}.

Definition payroll_body (month_index : Z) (attrition_rate : Qc)
  (acc : sdict HeadcountState.t * Qc * sdict AreaMetrics)
  (entry : string * HeadcountState.t)
  : sdict HeadcountState.t * Qc * sdict AreaMetrics :=
  let '(states, payroll_total, area_totals) := acc in
  let '(role, state) := entry in
  if Qcleb (HeadcountState.fte state) 0 then (states ++ [entry], payroll_total, area_totals)
  else
    let position := HeadcountState.position state in
    let fte := HeadcountState.fte state * (1 - attrition_rate) in
    let monthly_salary := HeadcountState.current_salary state / fl 12 in
    let salary_cost := fte * monthly_salary in
    let benefits :=
      salary_cost * HeadcountPosition.benefits_pct position
      + fte * HeadcountPosition.benefits_fixed position in
    let bonus := salary_cost * HeadcountPosition.bonus_pct position in
    let payroll_taxes := salary_cost * HeadcountPosition.payroll_taxes_pct position in
    let subs_cost :=
      py_sum (map (fun sub =>
                     SubscriptionCost.monthly_cost sub
                     * (1 + factor_for_month (SubscriptionCost.price_adjustment sub) month_index))
                (HeadcountPosition.subscriptions position))
      * fte in
    let total := salary_cost + benefits + bonus + payroll_taxes + subs_cost in
    let area_data :=
      dict_get_default String.eqb (HeadcountPosition.area position)
        (mkAreaMetrics 0 0 0 0 0) area_totals in
    let area_data :=
      mkAreaMetrics (m_salaries area_data + salary_cost)
        (m_benefits area_data + (benefits + bonus + payroll_taxes))
        (m_subscriptions area_data + subs_cost)
        (m_total area_data + total)
        (m_fte area_data + fte) in
    (states ++ [(role, HeadcountState.mk position fte (HeadcountState.current_salary state))],
     payroll_total + total,
     sset (HeadcountPosition.area position) area_data area_totals).

Definition _compute_headcount (month_index : Z) (headcount_model : HeadcountModel.t)
  (headcount_states : sdict HeadcountState.t)
  (hiring_lookup : list (Z * list HiringPlan.t))
  : result (list HeadcountCostBreakdown.t * Qc * sdict HeadcountState.t) :=
  headcount_states <-
    for_each (hire_body headcount_model)
      (dict_get_default Z.eqb month_index [] hiring_lookup) headcount_states ;;
  let attrition_rate :=
    MonthlySchedule.value_for (HeadcountModel.attrition_pct headcount_model) month_index in
  let '(headcount_states, payroll_total, area_totals) :=
    fold_left (payroll_body month_index attrition_rate) headcount_states ([], 0, []) in
  let breakdown :=
    map (fun '(area, metrics) =>
           HeadcountCostBreakdown.mk area (m_salaries metrics) (m_benefits metrics)
             (m_subscriptions metrics) (m_total metrics) (m_fte metrics))
      area_totals in
  Ok (breakdown, payroll_total, headcount_states).

(* ------------------------------------------------------------------ *)
(** ** [_compute_costs] *)

Definition add_cost (allocation : CostAllocation) (center : CostCenter) (amount : Qc)
  (acc : list (CostCenter * Qc) * Qc * Qc) : list (CostCenter * Qc) * Qc * Qc :=
  let '(breakdown, cogs_total, opex_total) := acc in
  let breakdown :=
    dict_set CostCenter_eqb center
      (dict_get_default CostCenter_eqb center 0 breakdown + amount) breakdown in
  match allocation with
  | COGS => (breakdown, cogs_total + amount, opex_total)
  | OPEX => (breakdown, cogs_total, opex_total + amount)
  end.

Definition cost_item_body (month_index : Z) (revenue_summary : RevenueSummary.t)
  (acc : list (CostCenter * Qc) * Qc * Qc) (item : CostItem.t)
  : list (CostCenter * Qc) * Qc * Qc :=
  let base_amount :=
    match CostItem.nature item with
    | VARIABLE =>
        let driver_value :=
          if String.eqb (CostItem.driver item) "revenue"
          then RevenueSummary.total_net revenue_summary
          else RevenueSummary.total_gross revenue_summary in
        driver_value * CostItem.variable_rate item
    | FIXED => CostItem.base_amount item
    end in
  let amount := base_amount * MonthlySchedule.value_for (CostItem.schedule item) month_index in
  let amount := amount * (1 + factor_for_month (CostItem.price_adjustment item) month_index) in
  add_cost (CostItem.allocation item) (CostItem.cost_center item) amount acc.

Definition contract_body (month_index : Z) (acc : list (CostCenter * Qc) * Qc * Qc)
  (contract : SupplierContract.t) : result (list (CostCenter * Qc) * Qc * Qc) :=
  if (month_index <? SupplierContract.start_month contract)%Z then Ok acc
  else
    q <- py_floordiv (month_index - SupplierContract.start_month contract)
           (SupplierContract.escalation_frequency_months contract) ;;
    let escalations := Z.max 0 q in
    growth <- py_pow_int (1 + SupplierContract.escalation_pct contract) escalations ;;
    let amount := SupplierContract.base_amount contract * growth in
    Ok (add_cost (SupplierContract.allocation contract)
          (SupplierContract.cost_center contract) amount acc).

Definition _compute_costs (month_index : Z) (cost_model : CostModel.t)
  (revenue_summary : RevenueSummary.t) : result (list CostBreakdown.t * Qc * Qc) :=
  let acc :=
    fold_left (cost_item_body month_index revenue_summary) (CostModel.items cost_model)
      ([], 0, 0) in
  '(breakdown, cogs_total, opex_total) <-
    for_each (contract_body month_index) (CostModel.supplier_contracts cost_model) acc ;;
  Ok (map (fun '(center, value) => CostBreakdown.mk center value) breakdown,
      cogs_total, opex_total).

(* ------------------------------------------------------------------ *)
(** ** Annual accumulators *)

(** The keys of one [annual_accumulators[year]] bundle. *)
Record IncomeAcc : Type := mkIncomeAcc {
  a_gross_revenue : Qc;
  a_revenue_taxes : Qc;
  a_net_revenue : Qc;
  a_cogs : Qc;
  a_operating_expenses : Qc;
  a_ebitda : Qc;
  a_depreciation : Qc;
  a_amortization : Qc;
  a_ebit : Qc;
  a_interest : Qc;
  a_ebt : Qc;
  a_income_tax : Qc;
  a_net_income : Qc
}.

(** The keys of one [annual_cash[year]] bundle. *)
Record CashAcc : Type := mkCashAcc {
  a_operating : Qc;
  a_investing : Qc;
  a_financing : Qc;
  a_fcff : Qc;
  a_fcfe : Qc
}.

Definition IncomeAcc_zero : IncomeAcc := mkIncomeAcc 0 0 0 0 0 0 0 0 0 0 0 0 0.
Definition CashAcc_zero : CashAcc := mkCashAcc 0 0 0 0 0.

Definition _accumulate_annual (period_start : date)
  (income_statement : IncomeStatement.t) (cash_flow : CashFlowStatement.t)
  (accumulators : list (Z * IncomeAcc)) (cash_accumulators : list (Z * CashAcc))
  : list (Z * IncomeAcc) * list (Z * CashAcc) :=
  let y := year period_start in
  let acc := dict_get_default Z.eqb y IncomeAcc_zero accumulators in
  let acc :=
    mkIncomeAcc
      (a_gross_revenue acc + IncomeStatement.gross_revenue income_statement)
      (a_revenue_taxes acc + IncomeStatement.revenue_taxes income_statement)
      (a_net_revenue acc + IncomeStatement.net_revenue income_statement)
      (a_cogs acc + IncomeStatement.cogs income_statement)
      (a_operating_expenses acc + IncomeStatement.operating_expenses income_statement)
      (a_ebitda acc + IncomeStatement.ebitda income_statement)
      (a_depreciation acc + IncomeStatement.depreciation income_statement)
      (a_amortization acc + IncomeStatement.amortization income_statement)
      (a_ebit acc + IncomeStatement.ebit income_statement)
      (a_interest acc + IncomeStatement.interest income_statement)
      (a_ebt acc + IncomeStatement.ebt income_statement)
      (a_income_tax acc + IncomeStatement.income_tax income_statement)
      (a_net_income acc + IncomeStatement.net_income income_statement) in
  let cash_acc := dict_get_default Z.eqb y CashAcc_zero cash_accumulators in
  let cash_acc :=
    mkCashAcc
      (a_operating cash_acc + CashFlowStatement.operating_cash_flow cash_flow)
      (a_investing cash_acc + CashFlowStatement.investing_cash_flow cash_flow)
      (a_financing cash_acc + CashFlowStatement.financing_cash_flow cash_flow)
      (a_fcff cash_acc + CashFlowStatement.fcff cash_flow)
      (a_fcfe cash_acc + CashFlowStatement.fcfe cash_flow) in
  (zset y acc accumulators, zset y cash_acc cash_accumulators).

(** [sorted(keys)] *)
Fixpoint insert_sorted (k : Z) (ks : list Z) : list Z :=
  match ks with
  | [] => [k]
  | k' :: rest => if (k <=? k')%Z then k :: ks else k' :: insert_sorted k rest
  end.

Definition sorted (ks : list Z) : list Z := fold_right insert_sorted [] ks.

Definition _build_annual_summaries (accumulators : list (Z * IncomeAcc))
  (cash_accumulators : list (Z * CashAcc)) : list AnnualSummary.t :=
  map (fun y =>
         let acc := dict_get_default Z.eqb y IncomeAcc_zero accumulators in
         let cash_acc := dict_get_default Z.eqb y CashAcc_zero cash_accumulators in
         let income :=
           IncomeStatement.mk (a_gross_revenue acc) (a_revenue_taxes acc) (a_net_revenue acc)
             (a_cogs acc) (a_net_revenue acc - a_cogs acc) (a_operating_expenses acc)
             (a_ebitda acc) (a_depreciation acc) (a_amortization acc) (a_ebit acc)
             (a_interest acc) (a_ebt acc) (a_income_tax acc) (a_net_income acc) in
         let cash_flow :=
           CashFlowStatement.mk (a_operating cash_acc) (a_investing cash_acc)
             (a_financing cash_acc)
             (a_operating cash_acc + a_investing cash_acc + a_financing cash_acc)
             0 (a_fcff cash_acc) (a_fcfe cash_acc) in
         AnnualSummary.mk y income cash_flow)
    (sorted (dict_keys accumulators)).

(* ------------------------------------------------------------------ *)
(** ** [run]: the state carried by the monthly loop *)

Record LoopState : Type := mkLoopState {
  st_plan_states : sdict PlanState.t;
  st_headcount_states : sdict HeadcountState.t;
  st_debt_states : list DebtState.t;
  st_depreciation_tracks : list DepreciationTrack;
  st_cash : Qc;
  st_accounts_receivable : Qc;
  st_accounts_payable : Qc;
  st_inventory : Qc;
  st_fixed_assets : Qc;
  st_accumulated_depreciation : Qc;
  st_debt_balance : Qc;
  st_equity : Qc;
  st_annual_accumulators : list (Z * IncomeAcc);
  st_annual_cash : list (Z * CashAcc)
}.

(** Locals of one iteration of the loop that the statements do not store:
    the principal repaid, the financing cash flow and the cash before the
    backstop, the shortfall it injected (0 when it did not fire) and the
    per-plan revenue lines. *)
Record MonthTrace : Type := mkMonthTrace {
  tr_principal_paid : Qc;
  tr_financing_before_backstop : Qc;
  tr_cash_before_backstop : Qc;
  tr_backstop_fired : bool;
  tr_shortfall : Qc;
  tr_equity_before : Qc;
  tr_equity_raise : Qc;
  tr_plan_lines : list PlanLine.t
}.

(** [{plan.name: PlanState(...) for plan in scenario.revenue.plans}] *)
Definition init_plan_states (plans : list RevenuePlan.t) : sdict PlanState.t :=
  fold_left
    (fun d plan =>
       sset (RevenuePlan.name plan)
         (PlanState.mk (RevenuePlan.initial_customers plan)
            (repeat 0 (Z.to_nat (RevenuePlan.revenue_deferral_months plan))))
         d)
    plans [].

Definition init_headcount_states (positions : list HeadcountPosition.t)
  : sdict HeadcountState.t :=
  fold_left
    (fun d pos =>
       sset (HeadcountPosition.role pos)
         (HeadcountState.mk pos (HeadcountPosition.current_fte pos)
            (HeadcountPosition.base_salary pos))
         d)
    positions [].

(** [company_state.equity or (company_state.cash + company_state.net_fixed_assets())] *)
Definition initial_equity (company_state : CompanyState.t) : Qc :=
  if truthy (CompanyState.equity company_state) then CompanyState.equity company_state
  else CompanyState.cash company_state + CompanyState.net_fixed_assets company_state.

Definition init_state (scenario : ScenarioInput.t) : LoopState :=
  let company_state := ScenarioInput.company_state scenario in
  {| st_plan_states := init_plan_states (RevenueModel.plans (ScenarioInput.revenue scenario));
     st_headcount_states :=
       init_headcount_states (HeadcountModel.positions (ScenarioInput.headcount scenario));
     st_debt_states := [];
     st_depreciation_tracks := [];
     st_cash := CompanyState.cash company_state;
     st_accounts_receivable := CompanyState.accounts_receivable company_state;
     st_accounts_payable := CompanyState.accounts_payable company_state;
     st_inventory := CompanyState.inventory company_state;
     st_fixed_assets := CompanyState.fixed_assets company_state;
     st_accumulated_depreciation := CompanyState.accumulated_depreciation company_state;
     st_debt_balance := CompanyState.debt company_state;
     st_equity := initial_equity company_state;
     st_annual_accumulators := [];
     st_annual_cash := [] |}.

(* ------------------------------------------------------------------ *)
(** ** [run]: one iteration of the monthly loop *)

Definition month_body (scenario : ScenarioInput.t)
  (hiring_lookup : list (Z * list HiringPlan.t))
  (capex_schedule : list (Z * CapexItem.t))
  (st : LoopState) (month_index : Z)
  : result (LoopState * MonthlyProjection.t * MonthTrace) :=
  let funding := ScenarioInput.funding scenario in
  let taxes := ScenarioInput.taxes scenario in
  let costs := ScenarioInput.costs scenario in
  let wc := ScenarioInput.working_capital scenario in
  period_start <-
    _add_months (TimeframeSettings.start_date (ScenarioInput.timeframe scenario))
      month_index ;;
  '(revenue_summary, plan_states, plan_lines) <-
    _compute_revenue month_index (ScenarioInput.revenue scenario) (st_plan_states st) ;;
  '(headcount_breakdown, payroll_total, headcount_states) <-
    _compute_headcount month_index (ScenarioInput.headcount scenario)
      (st_headcount_states st) hiring_lookup ;;
  '(cost_breakdown, total_cogs, total_opex) <-
    _compute_costs month_index costs revenue_summary ;;
  let total_cogs :=
    total_cogs
    + CostModel.cogs_per_customer costs
      * py_sum (map PlanState.active_customers (dict_values plan_states)) in
  let total_cogs :=
    total_cogs + CostModel.cogs_variable_pct costs * RevenueSummary.total_net revenue_summary in
  let '(revenue_taxes_amount, tax_breakdown_components) :=
    _compute_revenue_taxes revenue_summary taxes payroll_total in
  let gross_revenue := RevenueSummary.total_gross revenue_summary in
  let net_revenue := RevenueSummary.total_net revenue_summary - revenue_taxes_amount in
  let gross_margin := net_revenue - total_cogs in
  let operating_expenses := total_opex + payroll_total in
  let ebitda := gross_margin - operating_expenses in
  '(depreciation, accumulated_depreciation, fixed_assets, depreciation_tracks) <-
    _compute_depreciation month_index capex_schedule (st_depreciation_tracks st)
      (st_fixed_assets st) (st_accumulated_depreciation st) ;;
  let amortization := 0 in
  let ebit := ebitda - depreciation - amortization in
  '(interest_expense, principal_paid, debt_states) <-
    _compute_debt month_index funding (st_debt_states st) (st_debt_balance st) ;;
  let debt_balance :=
    st_debt_balance st
    + py_sum (map DebtInstrument.amount
                (filter (fun new_debt => (DebtInstrument.month_index new_debt =? month_index)%Z)
                   (FundingModel.debt funding))) in
  let debt_balance := debt_balance - principal_paid in
  let ebt := ebit - interest_expense in
  let income_tax := py_max 0 ebt * TaxModel.effective_income_tax_rate taxes in
  let net_income := ebt - income_tax in
  let working_capital_delta :=
    _compute_working_capital wc net_revenue (total_cogs + operating_expenses)
      revenue_summary (st_accounts_receivable st) (st_accounts_payable st)
      (st_inventory st) in
  let accounts_receivable :=
    st_accounts_receivable st + WorkingCapitalDelta.change_ar working_capital_delta in
  let accounts_payable :=
    st_accounts_payable st + WorkingCapitalDelta.change_ap working_capital_delta in
  let inventory :=
    st_inventory st + WorkingCapitalDelta.change_inventory working_capital_delta in
  let capex_amount :=
    py_sum (map (fun entry => CapexItem.amount (snd entry))
              (filter (fun entry => (fst entry =? month_index)%Z) capex_schedule)) in
  let operating_cash_flow :=
    net_income + depreciation + amortization
    - WorkingCapitalDelta.total_change working_capital_delta in
  let investing_cash_flow := - capex_amount in
  let '(equity_raise, debt_inflows) := _funding_inflows month_index funding in
  let financing_before := equity_raise + debt_inflows - principal_paid - interest_expense in
  let fcff :=
    ebit * (1 - TaxModel.effective_income_tax_rate taxes) + depreciation + amortization
    - WorkingCapitalDelta.total_change working_capital_delta - capex_amount in
  let fcfe := fcff - principal_paid + debt_inflows in
  let net_change_in_cash := operating_cash_flow + investing_cash_flow + financing_before in
  let cash_before := st_cash st + net_change_in_cash in
  let fired := negb (Qcleb (WorkingCapitalModel.min_cash_balance wc) cash_before) in
  let shortfall :=
    if fired then WorkingCapitalModel.min_cash_balance wc - cash_before else 0 in
  let cash := if fired then cash_before + shortfall else cash_before in
  let financing_cash_flow :=
    if fired then financing_before + shortfall else financing_before in
  let equity := if fired then st_equity st + shortfall else st_equity st in
  let equity := equity + (net_income + equity_raise) in
  let income_statement :=
    IncomeStatement.mk gross_revenue revenue_taxes_amount net_revenue total_cogs
      gross_margin operating_expenses ebitda depreciation amortization ebit
      interest_expense ebt income_tax net_income in
  let balance_sheet :=
    BalanceSheet.mk cash accounts_receivable inventory fixed_assets
      accumulated_depreciation accounts_payable debt_balance equity in
  let cash_flow :=
    CashFlowStatement.mk operating_cash_flow investing_cash_flow financing_cash_flow
      net_change_in_cash cash fcff fcfe in
  let projection :=
    MonthlyProjection.mk period_start income_statement balance_sheet cash_flow
      revenue_summary headcount_breakdown cost_breakdown tax_breakdown_components
      working_capital_delta in
  let '(annual_accumulators, annual_cash) :=
    _accumulate_annual period_start income_statement cash_flow
      (st_annual_accumulators st) (st_annual_cash st) in
  Ok ({| st_plan_states := plan_states;
         st_headcount_states := headcount_states;
         st_debt_states := debt_states;
         st_depreciation_tracks := depreciation_tracks;
         st_cash := cash;
         st_accounts_receivable := accounts_receivable;
         st_accounts_payable := accounts_payable;
         st_inventory := inventory;
         st_fixed_assets := fixed_assets;
         st_accumulated_depreciation := accumulated_depreciation;
         st_debt_balance := debt_balance;
         st_equity := equity;
         st_annual_accumulators := annual_accumulators;
         st_annual_cash := annual_cash |},
      projection,
      mkMonthTrace principal_paid financing_before cash_before fired shortfall
        (st_equity st) equity_raise plan_lines).

(** The monthly loop, [for month_index in range(months)]: the final state
    and, per month, the projection appended to [monthly_results] with the
    locals of that iteration. *)
Fixpoint run_loop (scenario : ScenarioInput.t)
  (hiring_lookup : list (Z * list HiringPlan.t))
  (capex_schedule : list (Z * CapexItem.t))
  (month_indices : list Z) (st : LoopState)
  : result (LoopState * list (MonthlyProjection.t * MonthTrace)) :=
  match month_indices with
  | [] => Ok (st, [])
  | month_index :: rest =>
      '(st', projection, trace) <-
        month_body scenario hiring_lookup capex_schedule st month_index ;;
      '(final, later) <- run_loop scenario hiring_lookup capex_schedule rest st' ;;
      Ok (final, (projection, trace) :: later)
  end.

Definition run_months (scenario : ScenarioInput.t)
  : result (LoopState * list (MonthlyProjection.t * MonthTrace)) :=
  let months := TimeframeSettings.months (ScenarioInput.timeframe scenario) in
  let hiring_lookup :=
    build_hiring_lookup (HeadcountModel.hires (ScenarioInput.headcount scenario)) in
  let capex_schedule :=
    map (fun item => (CapexItem.month_index item, item))
      (CapexModel.items (ScenarioInput.capex scenario)) in
  run_loop scenario hiring_lookup capex_schedule (py_range months) (init_state scenario).

(* ------------------------------------------------------------------ *)
(** ** Valuation *)

Definition _compute_terminal_value (valuation_settings : ValuationSettings.t)
  (annual_summaries : list AnnualSummary.t) : result Qc :=
  match rev annual_summaries with
  | [] => Ok 0
  | last :: _ =>
      match ValuationSettings.terminal_method valuation_settings with
      | PERPETUITY =>
          let fcff := CashFlowStatement.fcff (AnnualSummary.cash_flow last) / fl 12 in
          py_div (fcff * (1 + ValuationSettings.perpetual_growth_rate valuation_settings))
            (ValuationSettings.wacc valuation_settings
             - ValuationSettings.perpetual_growth_rate valuation_settings)
      | MULTIPLE =>
          let metric_value :=
            match ValuationSettings.terminal_multiple_metric valuation_settings with
            | EBITDA => IncomeStatement.ebitda (AnnualSummary.income_statement last)
            | REVENUE => IncomeStatement.net_revenue (AnnualSummary.income_statement last)
            | ARR => IncomeStatement.net_revenue (AnnualSummary.income_statement last)
            end in
          Ok (metric_value * ValuationSettings.terminal_multiple valuation_settings)
      end
  end.

Definition _compute_multiples (valuation_settings : ValuationSettings.t)
  (annual_summaries : list AnnualSummary.t) : list MultipleValuationResult.t :=
  match rev annual_summaries with
  | [] => []
  | last :: _ =>
      let metrics :=
        [(EBITDA, IncomeStatement.ebitda (AnnualSummary.income_statement last));
         (REVENUE, IncomeStatement.net_revenue (AnnualSummary.income_statement last));
         (ARR, IncomeStatement.net_revenue (AnnualSummary.income_statement last))] in
      map (fun '(metric, value) =>
             let multiple :=
               if MultipleMetric_eqb metric
                    (ValuationSettings.terminal_multiple_metric valuation_settings)
               then ValuationSettings.terminal_multiple valuation_settings
               else if truthy (ValuationSettings.exit_year_multiple valuation_settings)
                    then ValuationSettings.exit_year_multiple valuation_settings
                    else ValuationSettings.terminal_multiple valuation_settings in
             MultipleValuationResult.mk metric multiple (value * multiple))
        metrics
  end.

Definition _compute_vc_method (valuation_settings : ValuationSettings.t)
  (funding_model : FundingModel.t) (annual_summaries : list AnnualSummary.t)
  : result VCValuationResult.t :=
  match rev annual_summaries with
  | [] => Ok (VCValuationResult.mk 0 0 0 0)
  | last :: _ =>
      let exit_metric := IncomeStatement.net_revenue (AnnualSummary.income_statement last) in
      let exit_value := exit_metric * ValuationSettings.exit_year_multiple valuation_settings in
      growth <- py_pow_int (1 + ValuationSettings.discount_rate_vc valuation_settings)
                  (ValuationSettings.target_exit_year valuation_settings) ;;
      discounted_exit <- py_div exit_value growth ;;
      let investment :=
        py_sum (map EquityRound.amount (FundingModel.equity_rounds funding_model)) in
      required_ownership <-
        (if truthy discounted_exit
         then py_div investment
                (discounted_exit * ValuationSettings.probability_of_success valuation_settings)
         else Ok 0) ;;
      post_money <-
        (if truthy required_ownership
         then py_div investment (py_max required_ownership (fl (1 # 1000000)))
         else Ok exit_value) ;;
      let pre_money := post_money - investment in
      Ok (VCValuationResult.mk exit_value (py_min 1 required_ownership) post_money pre_money)
  end.

Definition _compute_scorecard (valuation_settings : ValuationSettings.t) (base_equity : Qc)
  : result (option ScorecardValuationResult.t) :=
  let weights := ValuationSettings.scorecard_weights valuation_settings in
  match weights with
  | [] => Ok None
  | _ =>
      let total_weight := py_sum (dict_values weights) in
      normalized <-
        for_each (fun d '(k, v) => q <- py_div v total_weight ;; Ok (sset k q d))
          weights [] ;;
      let score := py_sum (dict_values normalized) in
      let valuation := base_equity * score in
      Ok (Some (ScorecardValuationResult.mk score valuation))
  end.

(** [sum(cf / df for cf, df in zip(cash_flows, discount_factors))] *)
Definition pv_sum (cash_flows discount_factors : list Qc) : result Qc :=
  for_each (fun acc '(cf, df) => q <- py_div cf df ;; Ok (acc + q))
    (combine cash_flows discount_factors) 0.

Definition _build_valuation (monthly_results : list MonthlyProjection.t)
  (annual_summaries : list AnnualSummary.t) (scenario : ScenarioInput.t)
  : result ValuationResult.t :=
  let cash_flows :=
    map (fun month => CashFlowStatement.fcff (MonthlyProjection.cash_flow month))
      monthly_results in
  let valuation_settings := ScenarioInput.valuation scenario in
  let wacc := ValuationSettings.wacc valuation_settings in
  let n := Z.of_nat (List.length cash_flows) in
  let discount_factors :=
    map (fun i => fpow (1 + wacc) (float_of_int (i + 1) / fl 12)) (py_range n) in
  pv_cash_flows <- pv_sum cash_flows discount_factors ;;
  terminal_value <- _compute_terminal_value valuation_settings annual_summaries ;;
  pv_terminal <- py_div terminal_value (fpow (1 + wacc) (float_of_int n / fl 12)) ;;
  let enterprise_value := pv_cash_flows + pv_terminal in
  last_month <- py_last monthly_results ;;
  let last_balance := MonthlyProjection.balance_sheet last_month in
  let equity_value :=
    enterprise_value - BalanceSheet.debt last_balance + BalanceSheet.cash last_balance in
  let dcf_result :=
    DiscountedCashFlowResult.mk enterprise_value equity_value pv_cash_flows pv_terminal
      terminal_value discount_factors in
  let multiples := _compute_multiples valuation_settings annual_summaries in
  vc_method <-
    _compute_vc_method valuation_settings (ScenarioInput.funding scenario) annual_summaries ;;
  scorecard <- _compute_scorecard valuation_settings equity_value ;;
  Ok (ValuationResult.mk dcf_result multiples vc_method scorecard).

(* ------------------------------------------------------------------ *)
(** ** Dashboards and [run] *)

Definition _build_dashboards (monthly_results : list MonthlyProjection.t)
  (annual_summaries : list AnnualSummary.t) (valuation : ValuationResult.t)
  : list DashboardSlice.t :=
  let income m := MonthlyProjection.income_statement m in
  let flows m := MonthlyProjection.cash_flow m in
  let months := DLabels (map MonthlyProjection.period_start monthly_results) in
  let revenue_trend :=
    [("months", months);
     ("net_revenue", DSeries (map (fun m => IncomeStatement.net_revenue (income m)) monthly_results));
     ("ebitda", DSeries (map (fun m => IncomeStatement.ebitda (income m)) monthly_results))]%string in
  let cash_trend :=
    [("months", months);
     ("cash", DSeries (map (fun m => BalanceSheet.cash (MonthlyProjection.balance_sheet m))
                         monthly_results));
     ("fcff", DSeries (map (fun m => CashFlowStatement.fcff (flows m)) monthly_results))]%string in
  let dcf := ValuationResult.dcf valuation in
  let valuation_slice :=
    [("enterprise_value", DScalar (DiscountedCashFlowResult.enterprise_value dcf));
     ("equity_value", DScalar (DiscountedCashFlowResult.equity_value dcf));
     ("pv_cash_flows", DScalar (DiscountedCashFlowResult.pv_of_cash_flows dcf));
     ("pv_terminal", DScalar (DiscountedCashFlowResult.pv_of_terminal_value dcf))]%string in
  let unit_economics :=
    [("gross_margin_pct",
      DSeries (map (fun m =>
                      if truthy (IncomeStatement.net_revenue (income m))
                      then IncomeStatement.gross_margin (income m)
                           / IncomeStatement.net_revenue (income m)
                      else 0)
                 monthly_results));
     ("burn_rate",
      DSeries (map (fun m =>
                      - (CashFlowStatement.operating_cash_flow (flows m)
                         + CashFlowStatement.investing_cash_flow (flows m)))
                 monthly_results))]%string in
  [DashboardSlice.mk "revenue" revenue_trend;
   DashboardSlice.mk "cash" cash_trend;
   DashboardSlice.mk "valuation" valuation_slice;
   DashboardSlice.mk "unit_economics" unit_economics].

Definition run (scenario : ScenarioInput.t) : result ScenarioResult.t :=
  '(final, months) <- run_months scenario ;;
  let monthly_results := map fst months in
  let annual_summaries :=
    _build_annual_summaries (st_annual_accumulators final) (st_annual_cash final) in
  valuation <- _build_valuation monthly_results annual_summaries scenario ;;
  let dashboards := _build_dashboards monthly_results annual_summaries valuation in
  Ok (ScenarioResult.mk monthly_results annual_summaries valuation dashboards).

End Calculator.

(* ------------------------------------------------------------------ *)
(** ** Concrete scenarios

    A scenario with no plans, no positions and no taxes, that starts on
    2024-01-01 with an empty balance sheet; the costs, the capex items, the
    working-capital policy, the funding and the valuation settings are left
    to the caller. *)

Definition schedule_const (x : Qc) : MonthlySchedule.t := MonthlySchedule.mk x [].

Definition jan_2024 : date := mkDate 2024 1 1.

Definition default_valuation : ValuationSettings.t :=
  ValuationSettings.mk (fl (15 # 100)) 0 PERPETUITY 0 EBITDA 0 5 (fl (3 # 10)) 1 [].

Definition no_costs : CostModel.t := CostModel.mk [] [] 0 0.
Definition no_working_capital : WorkingCapitalModel.t := WorkingCapitalModel.mk 0 0 0 0.
Definition no_funding : FundingModel.t := FundingModel.mk [] [].
Definition no_revenue : RevenueModel.t :=
  RevenueModel.mk [] (schedule_const 0) (schedule_const 0) [].

Definition quiet_scenario (months : Z) (revenue : RevenueModel.t) (costs : CostModel.t)
  (capex_items : list CapexItem.t) (wc : WorkingCapitalModel.t)
  (funding : FundingModel.t) (valuation : ValuationSettings.t) : ScenarioInput.t :=
  ScenarioInput.mk
    (ScenarioMeta.mk "s" "quiet" BASE "America/Sao_Paulo" None)
    (CurrencySettings.mk "BRL" "BRL" 1)
    (TimeframeSettings.mk jan_2024 months)
    (CompanyState.mk jan_2024 0 0 0 0 0 0 0 0)
    revenue
    (HeadcountModel.mk [] [] (schedule_const 0))
    costs
    (TaxModel.mk CUSTOM [] [] [] 0)
    (CapexModel.mk capex_items)
    wc
    funding
    valuation.

(** S5: one capex of 36,000 over 12 months, no salvage, at month 0. *)
Definition capex_36000 : CapexItem.t := CapexItem.mk "asset" 0 (fl 36000) 12 0.

Definition scenario_S5 (months : Z) : ScenarioInput.t :=
  quiet_scenario months no_revenue no_costs [capex_36000] no_working_capital no_funding
    default_valuation.

(** S3: one term debt of 120,000 at 12% over 12 months, no grace. *)
Definition debt_120000 : DebtInstrument.t :=
  DebtInstrument.mk "loan" 0 (fl 120000) (fl (12 # 100)) 12 TERM 0.

Definition scenario_S3 (months : Z) : ScenarioInput.t :=
  quiet_scenario months no_revenue no_costs [] no_working_capital
    (FundingModel.mk [] [debt_120000]) default_valuation.

(** S4: no cash, a minimum cash balance of 50,000 and a fixed operating
    expense of 1,000 a month. *)
Definition rent_1000 : CostItem.t :=
  CostItem.mk "rent" FIXED OPEX GNA (fl 1000) 0 "revenue"
    (PriceAdjustment.mk None 0) (schedule_const 1).

Definition scenario_S4 (months : Z) : ScenarioInput.t :=
  quiet_scenario months no_revenue (CostModel.mk [rent_1000] [] 0 0) []
    (WorkingCapitalModel.mk 0 0 0 (fl 50000)) no_funding default_valuation.

(** The monthly depreciation lines of a run. *)
Definition depreciation_series (fpow : Qc -> Qc -> Qc) (scenario : ScenarioInput.t)
  : result (list Qc) :=
  '(_, months) <- run_months fpow scenario ;;
  Ok (map (fun pm => IncomeStatement.depreciation
                       (MonthlyProjection.income_statement (fst pm))) months).

(** A concrete float power to run examples with: whole powers are exact,
    and between two consecutive whole exponents the value is interpolated
    linearly; exact whenever the base is 1 or the exponent is whole. *)
Definition fpow_example (b e : Qc) : Qc :=
  let n := Qfloor e in
  (if (n <? 0)%Z then / (b ^ Z.to_nat (- n)) else b ^ Z.to_nat n)
  * (1 + (b - 1) * (e - float_of_int n)).

(* ------------------------------------------------------------------ *)
(** * Properties *)

(** ** Numeric tests *)

Lemma Qcleb_le (a b : Qc) : Qcleb a b = true <-> a <= b.
Proof. unfold Qcleb, Qcle. apply Qle_bool_iff. Qed.

Lemma Qcleb_gt (a b : Qc) : Qcleb a b = false <-> b < a.
Proof.
  split; intro H.
  - apply Qcnot_le_lt. intro Hle. apply Qcleb_le in Hle. congruence.
  - destruct (Qcleb a b) eqn:E; [|reflexivity].
    apply Qcleb_le in E. exfalso. exact (Qclt_not_le _ _ H E).
Qed.

Lemma Qc_eq_bool_true (x y : Qc) : Qc_eq_bool x y = true <-> x = y.
Proof.
  unfold Qc_eq_bool. destruct (Qc_eq_dec x y); split; congruence.
Qed.

Lemma Qc_eq_bool_false (x y : Qc) : Qc_eq_bool x y = false <-> x <> y.
Proof.
  unfold Qc_eq_bool. destruct (Qc_eq_dec x y); split; congruence.
Qed.

Lemma truthy_true (x : Qc) : truthy x = true <-> x <> 0.
Proof.
  unfold truthy. rewrite negb_true_iff. apply Qc_eq_bool_false.
Qed.

Lemma truthy_false (x : Qc) : truthy x = false <-> x = 0.
Proof.
  unfold truthy. rewrite negb_false_iff. apply Qc_eq_bool_true.
Qed.

Lemma py_div_ok (a b : Qc) : b <> 0 -> py_div a b = Ok (a / b).
Proof.
  intro H. unfold py_div. apply Qc_eq_bool_false in H. now rewrite H.
Qed.

Lemma py_div_inv (a b q : Qc) : py_div a b = Ok q -> b <> 0 /\ q = a / b.
Proof.
  unfold py_div. destruct (Qc_eq_bool b 0) eqn:E; [discriminate|].
  intro H. injection H as <-. split; [now apply Qc_eq_bool_false | reflexivity].
Qed.

Lemma py_div_zero (a : Qc) : py_div a 0 = Raise ZeroDivisionError.
Proof. reflexivity. Qed.

Lemma py_min_le_l (a b : Qc) : py_min a b <= a.
Proof.
  unfold py_min. destruct (Qcleb a b) eqn:E.
  - apply Qcle_refl.
  - apply Qclt_le_weak. now apply Qcleb_gt.
Qed.

Lemma py_max_ge_l (a b : Qc) : a <= py_max a b.
Proof.
  unfold py_max. destruct (Qcleb b a) eqn:E.
  - apply Qcle_refl.
  - apply Qclt_le_weak. now apply Qcleb_gt.
Qed.

(** Inversion of the error monad. *)
Lemma bind_Ok {A B : Type} (c : result A) (k : A -> result B) (b : B) :
  bind c k = Ok b -> exists a, c = Ok a /\ k a = Ok b.
Proof. destruct c as [a|e]; simpl; [eauto | discriminate]. Qed.

Ltac inv_bind H :=
  let a := fresh "v" in
  let E := fresh "E" in
  apply bind_Ok in H; destruct H as (a & E & H).

(* ------------------------------------------------------------------ *)
(** ** The initial equity balance *)

(** C9. At the start of [run] the equity balance is
    [cash + max(0, fixed_assets - accumulated_depreciation)] when
    [company_state.equity] is zero, and [company_state.equity] itself
    otherwise. *)
Theorem C9_initial_equity_fallback (scenario : ScenarioInput.t) :
  let company_state := ScenarioInput.company_state scenario in
  (CompanyState.equity company_state = 0 ->
   st_equity (init_state scenario) =
     CompanyState.cash company_state
     + py_max 0 (CompanyState.fixed_assets company_state
                 - CompanyState.accumulated_depreciation company_state))
  /\ (CompanyState.equity company_state <> 0 ->
      st_equity (init_state scenario) = CompanyState.equity company_state).
Proof.
  cbn -[py_max Qcplus Qcminus]. unfold initial_equity. split; intro H.
  - apply truthy_false in H. now rewrite H.
  - apply truthy_true in H. now rewrite H.
Qed.

(* ------------------------------------------------------------------ *)
(** ** Cash assembly and the min-cash backstop *)

Section MonthBody.
Variable fpow : Qc -> Qc -> Qc.
Variable scenario : ScenarioInput.t.
Variable hiring_lookup : list (Z * list HiringPlan.t).
Variable capex_schedule : list (Z * CapexItem.t).

Let min_cash : Qc :=
  WorkingCapitalModel.min_cash_balance (ScenarioInput.working_capital scenario).

(** What one iteration does to cash, financing and equity. *)
Lemma month_body_cash st month_index st' p t :
  month_body fpow scenario hiring_lookup capex_schedule st month_index = Ok (st', p, t) ->
  let cf := MonthlyProjection.cash_flow p in
  let bs := MonthlyProjection.balance_sheet p in
  let fired := tr_backstop_fired t in
  CashFlowStatement.net_change_in_cash cf
    = CashFlowStatement.operating_cash_flow cf + CashFlowStatement.investing_cash_flow cf
      + tr_financing_before_backstop t
  /\ tr_cash_before_backstop t = st_cash st + CashFlowStatement.net_change_in_cash cf
  /\ fired = negb (Qcleb min_cash (tr_cash_before_backstop t))
  /\ tr_shortfall t = (if fired then min_cash - tr_cash_before_backstop t else 0)
  /\ CashFlowStatement.financing_cash_flow cf
     = (if fired then tr_financing_before_backstop t + tr_shortfall t
        else tr_financing_before_backstop t)
  /\ CashFlowStatement.ending_cash cf
     = (if fired then tr_cash_before_backstop t + tr_shortfall t
        else tr_cash_before_backstop t)
  /\ BalanceSheet.cash bs = CashFlowStatement.ending_cash cf
  /\ st_cash st' = CashFlowStatement.ending_cash cf
  /\ tr_equity_before t = st_equity st
  /\ BalanceSheet.equity bs
     = (if fired then tr_equity_before t + tr_shortfall t else tr_equity_before t)
       + (IncomeStatement.net_income (MonthlyProjection.income_statement p)
          + tr_equity_raise t)
  /\ st_equity st' = BalanceSheet.equity bs.
Proof.
  unfold month_body. intro H.
  inv_bind H. inv_bind H. destruct v0 as [[revenue_summary plan_states] plan_lines].
  inv_bind H. destruct v0 as [[headcount_breakdown payroll_total] headcount_states].
  inv_bind H. destruct v0 as [[cost_breakdown total_cogs] total_opex].
  destruct (_compute_revenue_taxes _ _ _) as [revenue_taxes_amount tax_breakdown].
  inv_bind H. destruct v0 as [[[depreciation accumulated] fixed] tracks].
  inv_bind H. destruct v0 as [[interest_expense principal_paid] debt_states].
  cbv zeta in H.
  destruct (_funding_inflows month_index _) as [equity_raise debt_inflows].
  destruct (_accumulate_annual _ _ _ _ _) as [annual_accumulators annual_cash].
  injection H as <- <- <-.
  cbn [MonthlyProjection.cash_flow MonthlyProjection.balance_sheet
       MonthlyProjection.income_statement
       CashFlowStatement.net_change_in_cash CashFlowStatement.operating_cash_flow
       CashFlowStatement.investing_cash_flow CashFlowStatement.financing_cash_flow
       CashFlowStatement.ending_cash BalanceSheet.cash BalanceSheet.equity
       IncomeStatement.net_income
       tr_financing_before_backstop tr_cash_before_backstop tr_backstop_fired
       tr_shortfall tr_equity_before tr_equity_raise st_cash st_equity].
  repeat split; reflexivity.
Qed.

(** A property of every iteration holds of every month the loop records. *)
Lemma run_loop_Forall (P : MonthlyProjection.t -> MonthTrace -> Prop) :
  (forall st month_index st' p t,
      month_body fpow scenario hiring_lookup capex_schedule st month_index = Ok (st', p, t) ->
      P p t) ->
  forall month_indices st final months,
    run_loop fpow scenario hiring_lookup capex_schedule month_indices st = Ok (final, months) ->
    Forall (fun pm => P (fst pm) (snd pm)) months.
Proof.
  intros HP. induction month_indices as [|m rest IH]; intros st final months H.
  - injection H as <- <-. constructor.
  - simpl in H. inv_bind H. destruct v as [[st' p] t].
    inv_bind H. destruct v as [final' later]. injection H as <- <-.
    constructor.
    + exact (HP _ _ _ _ _ E).
    + exact (IH _ _ _ E0).
Qed.

Lemma run_loop_length month_indices st final months :
  run_loop fpow scenario hiring_lookup capex_schedule month_indices st = Ok (final, months) ->
  List.length months = List.length month_indices.
Proof.
  revert st final months.
  induction month_indices as [|m rest IH]; intros st final months H.
  - injection H as <- <-. reflexivity.
  - simpl in H. inv_bind H. destruct v as [[st' p] t].
    inv_bind H. destruct v as [final' later]. injection H as <- <-.
    simpl. f_equal. exact (IH _ _ _ E0).
Qed.

End MonthBody.





(* ------------------------------------------------------------------ *)
(** ** Capex depreciation (scenario S5) *)

(** The [accumulated_depreciation] of the balance sheet of each month. *)
Definition accumulated_series (fpow : Qc -> Qc -> Qc) (scenario : ScenarioInput.t)
  : result (list Qc) :=
  '(_, months) <- run_months fpow scenario ;;
  Ok (map (fun pm => BalanceSheet.accumulated_depreciation
                       (MonthlyProjection.balance_sheet (fst pm))) months).

Definition map_result {A B : Type} (f : A -> B) (c : result A) : result B :=
  x <- c ;; Ok (f x).

(** C1. For the single capex of 36,000 over 12 months the depreciation of
    month 0 is 3,000, but each track divides the undiminished
    [amount - salvage] by its remaining months, so the following months
    are charged 36,000/11, 36,000/10, ..., 36,000/1; after the twelfth
    month the track is dropped and the charge is 0.  The accumulated
    depreciation ends at 8,602,100/77 (about 111,715.58), not at 36,000. *)
Theorem C1_capex_depreciation_divides_by_remaining (fpow : Qc -> Qc -> Qc) :
  map_result (map this) (depreciation_series fpow (scenario_S5 14))
  = Ok [3000; 36000 # 11; 3600; 4000; 4500; 36000 # 7; 6000; 7200; 9000;
        12000; 18000; 36000; 0; 0]%Q
  /\ map_result (fun l => map this (skipn 11 l)) (accumulated_series fpow (scenario_S5 14))
     = Ok [8602100 # 77; 8602100 # 77; 8602100 # 77]%Q.
Proof. split; vm_compute; reflexivity. Qed.

(* ------------------------------------------------------------------ *)
(** ** Construction of the input models *)

(** The values of the fields of [TimeframeSettings]. *)
Inductive TimeframeValue : Type :=
| TV_date (d : date)
| TV_int (z : Z).

(** [start_date: date] and [months: conint(ge=1)], both without default. *)
Definition TimeframeSettings_fields : list (string * Pydantic.FieldInfo TimeframeValue) :=
  [("start_date", Pydantic.required (Pydantic.TOther "date"));
   ("months", Pydantic.required (Pydantic.conint (Some 1%Z) None))]%string.

(** The constructor [TimeframeSettings], applied to keyword arguments. *)
Definition TimeframeSettings_new (data : sdict TimeframeValue)
  : result (sdict TimeframeValue) :=
  Pydantic.BaseModel_init "TimeframeSettings" TimeframeSettings_fields data.

(** The record the calculator reads off the attributes of the object. *)
Definition TimeframeSettings_of (attrs : sdict TimeframeValue) : option TimeframeSettings.t :=
  match sget "start_date"%string attrs, sget "months"%string attrs with
  | Some (TV_date d), Some (TV_int m) => Some (TimeframeSettings.mk d m)
  | _, _ => None
  end.

(** The values of the fields of [ScenarioInput]: its twelve sub-models. *)
Inductive ScenarioField : Type :=
| F_meta (x : ScenarioMeta.t)
| F_currency (x : CurrencySettings.t)
| F_timeframe (x : TimeframeSettings.t)
| F_company_state (x : CompanyState.t)
| F_revenue (x : RevenueModel.t)
| F_headcount (x : HeadcountModel.t)
| F_costs (x : CostModel.t)
| F_taxes (x : TaxModel.t)
| F_capex (x : CapexModel.t)
| F_working_capital (x : WorkingCapitalModel.t)
| F_funding (x : FundingModel.t)
| F_valuation (x : ValuationSettings.t).

Definition ScenarioInput_fields : list (string * Pydantic.FieldInfo ScenarioField) :=
  map (fun name => (name, Pydantic.required (Pydantic.TOther name)))
    ["meta"; "currency"; "timeframe"; "company_state"; "revenue"; "headcount";
     "costs"; "taxes"; "capex"; "working_capital"; "funding"; "valuation"]%string.

(** The constructor [ScenarioInput], applied to keyword arguments. *)
Definition ScenarioInput_new (data : sdict ScenarioField) : result (sdict ScenarioField) :=
  Pydantic.BaseModel_init "ScenarioInput" ScenarioInput_fields data.

Definition ScenarioInput_of (attrs : sdict ScenarioField) : option ScenarioInput.t :=
  match sget "meta"%string attrs, sget "currency"%string attrs,
        sget "timeframe"%string attrs, sget "company_state"%string attrs,
        sget "revenue"%string attrs, sget "headcount"%string attrs,
        sget "costs"%string attrs, sget "taxes"%string attrs,
        sget "capex"%string attrs, sget "working_capital"%string attrs,
        sget "funding"%string attrs, sget "valuation"%string attrs with
  | Some (F_meta a), Some (F_currency b), Some (F_timeframe c),
    Some (F_company_state d), Some (F_revenue e), Some (F_headcount f),
    Some (F_costs g), Some (F_taxes h), Some (F_capex i),
    Some (F_working_capital j), Some (F_funding k), Some (F_valuation l) =>
      Some (ScenarioInput.mk a b c d e f g h i j k l)
  | _, _, _, _, _, _, _, _, _, _, _, _ => None
  end.

(** The keyword arguments that spell a scenario out. *)
Definition kwargs_of (s : ScenarioInput.t) : sdict ScenarioField :=
  [("meta", F_meta (ScenarioInput.meta s));
   ("currency", F_currency (ScenarioInput.currency s));
   ("timeframe", F_timeframe (ScenarioInput.timeframe s));
   ("company_state", F_company_state (ScenarioInput.company_state s));
   ("revenue", F_revenue (ScenarioInput.revenue s));
   ("headcount", F_headcount (ScenarioInput.headcount s));
   ("costs", F_costs (ScenarioInput.costs s));
   ("taxes", F_taxes (ScenarioInput.taxes s));
   ("capex", F_capex (ScenarioInput.capex s));
   ("working_capital", F_working_capital (ScenarioInput.working_capital s));
   ("funding", F_funding (ScenarioInput.funding s));
   ("valuation", F_valuation (ScenarioInput.valuation s))]%string.

(** The only check of the record layer: a field without default that is
    not given. *)
Lemma TimeframeSettings_months_required (d : date) :
  TimeframeSettings_new [("start_date"%string, TV_date d)]
  = Raise (ValidationError "Field 'months' is required for TimeframeSettings").
Proof. reflexivity. Qed.

(** Whatever the value of [months], the construction succeeds and the
    object carries that value. *)
Lemma TimeframeSettings_any_months (d : date) (m : Z) :
  exists attrs,
    TimeframeSettings_new [("start_date", TV_date d); ("months", TV_int m)]%string
    = Ok attrs
    /\ TimeframeSettings_of attrs = Some (TimeframeSettings.mk d m).
Proof. eexists. split; reflexivity. Qed.

Lemma ScenarioInput_any_scenario (s : ScenarioInput.t) :
  exists attrs,
    ScenarioInput_new (kwargs_of s) = Ok attrs /\ ScenarioInput_of attrs = Some s.
Proof. destruct s. eexists. split; reflexivity. Qed.

(** A run over no month at all fails in [_build_valuation], at
    [monthly_results[-1]] (or before, if the float power returned 0). *)
Lemma run_zero_months_raises (fpow : Qc -> Qc -> Qc) (s : ScenarioInput.t) :
  (TimeframeSettings.months (ScenarioInput.timeframe s) <= 0)%Z ->
  run fpow s = Raise IndexError \/ run fpow s = Raise ZeroDivisionError.
Proof.
  intro Hm. unfold run, run_months.
  assert (Hr : py_range (TimeframeSettings.months (ScenarioInput.timeframe s)) = []).
  { unfold py_range.
    replace (Z.to_nat (TimeframeSettings.months (ScenarioInput.timeframe s))) with 0%nat
      by lia.
    reflexivity. }
  rewrite Hr. cbn -[py_div float_of_int Qcdiv Qcplus].
  match goal with |- context [py_div ?a ?b] => destruct (py_div a b) eqn:E end.
  - left. reflexivity.
  - right. unfold py_div in E. destruct (Qc_eq_bool _ 0); [|discriminate].
    injection E as <-. reflexivity.
Qed.

(** C2. A [TimeframeSettings] with [months = 0] is constructed without a
    validation error, so is the [ScenarioInput] around it, and the
    zero-month scenario reaches [run], which raises [IndexError]. *)
Theorem C2_zero_months_not_rejected :
  (exists attrs,
      TimeframeSettings_new [("start_date", TV_date jan_2024); ("months", TV_int 0)]%string
      = Ok attrs
      /\ TimeframeSettings_of attrs = Some (TimeframeSettings.mk jan_2024 0))
  /\ (exists attrs,
         ScenarioInput_new (kwargs_of (scenario_S5 0)) = Ok attrs
         /\ ScenarioInput_of attrs = Some (scenario_S5 0))
  /\ run fpow_example (scenario_S5 0) = Raise IndexError.
Proof.
  split; [apply TimeframeSettings_any_months|].
  split; [apply ScenarioInput_any_scenario|].
  vm_compute. reflexivity.
Qed.

(* ------------------------------------------------------------------ *)
(** ** Debt amortization (scenario S3) *)

(** The debt side of the monthly loop on its own: per month, the principal
    repaid and the debt drawn. *)
Fixpoint debt_loop (funding : FundingModel.t) (month_indices : list Z)
  (debt_states : list DebtState.t) : result (list (Qc * Qc)) :=
  match month_indices with
  | [] => Ok []
  | month_index :: rest =>
      '(_, principal_paid, debt_states') <-
        _compute_debt month_index funding debt_states 0 ;;
      later <- debt_loop funding rest debt_states' ;;
      Ok ((principal_paid,
           py_sum (map DebtInstrument.amount
                     (filter (fun new_debt =>
                                (DebtInstrument.month_index new_debt =? month_index)%Z)
                        (FundingModel.debt funding))))
          :: later)
  end.

(** The running [debt_balance]: plus the debt drawn, minus the principal. *)
Fixpoint balances (balance : Qc) (flows : list (Qc * Qc)) : list Qc :=
  match flows with
  | [] => []
  | (principal_paid, drawn) :: rest =>
      let balance := balance + drawn - principal_paid in
      balance :: balances balance rest
  end.

Section DebtSide.
Variable fpow : Qc -> Qc -> Qc.
Variable scenario : ScenarioInput.t.
Variable hiring_lookup : list (Z * list HiringPlan.t).
Variable capex_schedule : list (Z * CapexItem.t).

Lemma month_body_debt st month_index st' p t :
  month_body fpow scenario hiring_lookup capex_schedule st month_index = Ok (st', p, t) ->
  exists interest,
    _compute_debt month_index (ScenarioInput.funding scenario) (st_debt_states st) 0
    = Ok (interest, tr_principal_paid t, st_debt_states st')
    /\ BalanceSheet.debt (MonthlyProjection.balance_sheet p)
       = st_debt_balance st
         + py_sum (map DebtInstrument.amount
                     (filter (fun new_debt =>
                                (DebtInstrument.month_index new_debt =? month_index)%Z)
                        (FundingModel.debt (ScenarioInput.funding scenario))))
         - tr_principal_paid t
    /\ st_debt_balance st' = BalanceSheet.debt (MonthlyProjection.balance_sheet p).
Proof.
  unfold month_body. intro H.
  inv_bind H. inv_bind H. destruct v0 as [[revenue_summary plan_states] plan_lines].
  inv_bind H. destruct v0 as [[headcount_breakdown payroll_total] headcount_states].
  inv_bind H. destruct v0 as [[cost_breakdown total_cogs] total_opex].
  destruct (_compute_revenue_taxes _ _ _) as [revenue_taxes_amount tax_breakdown].
  inv_bind H. destruct v0 as [[[depreciation accumulated] fixed] tracks].
  inv_bind H. destruct v0 as [[interest_expense principal_paid] debt_states].
  cbv zeta in H.
  destruct (_funding_inflows month_index _) as [equity_raise debt_inflows].
  destruct (_accumulate_annual _ _ _ _ _) as [annual_accumulators annual_cash].
  injection H as <- <- <-.
  exists interest_expense.
  cbn [MonthlyProjection.balance_sheet BalanceSheet.debt tr_principal_paid
       st_debt_states st_debt_balance].
  split; [exact E4|]. split; reflexivity.
Qed.

Lemma run_loop_debt month_indices :
  forall st final months,
    run_loop fpow scenario hiring_lookup capex_schedule month_indices st
    = Ok (final, months) ->
    exists flows,
      debt_loop (ScenarioInput.funding scenario) month_indices (st_debt_states st)
      = Ok flows
      /\ map (fun pm => tr_principal_paid (snd pm)) months = map fst flows
      /\ map (fun pm => BalanceSheet.debt (MonthlyProjection.balance_sheet (fst pm))) months
         = balances (st_debt_balance st) flows.
Proof.
  induction month_indices as [|m rest IH]; intros st final months H.
  - injection H as <- <-. exists []. repeat split.
  - simpl in H. inv_bind H. destruct v as [[st' p] t].
    inv_bind H. destruct v as [final' later]. injection H as <- <-.
    destruct (month_body_debt _ _ _ _ _ E) as (interest & Hcd & Hbal & Hst).
    destruct (IH _ _ _ E0) as (flows & Hloop & Hpp & Hbs).
    eexists. simpl. rewrite Hcd. simpl. rewrite Hloop. simpl.
    split; [reflexivity|]. simpl. split.
    + f_equal. exact Hpp.
    + rewrite <- Hbal. f_equal. rewrite <- Hst. exact Hbs.
Qed.

Lemma run_loop_app l1 :
  forall l2 st final months,
    run_loop fpow scenario hiring_lookup capex_schedule (l1 ++ l2) st = Ok (final, months) ->
    exists mid months1 months2,
      run_loop fpow scenario hiring_lookup capex_schedule l1 st = Ok (mid, months1)
      /\ run_loop fpow scenario hiring_lookup capex_schedule l2 mid = Ok (final, months2)
      /\ months = months1 ++ months2.
Proof.
  induction l1 as [|m rest IH]; intros l2 st final months H.
  - exists st, [], months. repeat split. exact H.
  - simpl in H. inv_bind H. destruct v as [[st' p] t].
    inv_bind H. destruct v as [final' later]. injection H as <- <-.
    destruct (IH _ _ _ _ E0) as (mid & months1 & months2 & H1 & H2 & Happ).
    exists mid, ((p, t) :: months1), months2. simpl. rewrite E. simpl. rewrite H1. simpl.
    repeat split; [exact H2 | now rewrite Happ].
Qed.

End DebtSide.

Lemma debt_loop_ext (funding funding' : FundingModel.t) :
  FundingModel.debt funding = FundingModel.debt funding' ->
  forall month_indices debt_states,
    debt_loop funding month_indices debt_states
    = debt_loop funding' month_indices debt_states.
Proof.
  intros Hd. induction month_indices as [|m rest IH]; intro debt_states; [reflexivity|].
  simpl. unfold _compute_debt. rewrite Hd.
  destruct (for_each debt_state_body _ _) as [[[i pp] states']|e]; simpl; [|reflexivity].
  rewrite IH. reflexivity.
Qed.

Lemma py_range_split (n : nat) (months : Z) :
  (Z.of_nat n <= months)%Z ->
  py_range months
  = py_range (Z.of_nat n) ++ map Z.of_nat (seq n (Z.to_nat months - n)).
Proof.
  intro H. unfold py_range. rewrite Nat2Z.id, <- map_app. f_equal.
  replace (Z.to_nat months) with (n + (Z.to_nat months - n))%nat at 1 by lia.
  apply seq_app.
Qed.

(** Reading an equation of [Qc] in [Q]. *)
Lemma this_plus (x y : Qc) : (this (x + y) == this x + this y)%Q.
Proof. apply Qred_correct. Qed.

Lemma this_opp (x : Qc) : (this (- x) == - this x)%Q.
Proof. apply Qred_correct. Qed.

Lemma this_minus (x y : Qc) : (this (x - y) == this x - this y)%Q.
Proof. unfold Qcminus. rewrite this_plus, this_opp. reflexivity. Qed.

Lemma this_mult (x y : Qc) : (this (x * y) == this x * this y)%Q.
Proof. apply Qred_correct. Qed.

Lemma this_inv (x : Qc) : (this (/ x) == / this x)%Q.
Proof. apply Qred_correct. Qed.

Lemma this_div (x y : Qc) : (this (x / y) == this x / this y)%Q.
Proof. unfold Qcdiv. rewrite this_mult, this_inv. reflexivity. Qed.

Lemma this_fl (q : Q) : (this (fl q) == q)%Q.
Proof. apply Qred_correct. Qed.

(** C6. With the single term debt of 120,000 at 12% over 12 months, drawn
    at month 0 without grace, in a run of at least 12 months: the
    principal repaid over the first 12 months adds up to 120,000 (hence
    to within 1e-3 of it), and the debt of the balance sheet of the 12th
    month is back at the opening debt of the company, that is 0 for a
    company that starts without debt. *)
Theorem C6_term_debt_amortizes (fpow : Qc -> Qc -> Qc) (scenario : ScenarioInput.t)
  (name : string) (debt_type : DebtType) (final : LoopState)
  (months : list (MonthlyProjection.t * MonthTrace)) :
  FundingModel.debt (ScenarioInput.funding scenario)
  = [DebtInstrument.mk name 0 (fl 120000) (fl (12 # 100)) 12 debt_type 0] ->
  (12 <= TimeframeSettings.months (ScenarioInput.timeframe scenario))%Z ->
  run_months fpow scenario = Ok (final, months) ->
  let principal_paid :=
    py_sum (map (fun pm => tr_principal_paid (snd pm)) (firstn 12 months)) in
  principal_paid = fl 120000
  /\ fl 120000 - fl (1 # 1000) <= principal_paid <= fl 120000 + fl (1 # 1000)
  /\ exists p12 t12,
       nth_error months 11 = Some (p12, t12)
       /\ BalanceSheet.debt (MonthlyProjection.balance_sheet p12)
          = CompanyState.debt (ScenarioInput.company_state scenario).
Proof.
  intros Hdebt Hmonths H. unfold run_months in H.
  rewrite (py_range_split 12) in H by exact Hmonths.
  apply run_loop_app in H. destruct H as (mid & months1 & months2 & H1 & _ & ->).
  pose proof (run_loop_length _ _ _ _ _ _ _ _ H1) as Hlen.
  change (List.length (py_range (Z.of_nat 12))) with 12%nat in Hlen.
  apply run_loop_debt in H1. destruct H1 as (flows & Hloop & Hpp & Hbs).
  rewrite (debt_loop_ext _
             (FundingModel.mk []
                [DebtInstrument.mk name 0 (fl 120000) (fl (12 # 100)) 12 debt_type 0]))
    in Hloop by exact Hdebt.
  vm_compute in Hloop. injection Hloop as <-.
  assert (Hfirst : firstn 12 (months1 ++ months2) = months1).
  { rewrite <- Hlen. rewrite firstn_app, firstn_all, Nat.sub_diag. simpl.
    apply app_nil_r. }
  cbv zeta. rewrite Hfirst, Hpp.
  match goal with |- ?s = _ /\ _ =>
    assert (Hsum : s = fl 120000) by (apply Qc_is_canon; vm_compute; reflexivity)
  end.
  rewrite Hsum. split; [reflexivity|]. split.
  { split; unfold Qcle; vm_compute; discriminate. }
  rewrite nth_error_app1 by lia.
  destruct (nth_error months1 11) as [[p12 t12]|] eqn:Hnth.
  2:{ apply nth_error_None in Hnth. lia. }
  exists p12, t12. split; [reflexivity|].
  apply (f_equal (fun l => nth_error l 11)) in Hbs.
  rewrite (map_nth_error _ _ _ Hnth) in Hbs. cbn [fst] in Hbs.
  cbn [balances nth_error st_debt_balance init_state] in Hbs.
  injection Hbs as ->.
  apply Qc_is_canon.
  repeat rewrite ?this_minus, ?this_plus. cbn [this]. ring.
Qed.

Lemma C6_witness :
  exists final months,
    run_months fpow_example (scenario_S3 12) = Ok (final, months)
    /\ py_sum (map (fun pm => tr_principal_paid (snd pm)) (firstn 12 months)) = fl 120000
    /\ exists p12 t12,
         nth_error months 11 = Some (p12, t12)
         /\ BalanceSheet.debt (MonthlyProjection.balance_sheet p12) = 0.
Proof.
  assert (H : exists final months,
             run_months fpow_example (scenario_S3 12) = Ok (final, months))
    by (vm_compute; do 2 eexists; reflexivity).
  destruct H as (final & months & H). exists final, months.
  split; [exact H|].
  destruct (C6_term_debt_amortizes fpow_example (scenario_S3 12) "loan" TERM final months
              eq_refl (Z.le_refl 12) H) as (Hsum & _ & Hbal).
  split; [exact Hsum | exact Hbal].
Defined.

(* ------------------------------------------------------------------ *)
(** ** Deferred revenue *)

Lemma sget_sset_same {V : Type} (k : string) (v : V) (d : sdict V) :
  sget k (sset k v d) = Some v.
Proof.
  unfold sget, sset. induction d as [|[k' v'] d IH]; simpl.
  - now rewrite String.eqb_refl.
  - destruct (String.eqb k k') eqn:E; simpl; rewrite E; [reflexivity | exact IH].
Qed.

Lemma sget_sset_other {V : Type} (k k' : string) (v : V) (d : sdict V) :
  k <> k' -> sget k (sset k' v d) = sget k d.
Proof.
  intro Hne. unfold sget, sset. induction d as [|[k0 v0] d IH]; simpl.
  - apply String.eqb_neq in Hne. now rewrite Hne.
  - destruct (String.eqb k' k0) eqn:E; simpl.
    + apply String.eqb_eq in E. subst k0.
      apply String.eqb_neq in Hne. now rewrite Hne.
    + destruct (String.eqb k k0); [reflexivity | exact IH].
Qed.

(** The plan-by-plan sum that [total_net] accumulates. *)
Definition lines_net (lines : list PlanLine.t) : Qc :=
  fold_left (fun acc l => acc + PlanLine.net_contribution l) lines 0.

(** What one iteration of the plan loop does. *)
Lemma revenue_plan_body_inv (month_index : Z) (acc : RevenueAcc) (plan : RevenuePlan.t)
  (acc' : RevenueAcc) :
  revenue_plan_body month_index acc plan = Ok acc' ->
  exists state line active' deferred',
    sget (RevenuePlan.name plan) (acc_plan_states acc) = Some state
    /\ acc_plan_states acc'
       = sset (RevenuePlan.name plan) (PlanState.mk active' deferred') (acc_plan_states acc)
    /\ acc_lines acc' = acc_lines acc ++ [line]
    /\ PlanLine.plan line = RevenuePlan.name plan
    /\ acc_total_net acc' = acc_total_net acc + PlanLine.net_contribution line
    /\ (if (0 <? RevenuePlan.revenue_deferral_months plan)%Z
        then exists head,
            PlanState.deferred_revenue state ++ [PlanLine.gross_revenue line]
            = head :: deferred'
            /\ PlanLine.recognized line
               = head / float_of_int (Z.max 1 (RevenuePlan.revenue_deferral_months plan))
        else PlanLine.recognized line = PlanLine.gross_revenue line
             /\ deferred' = PlanState.deferred_revenue state).
Proof.
  unfold revenue_plan_body. intro H.
  inv_bind H. destruct (sget _ _) as [state|] eqn:Hget; [|discriminate].
  injection E as <-.
  inv_bind H. inv_bind H. inv_bind H. destruct v1 as [recognized deferred].
  injection H as <-.
  eexists state, (PlanLine.mk _ _ recognized _), _, deferred.
  cbn [acc_plan_states acc_lines acc_total_net PlanLine.plan PlanLine.recognized
       PlanLine.gross_revenue PlanLine.net_contribution PlanLine.discount].
  split; [reflexivity|]. split; [reflexivity|]. split; [reflexivity|].
  split; [reflexivity|]. split; [reflexivity|].
  destruct (0 <? RevenuePlan.revenue_deferral_months plan)%Z.
  - destruct (PlanState.deferred_revenue state ++ _) as [|head rest] eqn:Happ;
      [discriminate|].
    injection E1 as <- <-. exists head. split; reflexivity.
  - injection E1 as <- <-. split; reflexivity.
Qed.

(** The deferral queue of the plan called [name] starts with [zeros]
    initial zeros. *)
Definition leading_zeros (name : string) (zeros : nat) (plan_states : sdict PlanState.t)
  : Prop :=
  exists state rest,
    sget name plan_states = Some state
    /\ PlanState.deferred_revenue state = repeat 0 zeros ++ rest.

Lemma zero_div (x : Qc) : 0 / x = 0.
Proof. unfold Qcdiv. apply Qcmult_0_l. Qed.

Lemma body_of_deferred_plan (month_index : Z) (acc acc' : RevenueAcc)
  (plan : RevenuePlan.t) (zeros : nat) :
  (0 < RevenuePlan.revenue_deferral_months plan)%Z ->
  leading_zeros (RevenuePlan.name plan) (S zeros) (acc_plan_states acc) ->
  revenue_plan_body month_index acc plan = Ok acc' ->
  leading_zeros (RevenuePlan.name plan) zeros (acc_plan_states acc')
  /\ exists line,
       acc_lines acc' = acc_lines acc ++ [line]
       /\ PlanLine.plan line = RevenuePlan.name plan
       /\ PlanLine.recognized line = 0
       /\ acc_total_net acc' = acc_total_net acc + PlanLine.net_contribution line.
Proof.
  intros Hk (state & rest & Hget & Hq) H.
  apply revenue_plan_body_inv in H.
  destruct H as (state' & line & active' & deferred' & Hget' & Hst & Hl & Hn & Hnet & Hd).
  rewrite Hget in Hget'. injection Hget' as <-.
  apply Z.ltb_lt in Hk. rewrite Hk in Hd. destruct Hd as (head & Happ & Hrec).
  rewrite Hq in Happ. simpl in Happ. injection Happ as <- <-.
  split.
  - exists (PlanState.mk active' (repeat 0 zeros ++ rest ++ [PlanLine.gross_revenue line])),
      (rest ++ [PlanLine.gross_revenue line]).
    rewrite Hst, sget_sset_same, <- app_assoc. split; reflexivity.
  - exists line. rewrite Hrec, zero_div. repeat split; assumption.
Qed.

Lemma body_of_other_plan (month_index : Z) (acc acc' : RevenueAcc)
  (plan : RevenuePlan.t) (name : string) (zeros : nat) :
  RevenuePlan.name plan <> name ->
  leading_zeros name zeros (acc_plan_states acc) ->
  revenue_plan_body month_index acc plan = Ok acc' ->
  leading_zeros name zeros (acc_plan_states acc')
  /\ exists line, acc_lines acc' = acc_lines acc ++ [line]
       /\ acc_total_net acc' = acc_total_net acc + PlanLine.net_contribution line.
Proof.
  intros Hne (state & rest & Hget & Hq) H.
  apply revenue_plan_body_inv in H.
  destruct H as (state' & line & active' & deferred' & _ & Hst & Hl & _ & Hnet & _).
  split.
  - exists state, rest. rewrite Hst, sget_sset_other by congruence. split; assumption.
  - exists line. split; assumption.
Qed.

Lemma bodies_of_other_plans (month_index : Z) (name : string) (zeros : nat)
  (plans : list RevenuePlan.t) :
  Forall (fun q => RevenuePlan.name q <> name) plans ->
  forall acc acc',
    leading_zeros name zeros (acc_plan_states acc) ->
    for_each (revenue_plan_body month_index) plans acc = Ok acc' ->
    leading_zeros name zeros (acc_plan_states acc')
    /\ exists lines,
         acc_lines acc' = acc_lines acc ++ lines
         /\ List.length lines = List.length plans
         /\ acc_total_net acc'
            = fold_left (fun a l => a + PlanLine.net_contribution l) lines (acc_total_net acc).
Proof.
  induction 1 as [|q plans Hq _ IH]; intros acc acc' Hz H.
  - injection H as <-. split; [exact Hz|]. exists []. rewrite app_nil_r. repeat split.
  - simpl in H. inv_bind H.
    destruct (body_of_other_plan _ _ _ _ _ _ Hq Hz E) as (Hz' & line & Hl & Hnet).
    destruct (IH _ _ Hz' H) as (Hz'' & lines & Hls & Hlen & Hnets).
    split; [exact Hz''|]. exists (line :: lines).
    rewrite Hls, Hl, <- app_assoc. simpl. rewrite Hlen, Hnets, Hnet.
    repeat split.
Qed.

Lemma fold_left_net_app (lines1 lines2 : list PlanLine.t) (a : Qc) :
  fold_left (fun acc l => acc + PlanLine.net_contribution l) (lines1 ++ lines2) a
  = fold_left (fun acc l => acc + PlanLine.net_contribution l) lines2
      (fold_left (fun acc l => acc + PlanLine.net_contribution l) lines1 a).
Proof. apply fold_left_app. Qed.

Lemma for_each_app {A S : Type} (body : S -> A -> result S) (xs ys : list A) (s s' : S) :
  for_each body (xs ++ ys) s = Ok s' ->
  exists mid, for_each body xs s = Ok mid /\ for_each body ys mid = Ok s'.
Proof.
  revert s. induction xs as [|x xs IH]; intros s H.
  - exists s. split; [reflexivity | exact H].
  - simpl in H. inv_bind H. destruct (IH _ H) as (mid & H1 & H2).
    exists mid. simpl. rewrite E. simpl. split; assumption.
Qed.

(** One call of [_compute_revenue] on a plan with a deferral whose name
    no other plan shares, while its queue still starts with a zero. *)
Lemma compute_revenue_deferred (month_index : Z) (revenue_model : RevenueModel.t)
  (before after : list RevenuePlan.t) (plan : RevenuePlan.t) (zeros : nat)
  (plan_states plan_states' : sdict PlanState.t) (summary : RevenueSummary.t)
  (lines : list PlanLine.t) :
  RevenueModel.plans revenue_model = before ++ plan :: after ->
  Forall (fun q => RevenuePlan.name q <> RevenuePlan.name plan) (before ++ after) ->
  (0 < RevenuePlan.revenue_deferral_months plan)%Z ->
  leading_zeros (RevenuePlan.name plan) (S zeros) plan_states ->
  _compute_revenue month_index revenue_model plan_states
  = Ok (summary, plan_states', lines) ->
  leading_zeros (RevenuePlan.name plan) zeros plan_states'
  /\ RevenueSummary.total_net summary
     = lines_net lines
       + MonthlySchedule.value_for (RevenueModel.other_recurring_revenue revenue_model)
           month_index
  /\ exists line,
       nth_error lines (List.length before) = Some line
       /\ PlanLine.plan line = RevenuePlan.name plan
       /\ PlanLine.recognized line = 0
       /\ PlanLine.net_contribution line = - PlanLine.discount line.
Proof.
  intros Hplans Hnames Hk Hz H. unfold _compute_revenue in H. rewrite Hplans in H.
  apply Forall_app in Hnames. destruct Hnames as [Hbefore Hafter].
  inv_bind H. injection H as <- <- <-.
  apply for_each_app in E. destruct E as (mid & E1 & E2).
  simpl in E2. inv_bind E2.
  destruct (bodies_of_other_plans _ _ _ _ Hbefore
              (mkRevenueAcc 0 0 0 0 0 plan_states []) _ Hz E1)
    as (Hz1 & lines1 & Hl1 & Hlen1 & Hnet1).
  destruct (body_of_deferred_plan _ _ _ _ _ Hk Hz1 E)
    as (Hz2 & line & Hl2 & Hname & Hrec & Hnet2).
  destruct (bodies_of_other_plans _ _ _ _ Hafter _ _ Hz2 E2)
    as (Hz3 & lines3 & Hl3 & Hlen3 & Hnet3).
  cbn [acc_lines acc_total_net] in Hl1, Hnet1.
  split; [exact Hz3|]. split.
  - cbn [RevenueSummary.total_net]. f_equal.
    rewrite Hnet3, Hnet2, Hnet1, Hl3, Hl2, Hl1. unfold lines_net.
    cbn [app]. rewrite !fold_left_net_app. reflexivity.
  - exists line. rewrite Hl3, Hl2, Hl1. cbn [app].
    rewrite <- app_assoc, nth_error_app2 by lia.
    rewrite Hlen1, Nat.sub_diag. cbn [app nth_error].
    repeat split; try assumption.
    unfold PlanLine.net_contribution. rewrite Hrec. unfold Qcminus.
    apply Qcplus_0_l.
Qed.

Lemma sget_fold_others {V : Type} (name : string) (f : RevenuePlan.t -> V)
  (plans : list RevenuePlan.t) :
  Forall (fun q => RevenuePlan.name q <> name) plans ->
  forall d : sdict V,
    sget name (fold_left (fun d q => sset (RevenuePlan.name q) (f q) d) plans d)
    = sget name d.
Proof.
  induction 1 as [|q plans Hq _ IH]; intro d; [reflexivity|].
  simpl. rewrite IH. apply sget_sset_other. congruence.
Qed.

(** At the start of [run] the queue holds [revenue_deferral_months] zeros. *)
Lemma init_plan_states_zeros (before after : list RevenuePlan.t) (plan : RevenuePlan.t) :
  Forall (fun q => RevenuePlan.name q <> RevenuePlan.name plan) (before ++ after) ->
  leading_zeros (RevenuePlan.name plan)
    (Z.to_nat (RevenuePlan.revenue_deferral_months plan))
    (init_plan_states (before ++ plan :: after)).
Proof.
  intro Hnames. apply Forall_app in Hnames. destruct Hnames as [_ Hafter].
  unfold init_plan_states. rewrite fold_left_app. cbn [fold_left].
  eexists _, []. rewrite sget_fold_others by exact Hafter.
  rewrite sget_sset_same. split; [reflexivity|].
  cbn [PlanState.deferred_revenue]. now rewrite app_nil_r.
Qed.

Section RevenueSide.
Variable fpow : Qc -> Qc -> Qc.
Variable scenario : ScenarioInput.t.
Variable hiring_lookup : list (Z * list HiringPlan.t).
Variable capex_schedule : list (Z * CapexItem.t).

Lemma month_body_revenue st month_index st' p t :
  month_body fpow scenario hiring_lookup capex_schedule st month_index = Ok (st', p, t) ->
  _compute_revenue month_index (ScenarioInput.revenue scenario) (st_plan_states st)
  = Ok (MonthlyProjection.revenue_summary p, st_plan_states st', tr_plan_lines t).
Proof.
  unfold month_body. intro H.
  inv_bind H. inv_bind H. destruct v0 as [[revenue_summary plan_states] plan_lines].
  inv_bind H. destruct v0 as [[headcount_breakdown payroll_total] headcount_states].
  inv_bind H. destruct v0 as [[cost_breakdown total_cogs] total_opex].
  destruct (_compute_revenue_taxes _ _ _) as [revenue_taxes_amount tax_breakdown].
  inv_bind H. destruct v0 as [[[depreciation accumulated] fixed] tracks].
  inv_bind H. destruct v0 as [[interest_expense principal_paid] debt_states].
  cbv zeta in H.
  destruct (_funding_inflows month_index _) as [equity_raise debt_inflows].
  destruct (_accumulate_annual _ _ _ _ _) as [annual_accumulators annual_cash].
  injection H as <- <- <-. exact E0.
Qed.

(** While the queue starts with a zero, the plan recognizes nothing. *)
Lemma run_loop_deferred (before after : list RevenuePlan.t) (plan : RevenuePlan.t) :
  RevenueModel.plans (ScenarioInput.revenue scenario) = before ++ plan :: after ->
  Forall (fun q => RevenuePlan.name q <> RevenuePlan.name plan) (before ++ after) ->
  (0 < RevenuePlan.revenue_deferral_months plan)%Z ->
  forall month_indices st final months zeros m pm,
    run_loop fpow scenario hiring_lookup capex_schedule month_indices st
    = Ok (final, months) ->
    leading_zeros (RevenuePlan.name plan) zeros (st_plan_states st) ->
    (m < zeros)%nat ->
    nth_error months m = Some pm ->
    exists line,
      nth_error (tr_plan_lines (snd pm)) (List.length before) = Some line
      /\ PlanLine.plan line = RevenuePlan.name plan
      /\ PlanLine.recognized line = 0
      /\ PlanLine.net_contribution line = - PlanLine.discount line
      /\ exists month_index,
           nth_error month_indices m = Some month_index
           /\ RevenueSummary.total_net (MonthlyProjection.revenue_summary (fst pm))
              = lines_net (tr_plan_lines (snd pm))
                + MonthlySchedule.value_for
                    (RevenueModel.other_recurring_revenue (ScenarioInput.revenue scenario))
                    month_index.
Proof.
  intros Hplans Hnames Hk.
  induction month_indices as [|mi rest IH]; intros st final months zeros m pm H Hz Hm Hnth.
  - injection H as <- <-. destruct m; discriminate.
  - simpl in H. inv_bind H. destruct v as [[st' p] t].
    inv_bind H. destruct v as [final' later]. injection H as <- <-.
    destruct zeros as [|zeros]; [lia|].
    apply month_body_revenue in E.
    destruct (compute_revenue_deferred _ _ _ _ _ _ _ _ _ _ Hplans Hnames Hk Hz E)
      as (Hz' & Hnet & line & Hline).
    destruct m as [|m].
    + injection Hnth as <-. cbn [fst snd]. exists line.
      destruct Hline as (H1 & H2 & H3 & H4). repeat split; try assumption.
      exists mi. split; [reflexivity | exact Hnet].
    + cbn [nth_error] in Hnth |- *.
      apply (IH _ _ _ zeros m pm E0 Hz'); [lia | exact Hnth].
Qed.

End RevenueSide.

Lemma nth_error_py_range (n : Z) (m : nat) (month_index : Z) :
  nth_error (py_range n) m = Some month_index -> month_index = Z.of_nat m.
Proof.
  unfold py_range. intro H. rewrite nth_error_map in H.
  destruct (nth_error (seq 0 (Z.to_nat n)) m) as [i|] eqn:E; [|discriminate].
  injection H as <-. f_equal.
  assert (Hlt : (m < List.length (seq 0 (Z.to_nat n)))%nat)
    by (apply nth_error_Some; congruence).
  rewrite length_seq in Hlt.
  rewrite (nth_error_nth' _ 0%nat) in E by (rewrite length_seq; exact Hlt).
  rewrite seq_nth in E by exact Hlt. injection E as <-. reflexivity.
Qed.

(** A subscription plan with constant schedules: no new customers, no
    churn, no expansion, a flat season. *)
Definition subscription_plan (name : string) (customers arpa discount : Qc) (deferral : Z)
  : RevenuePlan.t :=
  RevenuePlan.mk name SUBSCRIPTION customers arpa (schedule_const 0) (schedule_const 0)
    (schedule_const 0) (schedule_const 0) (schedule_const discount) (schedule_const 0)
    SeasonalPattern.flat (RampUpSettings.mk 1 1) deferral 0 0 0 (schedule_const 0) 0.

Definition revenue_of (plans : list RevenuePlan.t) : RevenueModel.t :=
  RevenueModel.mk plans (schedule_const 0) (schedule_const 0) [].

(** S2: 100 customers at 1,000 a month, revenue deferred by 3 months. *)
Definition scenario_S2 (months : Z) : ScenarioInput.t :=
  quiet_scenario months
    (revenue_of [subscription_plan "saas" (fl 100) (fl 1000) (fl (1 # 10)) 3])
    no_costs [] no_working_capital no_funding default_valuation.

(** Two plans under one name, each deferring its revenue by a month: the
    dictionary of plan states holds one state for both. *)
Definition scenario_twins : ScenarioInput.t :=
  quiet_scenario 1
    (revenue_of [subscription_plan "saas" (fl 100) (fl 1000) 0 1;
                 subscription_plan "saas" (fl 50) (fl 1000) 0 1])
    no_costs [] no_working_capital no_funding default_valuation.

(** C5, as stated, fails when two plans share a name: in month 0 the
    second plan pops the revenue the first one has just pushed and
    recognizes 50,000, although it defers by one month. *)
Lemma C5_counterexample :
  exists final p t,
    run_months fpow_example scenario_twins = Ok (final, [(p, t)])
    /\ map (fun l => (PlanLine.plan l, this (PlanLine.recognized l))) (tr_plan_lines t)
       = [("saas"%string, 0%Q); ("saas"%string, 50000%Q)].
Proof.
  do 3 eexists. split; vm_compute; reflexivity.
Qed.

(** C5 (amended). For a plan with [revenue_deferral_months = k > 0] whose
    name no other plan of the scenario shares, in each month [m < k] of a
    run the plan's iteration of [_compute_revenue] recognizes 0, so that
    what it adds to [total_net] is minus its discount; [total_net] is the
    sum of these per-plan amounts plus the other recurring revenue. *)
Theorem C5_deferred_plan_recognizes_nothing (fpow : Qc -> Qc -> Qc)
  (scenario : ScenarioInput.t) (before after : list RevenuePlan.t)
  (plan : RevenuePlan.t) (final : LoopState)
  (months : list (MonthlyProjection.t * MonthTrace)) (m : nat)
  (pm : MonthlyProjection.t * MonthTrace) :
  RevenueModel.plans (ScenarioInput.revenue scenario) = before ++ plan :: after ->
  Forall (fun q => RevenuePlan.name q <> RevenuePlan.name plan) (before ++ after) ->
  (0 < RevenuePlan.revenue_deferral_months plan)%Z ->
  (Z.of_nat m < RevenuePlan.revenue_deferral_months plan)%Z ->
  run_months fpow scenario = Ok (final, months) ->
  nth_error months m = Some pm ->
  exists line,
    nth_error (tr_plan_lines (snd pm)) (List.length before) = Some line
    /\ PlanLine.plan line = RevenuePlan.name plan
    /\ PlanLine.recognized line = 0
    /\ PlanLine.net_contribution line = - PlanLine.discount line
    /\ RevenueSummary.total_net (MonthlyProjection.revenue_summary (fst pm))
       = lines_net (tr_plan_lines (snd pm))
         + MonthlySchedule.value_for
             (RevenueModel.other_recurring_revenue (ScenarioInput.revenue scenario))
             (Z.of_nat m).
Proof.
  intros Hplans Hnames Hk Hm H Hnth. unfold run_months in H.
  assert (Hz : leading_zeros (RevenuePlan.name plan)
                 (Z.to_nat (RevenuePlan.revenue_deferral_months plan))
                 (st_plan_states (init_state scenario))).
  { cbn [st_plan_states init_state]. rewrite Hplans.
    now apply init_plan_states_zeros. }
  destruct (run_loop_deferred _ _ _ _ _ _ _ Hplans Hnames Hk _ _ _ _ _ m pm H Hz
              ltac:(lia) Hnth)
    as (line & H1 & H2 & H3 & H4 & mi & Hmi & Hnet).
  apply nth_error_py_range in Hmi. subst mi.
  exists line. repeat split; assumption.
Qed.

Lemma C5_witness :
  exists final months pm line,
    run_months fpow_example (scenario_S2 6) = Ok (final, months)
    /\ nth_error months 2 = Some pm
    /\ nth_error (tr_plan_lines (snd pm)) 0 = Some line
    /\ PlanLine.recognized line = 0
    /\ PlanLine.net_contribution line = - PlanLine.discount line.
Proof.
  assert (H : exists final months pm,
             run_months fpow_example (scenario_S2 6) = Ok (final, months)
             /\ nth_error months 2 = Some pm)
    by (vm_compute; do 3 eexists; split; reflexivity).
  destruct H as (final & months & pm & H & Hnth). exists final, months, pm.
  destruct (C5_deferred_plan_recognizes_nothing fpow_example (scenario_S2 6) []
              [] (subscription_plan "saas" (fl 100) (fl 1000) (fl (1 # 10)) 3)
              final months 2 pm eq_refl (Forall_nil _) eq_refl eq_refl H Hnth)
    as (line & H1 & _ & H3 & H4 & _).
  exists line. repeat split; assumption.
Defined.

(* ------------------------------------------------------------------ *)
(** ** Enterprise value and the perpetual growth rate (scenario S6) *)

(** The same settings with another [perpetual_growth_rate]. *)
Definition with_growth (v : ValuationSettings.t) (g : Qc) : ValuationSettings.t :=
  ValuationSettings.mk (ValuationSettings.wacc v) g (ValuationSettings.terminal_method v)
    (ValuationSettings.terminal_multiple v) (ValuationSettings.terminal_multiple_metric v)
    (ValuationSettings.exit_year_multiple v) (ValuationSettings.target_exit_year v)
    (ValuationSettings.discount_rate_vc v) (ValuationSettings.probability_of_success v)
    (ValuationSettings.scorecard_weights v).

(** The same scenario with other valuation settings. *)
Definition with_valuation (s : ScenarioInput.t) (v : ValuationSettings.t)
  : ScenarioInput.t :=
  ScenarioInput.mk (ScenarioInput.meta s) (ScenarioInput.currency s)
    (ScenarioInput.timeframe s) (ScenarioInput.company_state s)
    (ScenarioInput.revenue s) (ScenarioInput.headcount s) (ScenarioInput.costs s)
    (ScenarioInput.taxes s) (ScenarioInput.capex s) (ScenarioInput.working_capital s)
    (ScenarioInput.funding s) v.

Section ValuationSide.
Variable fpow : Qc -> Qc -> Qc.

(** The monthly loop does not read the valuation settings. *)
Lemma month_body_valuation (s : ScenarioInput.t) (v : ValuationSettings.t)
  hiring_lookup capex_schedule st month_index :
  month_body fpow (with_valuation s v) hiring_lookup capex_schedule st month_index
  = month_body fpow s hiring_lookup capex_schedule st month_index.
Proof. reflexivity. Qed.

Lemma run_loop_valuation (s : ScenarioInput.t) (v : ValuationSettings.t)
  hiring_lookup capex_schedule month_indices :
  forall st,
    run_loop fpow (with_valuation s v) hiring_lookup capex_schedule month_indices st
    = run_loop fpow s hiring_lookup capex_schedule month_indices st.
Proof.
  induction month_indices as [|m rest IH]; intro st; [reflexivity|].
  simpl. rewrite month_body_valuation.
  destruct (month_body fpow s _ _ st m) as [[[st' p] t]|e]; simpl; [|reflexivity].
  now rewrite IH.
Qed.

Lemma run_months_valuation (s : ScenarioInput.t) (v : ValuationSettings.t) :
  run_months fpow (with_valuation s v) = run_months fpow s.
Proof. unfold run_months. apply run_loop_valuation. Qed.

(** Whether the scorecard can be computed depends on the weights alone. *)
Lemma scorecard_ok_any_equity (v v' : ValuationSettings.t) (e e' : Qc) x :
  ValuationSettings.scorecard_weights v' = ValuationSettings.scorecard_weights v ->
  _compute_scorecard v e = Ok x ->
  exists y, _compute_scorecard v' e' = Ok y.
Proof.
  unfold _compute_scorecard. intros -> H.
  destruct (ValuationSettings.scorecard_weights v) as [|w ws]; [eauto|].
  inv_bind H. rewrite E. simpl. eauto.
Qed.

End ValuationSide.

Definition enterprise_value_of (r : ScenarioResult.t) : Qc :=
  DiscountedCashFlowResult.enterprise_value
    (ValuationResult.dcf (ScenarioResult.valuation r)).

Lemma Qcinv_pos (x : Qc) : 0 < x -> 0 < / x.
Proof.
  unfold Qclt. intro H. rewrite this_inv. apply Qinv_lt_0_compat. exact H.
Qed.

Lemma Qcplus_lt_compat_l (a x y : Qc) : x < y -> a + x < a + y.
Proof.
  unfold Qclt. intro H. rewrite !this_plus. lra.
Qed.

Lemma Qcdiv_lt_compat_r (x y d : Qc) : 0 < d -> x < y -> x / d < y / d.
Proof.
  intros Hd H. unfold Qcdiv. apply Qcmult_lt_compat_r; [now apply Qcinv_pos | exact H].
Qed.

(** The two terminal values of S6, for a last-year FCFF [f]. *)
Lemma terminal_value_growth_0 (f : Qc) :
  f / fl 12 * (1 + 0) / (fl (15 # 100) - 0) = f * fl (5 # 9).
Proof.
  apply Qc_is_canon.
  repeat rewrite ?this_div, ?this_mult, ?this_minus, ?this_plus, ?this_fl.
  cbn [this Q2Qc]. rewrite ?Qred_correct. field.
Qed.

Lemma terminal_value_growth_5 (f : Qc) :
  f / fl 12 * (1 + fl (5 # 100)) / (fl (15 # 100) - fl (5 # 100)) = f * fl (7 # 8).
Proof.
  apply Qc_is_canon.
  repeat rewrite ?this_div, ?this_mult, ?this_minus, ?this_plus, ?this_fl.
  cbn [this Q2Qc]. rewrite ?Qred_correct. field.
Qed.

Lemma terminal_value_increases (f : Qc) : 0 < f -> f * fl (5 # 9) < f * fl (7 # 8).
Proof.
  unfold Qclt. intro H. rewrite !this_mult, !this_fl.
  change (this 0) with 0%Q in H. lra.
Qed.


Lemma Qcmult_pos (x y : Qc) : 0 < x -> 0 < y -> 0 < x * y.
Proof.
  intros Hx Hy. rewrite <- (Qcmult_0_l y). now apply Qcmult_lt_compat_r.
Qed.

Lemma Qcpower_pos_strict (b : Qc) (n : nat) : 0 < b -> 0 < b ^ n.
Proof.
  intro Hb. induction n as [|n IH]; simpl.
  - unfold Qclt. vm_compute. reflexivity.
  - now apply Qcmult_pos.
Qed.

(** The example power is positive on positive bases. *)
Lemma fpow_example_pos (b e : Qc) : 0 < b -> 0 < fpow_example b e.
Proof.
  intro Hb. unfold fpow_example. apply Qcmult_pos.
  - destruct (Qfloor e <? 0)%Z.
    + apply Qcinv_pos. now apply Qcpower_pos_strict.
    + now apply Qcpower_pos_strict.
  - unfold Qclt in *. unfold float_of_int.
    rewrite this_plus, this_mult, !this_minus.
    cbn [this Q2Qc] in *. rewrite ?Qred_correct.
    pose proof (Qfloor_le e) as Hlo. pose proof (Qlt_floor e) as Hhi.
    rewrite inject_Z_plus in Hhi. 
    change (inject_Z 1) with 1%Q in Hhi.
    set (n := inject_Z (Qfloor e)) in *. set (x := this e) in *. set (y := this b) in *.
    change (Qred 0) with 0%Q in *. change (Qred 1) with 1%Q.
    nra.
Qed.

(** A company with 100 customers at 1,000 a month and nothing else. *)
Definition scenario_S6 (growth : Qc) : ScenarioInput.t :=
  quiet_scenario 2 (revenue_of [subscription_plan "saas" (fl 100) (fl 1000) 0 0])
    no_costs [] no_working_capital no_funding (with_growth default_valuation growth).


(* ------------------------------------------------------------------ *)
(** ** What [run] returns of the VC method and of the scorecard *)

Lemma run_valuation_parts (fpow : Qc -> Qc -> Qc) (scenario : ScenarioInput.t)
  (r : ScenarioResult.t) :
  run fpow scenario = Ok r ->
  _compute_vc_method (ScenarioInput.valuation scenario) (ScenarioInput.funding scenario)
    (ScenarioResult.annual r)
  = Ok (ValuationResult.vc_method (ScenarioResult.valuation r))
  /\ _compute_scorecard (ScenarioInput.valuation scenario)
       (DiscountedCashFlowResult.equity_value
          (ValuationResult.dcf (ScenarioResult.valuation r)))
     = Ok (ValuationResult.scorecard (ScenarioResult.valuation r)).
Proof.
  unfold run. intro H. inv_bind H. destruct v as [final months].
  inv_bind H. injection H as <-.
  unfold _build_valuation in E0.
  inv_bind E0. inv_bind E0. inv_bind E0. inv_bind E0. inv_bind E0. inv_bind E0.
  injection E0 as <-.
  cbn [ScenarioResult.annual ScenarioResult.valuation ValuationResult.vc_method
       ValuationResult.scorecard ValuationResult.dcf
       DiscountedCashFlowResult.equity_value].
  split; assumption.
Qed.

(* ------------------------------------------------------------------ *)
(** ** The VC method *)

Lemma Qcmult_nonneg (x y : Qc) : 0 <= x -> 0 <= y -> 0 <= x * y.
Proof.
  intros Hx Hy. rewrite <- (Qcmult_0_l y). now apply Qcmult_le_compat_r.
Qed.

Lemma Qcdiv_nonneg (x d : Qc) : 0 <= x -> 0 < d -> 0 <= x / d.
Proof.
  intros Hx Hd. unfold Qcdiv. apply Qcmult_nonneg; [exact Hx|].
  apply Qclt_le_weak. now apply Qcinv_pos.
Qed.

Lemma Qc_pos_of_nonneg (x : Qc) : 0 <= x -> x <> 0 -> 0 < x.
Proof.
  intros Hle Hne. destruct (Qcle_lt_or_eq _ _ Hle) as [H|H]; [exact H | congruence].
Qed.

Lemma py_pow_int_pos (b : Qc) (n : Z) (p : Qc) :
  0 < b -> py_pow_int b n = Ok p -> 0 < p.
Proof.
  unfold py_pow_int. intros Hb H. destruct (n <? 0)%Z.
  - destruct (Qc_eq_bool b 0); [discriminate|]. injection H as <-.
    apply Qcinv_pos. now apply Qcpower_pos_strict.
  - injection H as <-. now apply Qcpower_pos_strict.
Qed.

Lemma Qc_zero_le_one : (0 : Qc) <= 1.
Proof. unfold Qcle. vm_compute. discriminate. Qed.

(** [_compute_vc_method] caps the ownership at 1 and nothing else. *)
Lemma vc_method_ownership (v : ValuationSettings.t) (funding : FundingModel.t)
  (annual : list AnnualSummary.t) (vc : VCValuationResult.t) :
  _compute_vc_method v funding annual = Ok vc ->
  VCValuationResult.ownership_required vc <= 1
  /\ ((forall last, py_last annual = Ok last ->
         0 <= IncomeStatement.net_revenue (AnnualSummary.income_statement last)) ->
      0 <= ValuationSettings.exit_year_multiple v ->
      0 < 1 + ValuationSettings.discount_rate_vc v ->
      0 <= ValuationSettings.probability_of_success v ->
      0 <= py_sum (map EquityRound.amount (FundingModel.equity_rounds funding)) ->
      0 <= VCValuationResult.ownership_required vc).
Proof.
  unfold _compute_vc_method, py_last. intro H.
  destruct (rev annual) as [|last rest].
  - injection H as <-. cbn [VCValuationResult.ownership_required].
    split; [exact Qc_zero_le_one | intros; apply Qcle_refl].
  - inv_bind H. inv_bind H. inv_bind H. inv_bind H. injection H as <-.
    cbn [VCValuationResult.ownership_required].
    split; [apply py_min_le_l|].
    intros Hrev Hmult Hbase Hprob Hinv.
    specialize (Hrev last eq_refl).
    assert (Hreq : 0 <= v2).
    { destruct (truthy v1) eqn:Ht.
      - apply py_div_inv in E1. destruct E1 as [Hne ->].
        apply py_div_inv in E0. destruct E0 as [_ Hde].
        apply truthy_true in Ht.
        assert (Hde0 : 0 <= v1).
        { rewrite Hde. apply Qcdiv_nonneg.
          - now apply Qcmult_nonneg.
          - exact (py_pow_int_pos _ _ _ Hbase E). }
        apply Qcdiv_nonneg; [exact Hinv|].
        apply Qc_pos_of_nonneg; [|exact Hne].
        now apply Qcmult_nonneg.
      - injection E1 as <-. apply Qcle_refl. }
    unfold py_min. destruct (Qcleb 1 v2); [exact Qc_zero_le_one | exact Hreq].
Qed.

(** One plan whose revenue is deferred beyond the horizon and sold at a
    10% discount, a seed round of 1,000,000 and an exit multiple of 5. *)
Definition scenario_vc : ScenarioInput.t :=
  quiet_scenario 2
    (revenue_of [subscription_plan "saas" (fl 100) (fl 1000) (fl (1 # 10)) 3])
    no_costs [] no_working_capital
    (FundingModel.mk
       [EquityRound.mk "seed" 0 (fl 1000000) (fl 5000000) (fl (2 # 10))] [])
    (ValuationSettings.mk (fl (15 # 100)) 0 PERPETUITY 0 EBITDA (fl 5) 5 (fl (3 # 10)) 1 []).

(** C3, as stated, fails: with a negative net revenue in the last year
    the required ownership is negative and is reported as it is. *)
Lemma C3_counterexample :
  exists r,
    run fpow_example scenario_vc = Ok r
    /\ this (VCValuationResult.ownership_required
               (ValuationResult.vc_method (ScenarioResult.valuation r)))
       = (-371293 # 10000)%Q.
Proof. eexists. split; vm_compute; reflexivity. Qed.

(** C3 (amended). In every run that returns, [vc_method.ownership_required]
    is at most 1; it is at least 0 as well when the net revenue of the
    last year, [exit_year_multiple], [probability_of_success] and the
    total equity investment are not negative and [discount_rate_vc] is
    above -1. *)
Theorem C3_ownership_required_bounds (fpow : Qc -> Qc -> Qc)
  (scenario : ScenarioInput.t) (r : ScenarioResult.t) :
  run fpow scenario = Ok r ->
  let ownership :=
    VCValuationResult.ownership_required
      (ValuationResult.vc_method (ScenarioResult.valuation r)) in
  let v := ScenarioInput.valuation scenario in
  ownership <= 1
  /\ ((forall last, py_last (ScenarioResult.annual r) = Ok last ->
         0 <= IncomeStatement.net_revenue (AnnualSummary.income_statement last)) ->
      0 <= ValuationSettings.exit_year_multiple v ->
      0 < 1 + ValuationSettings.discount_rate_vc v ->
      0 <= ValuationSettings.probability_of_success v ->
      0 <= py_sum (map EquityRound.amount
                     (FundingModel.equity_rounds (ScenarioInput.funding scenario))) ->
      0 <= ownership).
Proof.
  intro H. apply run_valuation_parts in H. destruct H as [Hvc _].
  exact (vc_method_ownership _ _ _ _ Hvc).
Qed.

(** A company with revenue, a seed round and an exit multiple. *)
Definition scenario_vc_capped : ScenarioInput.t :=
  quiet_scenario 2
    (revenue_of [subscription_plan "saas" (fl 100) (fl 1000) 0 0])
    no_costs [] no_working_capital
    (FundingModel.mk
       [EquityRound.mk "seed" 0 (fl 1000000) (fl 5000000) (fl (2 # 10))] [])
    (ValuationSettings.mk (fl (15 # 100)) 0 PERPETUITY 0 EBITDA (fl 5) 5 (fl (3 # 10)) 1 []).

Lemma C3_witness :
  exists r,
    run fpow_example scenario_vc_capped = Ok r
    /\ 0 <= VCValuationResult.ownership_required
              (ValuationResult.vc_method (ScenarioResult.valuation r)) <= 1.
Proof.
  assert (H : exists r last,
             run fpow_example scenario_vc_capped = Ok r
             /\ py_last (ScenarioResult.annual r) = Ok last
             /\ Qcleb 0 (IncomeStatement.net_revenue (AnnualSummary.income_statement last))
                = true)
    by (vm_compute; do 2 eexists; repeat split; reflexivity).
  destruct H as (r & last & H & Hlast & Hrev). exists r. split; [exact H|].
  destruct (C3_ownership_required_bounds fpow_example scenario_vc_capped r H)
    as [Hle Hge].
  split; [|exact Hle]. apply Hge.
  - intros last' Hl. rewrite Hlast in Hl. injection Hl as <-. now apply Qcleb_le.
  - apply Qcleb_le. vm_compute. reflexivity.
  - apply Qcleb_gt. vm_compute. reflexivity.
  - apply Qcleb_le. vm_compute. reflexivity.
  - apply Qcleb_le. vm_compute. reflexivity.
Defined.

(* ------------------------------------------------------------------ *)
(** ** The scorecard *)

Lemma sget_app_none {V : Type} (k k' : string) (v : V) (d : sdict V) :
  sget k d = None -> k <> k' -> sget k (d ++ [(k', v)]) = None.
Proof.
  unfold sget. intros Hd Hne. induction d as [|[k0 v0] d IH]; simpl in *.
  - apply String.eqb_neq in Hne. now rewrite Hne.
  - destruct (String.eqb k k0); [discriminate | now apply IH].
Qed.

Lemma sset_fresh {V : Type} (k : string) (v : V) (d : sdict V) :
  sget k d = None -> sset k v d = d ++ [(k, v)].
Proof.
  unfold sget, sset. induction d as [|[k0 v0] d IH]; simpl; intro H; [reflexivity|].
  destruct (String.eqb k k0); [discriminate|]. now rewrite IH.
Qed.

(** [{k: v / total_weight for k, v in weights.items()}] on a dictionary. *)
Lemma normalize_weights (total_weight : Qc) (weights : sdict Qc) :
  total_weight <> 0 ->
  NoDup (dict_keys weights) ->
  forall d : sdict Qc,
    (forall k, In k (dict_keys weights) -> sget k d = None) ->
    for_each (fun d '(k, v) => q <- py_div v total_weight ;; Ok (sset k q d)) weights d
    = Ok (d ++ map (fun kv => (fst kv, snd kv / total_weight)) weights).
Proof.
  intros HT. induction weights as [|[k v] ws IH]; intros Hnd d Hfresh.
  - simpl. now rewrite app_nil_r.
  - simpl in Hnd. inversion Hnd as [|? ? Hnotin Hnd']; subst.
    simpl. rewrite (py_div_ok _ _ HT). simpl.
    rewrite sset_fresh by (apply Hfresh; now left).
    rewrite IH; [now rewrite <- app_assoc | exact Hnd' |].
    intros k' Hin. apply sget_app_none.
    + apply Hfresh. now right.
    + intros ->. exact (Hnotin Hin).
Qed.

Lemma fold_plus_div (total_weight : Qc) (vs : list Qc) :
  forall a,
    fold_left Qcplus (map (fun v => v / total_weight) vs) (a / total_weight)
    = fold_left Qcplus vs a / total_weight.
Proof.
  induction vs as [|v vs IH]; intro a; [reflexivity|].
  simpl. rewrite <- IH. f_equal. unfold Qcdiv. ring.
Qed.

Lemma py_sum_normalized (total_weight : Qc) (vs : list Qc) :
  py_sum vs = total_weight -> total_weight <> 0 ->
  py_sum (map (fun v => v / total_weight) vs) = 1.
Proof.
  intros Hs HT. unfold py_sum in *.
  rewrite <- (zero_div total_weight), fold_plus_div, Hs.
  unfold Qcdiv. now apply Qcmult_inv_r.
Qed.

(** What [_compute_scorecard] does, by the weights. *)
Lemma scorecard_cases (v : ValuationSettings.t) (base_equity : Qc) :
  let weights := ValuationSettings.scorecard_weights v in
  let total_weight := py_sum (dict_values weights) in
  (weights = [] -> _compute_scorecard v base_equity = Ok None)
  /\ (weights <> [] -> total_weight = 0 ->
      _compute_scorecard v base_equity = Raise ZeroDivisionError)
  /\ (weights <> [] -> total_weight <> 0 -> NoDup (dict_keys weights) ->
      _compute_scorecard v base_equity
      = Ok (Some (ScorecardValuationResult.mk 1 (base_equity * 1)))).
Proof.
  cbv zeta. unfold _compute_scorecard.
  destruct (ValuationSettings.scorecard_weights v) as [|[k w] ws] eqn:Hw.
  - split; [reflexivity|]. split; intro H; now contradiction H.
  - split; [discriminate|]. split.
    + intros _ HT. cbn [for_each]. rewrite HT. reflexivity.
    + intros _ HT Hnd.
      rewrite (normalize_weights _ _ HT Hnd []) by reflexivity.
      cbn [bind app].
      assert (Hvals :
        dict_values (map (fun kv : string * Qc =>
                            (fst kv, snd kv / py_sum (dict_values ((k, w) :: ws))))
                       ((k, w) :: ws))
        = map (fun x => x / py_sum (dict_values ((k, w) :: ws)))
            (dict_values ((k, w) :: ws)))
        by (unfold dict_values; rewrite !map_map; reflexivity).
      rewrite Hvals, py_sum_normalized by (exact HT || reflexivity).
      reflexivity.
Qed.

(** The company of [scenario_vc_capped] with other valuation settings. *)
Definition scenario_valued (valuation : ValuationSettings.t) : ScenarioInput.t :=
  with_valuation scenario_vc_capped valuation.

(** No scorecard weights, and a probability of success of 0. *)
Definition valuation_no_chance : ValuationSettings.t :=
  ValuationSettings.mk (fl (15 # 100)) 0 PERPETUITY 0 EBITDA (fl 5) 5 (fl (3 # 10)) 0 [].

(** No scorecard weights, and a growth rate equal to the WACC. *)
Definition valuation_growth_at_wacc : ValuationSettings.t :=
  ValuationSettings.mk (fl (15 # 100)) (fl (15 # 100)) PERPETUITY 0 EBITDA (fl 5) 5
    (fl (3 # 10)) 1 [].

(** Two weights, 3 and 1. *)
Definition valuation_scored : ValuationSettings.t :=
  ValuationSettings.mk (fl (15 # 100)) 0 PERPETUITY 0 EBITDA (fl 5) 5 (fl (3 # 10)) 1
    [("team", fl 3); ("market", 1)]%string.




Lemma C9_witness :
  st_equity (init_state (scenario_S5 12)) = 0 + py_max 0 (0 - 0).
Proof.
  exact (proj1 (C9_initial_equity_fallback (scenario_S5 12)) eq_refl).
Defined.

(* ------------------------------------------------------------------ *)
(** * Further properties of the calculator *)

(** ** The shape of a run *)

Lemma py_range_length (n : Z) : List.length (py_range n) = Z.to_nat n.
Proof. unfold py_range. now rewrite length_map, length_seq. Qed.

(** X1. A run that returns holds one projection per month of the horizon
    (none when [timeframe.months] is not positive, but then it does not
    return). *)
Theorem run_monthly_length (fpow : Qc -> Qc -> Qc) (scenario : ScenarioInput.t)
  (r : ScenarioResult.t) :
  run fpow scenario = Ok r ->
  (1 <= TimeframeSettings.months (ScenarioInput.timeframe scenario))%Z
  /\ Z.of_nat (List.length (ScenarioResult.monthly r))
     = TimeframeSettings.months (ScenarioInput.timeframe scenario).
Proof.
  intro H.
  assert (Hpos : (1 <= TimeframeSettings.months (ScenarioInput.timeframe scenario))%Z).
  { destruct (Z_le_gt_dec (TimeframeSettings.months (ScenarioInput.timeframe scenario)) 0)
      as [Hle|Hgt]; [|lia].
    destruct (run_zero_months_raises fpow scenario Hle) as [H0|H0];
      rewrite H0 in H; discriminate. }
  split; [exact Hpos|].
  unfold run in H. inv_bind H. destruct v as [final months].
  inv_bind H. injection H as <-. cbn [ScenarioResult.monthly].
  unfold run_months in E. apply run_loop_length in E.
  rewrite length_map, E, py_range_length. lia.
Qed.

Lemma run_monthly_length_witness :
  exists r,
    run fpow_example (scenario_S4 2) = Ok r
    /\ Z.of_nat (List.length (ScenarioResult.monthly r)) = 2%Z.
Proof.
  assert (H : exists r, run fpow_example (scenario_S4 2) = Ok r)
    by (vm_compute; eexists; reflexivity).
  destruct H as [r H]. exists r. split; [exact H|].
  exact (proj2 (run_monthly_length fpow_example (scenario_S4 2) r H)).
Defined.

(** ** The statements of one month *)

Section Statements.
Variable fpow : Qc -> Qc -> Qc.
Variable scenario : ScenarioInput.t.
Variable hiring_lookup : list (Z * list HiringPlan.t).
Variable capex_schedule : list (Z * CapexItem.t).

(** The lines of the income statement and the working-capital balances of
    one iteration. *)
Lemma month_body_statements st month_index st' p t :
  month_body fpow scenario hiring_lookup capex_schedule st month_index = Ok (st', p, t) ->
  let inc := MonthlyProjection.income_statement p in
  let bs := MonthlyProjection.balance_sheet p in
  let rs := MonthlyProjection.revenue_summary p in
  let wc := ScenarioInput.working_capital scenario in
  let rate := TaxModel.effective_income_tax_rate (ScenarioInput.taxes scenario) in
  IncomeStatement.gross_revenue inc = RevenueSummary.total_gross rs
  /\ IncomeStatement.net_revenue inc
     = RevenueSummary.total_net rs - IncomeStatement.revenue_taxes inc
  /\ IncomeStatement.gross_margin inc
     = IncomeStatement.net_revenue inc - IncomeStatement.cogs inc
  /\ IncomeStatement.ebitda inc
     = IncomeStatement.gross_margin inc - IncomeStatement.operating_expenses inc
  /\ IncomeStatement.amortization inc = 0
  /\ IncomeStatement.ebit inc
     = IncomeStatement.ebitda inc - IncomeStatement.depreciation inc - 0
  /\ IncomeStatement.ebt inc = IncomeStatement.ebit inc - IncomeStatement.interest inc
  /\ IncomeStatement.income_tax inc = py_max 0 (IncomeStatement.ebt inc) * rate
  /\ IncomeStatement.net_income inc
     = IncomeStatement.ebt inc - IncomeStatement.income_tax inc
  /\ BalanceSheet.accounts_receivable bs
     = st_accounts_receivable st
       + (IncomeStatement.net_revenue inc * (WorkingCapitalModel.dso wc / fl 30)
          - st_accounts_receivable st)
  /\ BalanceSheet.accounts_payable bs
     = st_accounts_payable st
       + ((IncomeStatement.cogs inc + IncomeStatement.operating_expenses inc)
          * (WorkingCapitalModel.dpo wc / fl 30)
          - st_accounts_payable st)
  /\ BalanceSheet.inventory bs
     = st_inventory st
       + (RevenueSummary.total_gross rs * (WorkingCapitalModel.dio wc / fl 30)
          - st_inventory st).
Proof.
  unfold month_body. intro H.
  inv_bind H. inv_bind H. destruct v0 as [[revenue_summary plan_states] plan_lines].
  inv_bind H. destruct v0 as [[headcount_breakdown payroll_total] headcount_states].
  inv_bind H. destruct v0 as [[cost_breakdown total_cogs] total_opex].
  destruct (_compute_revenue_taxes _ _ _) as [revenue_taxes_amount tax_breakdown].
  inv_bind H. destruct v0 as [[[depreciation accumulated] fixed] tracks].
  inv_bind H. destruct v0 as [[interest_expense principal_paid] debt_states].
  cbv zeta in H.
  destruct (_funding_inflows month_index _) as [equity_raise debt_inflows].
  destruct (_accumulate_annual _ _ _ _ _) as [annual_accumulators annual_cash].
  injection H as <- <- <-.
  repeat split; reflexivity.
Qed.

End Statements.

Lemma Qcplus_minus_cancel (a b : Qc) : a + (b - a) = b.
Proof. ring. Qed.

Lemma Qcle_minus_self (a b : Qc) : 0 <= b -> a - b <= a.
Proof.
  unfold Qcle. intro H. rewrite this_minus. change (this 0) with 0%Q in H. lra.
Qed.

(** X2. Income tax is charged on a positive EBT only.  In every month of
    a run [income_tax = max(0, ebt) * effective_income_tax_rate] and
    [net_income = ebt - income_tax]; a month whose EBT is not positive
    pays no tax, a rate of zero leaves [net_income = ebt], and a rate that
    is not negative gives a tax that is not negative and a net income of
    at most the EBT. *)
Theorem run_income_tax (fpow : Qc -> Qc -> Qc) (scenario : ScenarioInput.t)
  (final : LoopState) (months : list (MonthlyProjection.t * MonthTrace)) :
  run_months fpow scenario = Ok (final, months) ->
  Forall
    (fun pm =>
       let inc := MonthlyProjection.income_statement (fst pm) in
       let rate := TaxModel.effective_income_tax_rate (ScenarioInput.taxes scenario) in
       IncomeStatement.income_tax inc = py_max 0 (IncomeStatement.ebt inc) * rate
       /\ IncomeStatement.net_income inc
          = IncomeStatement.ebt inc - IncomeStatement.income_tax inc
       /\ (IncomeStatement.ebt inc <= 0 ->
           IncomeStatement.income_tax inc = 0
           /\ IncomeStatement.net_income inc = IncomeStatement.ebt inc)
       /\ (rate = 0 -> IncomeStatement.net_income inc = IncomeStatement.ebt inc)
       /\ (0 <= rate ->
           0 <= IncomeStatement.income_tax inc
           /\ IncomeStatement.net_income inc <= IncomeStatement.ebt inc))
    months.
Proof.
  intro H. unfold run_months in H.
  eapply run_loop_Forall with
    (P := fun p (_ : MonthTrace) =>
       let inc := MonthlyProjection.income_statement p in
       let rate := TaxModel.effective_income_tax_rate (ScenarioInput.taxes scenario) in
       IncomeStatement.income_tax inc = py_max 0 (IncomeStatement.ebt inc) * rate
       /\ IncomeStatement.net_income inc
          = IncomeStatement.ebt inc - IncomeStatement.income_tax inc
       /\ (IncomeStatement.ebt inc <= 0 ->
           IncomeStatement.income_tax inc = 0
           /\ IncomeStatement.net_income inc = IncomeStatement.ebt inc)
       /\ (rate = 0 -> IncomeStatement.net_income inc = IncomeStatement.ebt inc)
       /\ (0 <= rate ->
           0 <= IncomeStatement.income_tax inc
           /\ IncomeStatement.net_income inc <= IncomeStatement.ebt inc)); [|exact H].
  intros st m st' p t Hbody. cbv zeta.
  destruct (month_body_statements _ _ _ _ _ _ _ _ _ Hbody)
    as (_ & _ & _ & _ & _ & _ & _ & Htax & Hnet & _).
  split; [exact Htax|]. split; [exact Hnet|]. split; [|split].
  - intro Hle. assert (Hz : IncomeStatement.income_tax
                              (MonthlyProjection.income_statement p) = 0).
    { rewrite Htax. unfold py_max. apply Qcleb_le in Hle. rewrite Hle.
      apply Qcmult_0_l. }
    split; [exact Hz|]. rewrite Hnet, Hz. ring.
  - intro Hr. rewrite Hnet, Htax, Hr. ring.
  - intro Hr.
    assert (Hpos : 0 <= IncomeStatement.income_tax (MonthlyProjection.income_statement p)).
    { rewrite Htax. apply Qcmult_nonneg; [apply py_max_ge_l | exact Hr]. }
    split; [exact Hpos|]. rewrite Hnet. now apply Qcle_minus_self.
Qed.

Lemma run_income_tax_witness :
  exists final months,
    run_months fpow_example (scenario_S4 2) = Ok (final, months)
    /\ Forall
         (fun pm =>
            IncomeStatement.income_tax (MonthlyProjection.income_statement (fst pm)) = 0)
         months.
Proof.
  assert (H : exists final months,
             run_months fpow_example (scenario_S4 2) = Ok (final, months)
             /\ forallb
                  (fun pm => Qcleb (IncomeStatement.ebt
                                      (MonthlyProjection.income_statement (fst pm))) 0)
                  months = true)
    by (vm_compute; do 2 eexists; split; reflexivity).
  destruct H as (final & months & H & Hall). exists final, months. split; [exact H|].
  pose proof (run_income_tax fpow_example (scenario_S4 2) final months H) as HX.
  rewrite forallb_forall in Hall. rewrite Forall_forall in HX |- *.
  intros pm Hin. specialize (HX pm Hin). specialize (Hall pm Hin).
  cbv zeta in HX. destruct HX as (_ & _ & Hneg & _).
  apply Qcleb_le in Hall. exact (proj1 (Hneg Hall)).
Defined.



(* ------------------------------------------------------------------ *)
(** ** The debt evaluator *)

Lemma float_of_int_pos (z : Z) : (0 < z)%Z -> 0 < float_of_int z.
Proof.
  intro H. unfold Qclt, float_of_int. cbn [this Q2Qc]. rewrite ?Qred_correct.
  change (inject_Z 0 < inject_Z z)%Q. rewrite <- Zlt_Qlt. exact H.
Qed.

Lemma Qclt_neq (x : Qc) : 0 < x -> x <> 0.
Proof. intros H ->. exact (Qclt_not_eq _ _ H eq_refl). Qed.

Lemma Qcplus_nonneg (x y : Qc) : 0 <= x -> 0 <= y -> 0 <= x + y.
Proof.
  intros Hx Hy. rewrite <- (Qcplus_0_l 0). now apply Qcplus_le_compat.
Qed.

Lemma py_min_le_r (a b : Qc) : py_min a b <= b.
Proof.
  unfold py_min. destruct (Qcleb a b) eqn:E.
  - now apply Qcleb_le.
  - apply Qcle_refl.
Qed.

Lemma py_min_nonneg (a b : Qc) : 0 <= a -> 0 <= b -> 0 <= py_min a b.
Proof. intros Ha Hb. unfold py_min. now destruct (Qcleb a b). Qed.

Lemma micro_pos : 0 < fl (1 # 1000000).
Proof. unfold Qclt. vm_compute. reflexivity. Qed.

(** One state of the debt loop: the body does not raise, pays a principal
    that is not negative, and keeps a state only with a positive
    outstanding amount. *)
Lemma debt_state_body_safe (acc : Qc * Qc * list DebtState.t) (state : DebtState.t) :
  exists interest principal_paid updated,
    debt_state_body acc state = Ok (interest, principal_paid, updated)
    /\ (0 <= snd (fst acc) -> 0 <= principal_paid)
    /\ (Forall (fun s => 0 < DebtState.outstanding s) (snd acc) ->
        Forall (fun s => 0 < DebtState.outstanding s) updated)
    /\ (List.length updated <= S (List.length (snd acc)))%nat.
Proof.
  destruct acc as [[interest_expense principal_paid] updated_states].
  unfold debt_state_body. cbn [fst snd].
  destruct (Qcleb (DebtState.outstanding state) 0) eqn:Hout.
  { do 3 eexists. split; [reflexivity|]. repeat split; auto. }
  apply Qcleb_gt in Hout.
  destruct (0 <? DebtState.grace_months state)%Z.
  { do 3 eexists. split; [reflexivity|]. split; [auto|]. split.
    - intro Hall. apply Forall_app. split; [exact Hall|]. now repeat constructor.
    - rewrite length_app. simpl. lia. }
  assert (Hpay : exists q,
    (if (0 <? DebtState.remaining_term state)%Z
     then py_div (DebtState.outstanding state)
            (float_of_int (DebtState.remaining_term state))
     else Ok (DebtState.outstanding state)) = Ok q /\ 0 <= q).
  { destruct (0 <? DebtState.remaining_term state)%Z eqn:Hr.
    - apply Z.ltb_lt in Hr. apply float_of_int_pos in Hr.
      rewrite (py_div_ok _ _ (Qclt_neq _ Hr)). eexists. split; [reflexivity|].
      apply Qcdiv_nonneg; [now apply Qclt_le_weak | exact Hr].
    - eexists. split; [reflexivity | now apply Qclt_le_weak]. }
  destruct Hpay as (q & -> & Hq). cbn [bind].
  do 3 eexists. split; [reflexivity|]. split; [|split].
  - intro Hpp. apply Qcplus_nonneg; [exact Hpp|].
    apply py_min_nonneg; [exact Hq | now apply Qclt_le_weak].
  - intro Hall.
    destruct (Qcleb _ (fl (1 # 1000000))) eqn:Hkeep; [exact Hall|].
    apply Qcleb_gt in Hkeep. apply Forall_app. split; [exact Hall|].
    repeat constructor. cbn [DebtState.outstanding].
    exact (Qclt_trans _ _ _ micro_pos Hkeep).
  - destruct (Qcleb _ (fl (1 # 1000000))); [lia|].
    rewrite length_app. simpl. lia.
Qed.

Lemma debt_states_safe (states : list DebtState.t) :
  forall acc : Qc * Qc * list DebtState.t,
    exists interest principal_paid updated,
      for_each debt_state_body states acc = Ok (interest, principal_paid, updated)
      /\ (0 <= snd (fst acc) -> 0 <= principal_paid)
      /\ (Forall (fun s => 0 < DebtState.outstanding s) (snd acc) ->
          Forall (fun s => 0 < DebtState.outstanding s) updated)
      /\ (List.length updated <= List.length states + List.length (snd acc))%nat.
Proof.
  induction states as [|state states IH]; intro acc.
  - destruct acc as [[i pp] u]. do 3 eexists. split; [reflexivity|].
    cbn [fst snd]. repeat split; auto.
  - destruct (debt_state_body_safe acc state) as (i & pp & u & Hb & Hpp & Hall & Hlen).
    destruct (IH (i, pp, u)) as (i' & pp' & u' & Hl & Hpp' & Hall' & Hlen').
    exists i', pp', u'. cbn [for_each]. rewrite Hb. cbn [bind fst snd] in *.
    split; [exact Hl|]. repeat split; auto. cbn [List.length]. lia.
Qed.


(* ------------------------------------------------------------------ *)
(** ** The depreciation evaluator *)

Lemma for_each_ext {A S : Type} (f g : S -> A -> result S) (xs : list A) :
  (forall s x, f s x = g s x) -> forall s, for_each f xs s = for_each g xs s.
Proof.
  intro Hfg. induction xs as [|x xs IH]; intro s; [reflexivity|].
  cbn [for_each]. rewrite Hfg. destruct (g s x); cbn [bind]; [apply IH | reflexivity].
Qed.

(** The body of the track loop of [_compute_depreciation]. *)
Definition depreciation_track_body (acc : Qc * list DepreciationTrack)
  (track : DepreciationTrack) : result (Qc * list DepreciationTrack) :=
  let '(depreciation, updated) := acc in
  let '(remaining, amount, salvage) := track in
  if (remaining <=? 0)%Z then Ok (depreciation, updated)
  else
    q <- py_div (amount - salvage) (float_of_int remaining) ;;
    let monthly_dep := py_max 0 q in
    Ok (depreciation + monthly_dep, updated ++ [((remaining - 1)%Z, amount, salvage)]).

Lemma depreciation_tracks_safe (tracks : list DepreciationTrack) :
  forall acc : Qc * list DepreciationTrack,
    exists depreciation updated,
      for_each depreciation_track_body tracks acc = Ok (depreciation, updated)
      /\ (0 <= fst acc -> 0 <= depreciation)
      /\ (Forall (fun tr => (0 <= fst (fst tr))%Z) (snd acc) ->
          Forall (fun tr => (0 <= fst (fst tr))%Z) updated)
      /\ (List.length updated <= List.length tracks + List.length (snd acc))%nat.
Proof.
  induction tracks as [|[[remaining amount] salvage] tracks IH]; intros [dep upd].
  - do 2 eexists. split; [reflexivity|]. cbn [fst snd]. repeat split; auto.
  - cbn [for_each depreciation_track_body]. destruct (remaining <=? 0)%Z eqn:Hr.
    + cbn [bind]. destruct (IH (dep, upd)) as (d & u & H & Hd & Hu & Hlen).
      exists d, u. split; [exact H|]. cbn [fst snd List.length] in *.
      repeat split; auto. lia.
    + apply Z.leb_gt in Hr.
      rewrite (py_div_ok _ _ (Qclt_neq _ (float_of_int_pos _ Hr))). cbn [bind].
      destruct (IH (dep + py_max 0 ((amount - salvage) / float_of_int remaining),
                    upd ++ [((remaining - 1)%Z, amount, salvage)]))
        as (d & u & H & Hd & Hu & Hlen).
      exists d, u. split; [exact H|]. cbn [fst snd List.length] in *.
      split; [|split].
      * intro Hdep. apply Hd. apply Qcplus_nonneg; [exact Hdep | apply py_max_ge_l].
      * intro Hall. apply Hu. apply Forall_app. split; [exact Hall|].
        repeat constructor. cbn [fst]. lia.
      * rewrite length_app in Hlen. simpl in Hlen. lia.
Qed.

(** One call of [_compute_depreciation]: what it returns. *)
Lemma compute_depreciation_returns (month_index : Z)
  (capex_schedule : list (Z * CapexItem.t)) (tracks : list DepreciationTrack)
  (fixed_assets accumulated_depreciation : Qc) :
  exists depreciation fixed_assets' updated,
    _compute_depreciation month_index capex_schedule tracks fixed_assets
      accumulated_depreciation
    = Ok (depreciation, accumulated_depreciation + depreciation, fixed_assets', updated)
    /\ 0 <= depreciation
    /\ Forall (fun tr => (0 <= fst (fst tr))%Z) updated.
Proof.
  unfold _compute_depreciation.
  match goal with |- context [fold_left ?f capex_schedule ?a] =>
    destruct (fold_left f capex_schedule a) as [fa trs]
  end.
  destruct (depreciation_tracks_safe trs (0, [])) as (d & u & H & Hd & Hu & _).
  exists d, fa, u. unfold DepreciationTrack in *.
  match goal with |- context [for_each ?body trs ?a] =>
    rewrite (for_each_ext body depreciation_track_body trs)
      by (intros [? ?] [[? ?] ?]; reflexivity)
  end.
  rewrite H. cbn [bind].
  split; [reflexivity|]. split; [apply Hd, Qcle_refl|].
  apply Hu. constructor.
Qed.


(** The running total of a series, from an opening value. *)
Fixpoint running_total (start : Qc) (xs : list Qc) : list Qc :=
  match xs with
  | [] => []
  | x :: rest => (start + x) :: running_total (start + x) rest
  end.

Section DepreciationSide.
Variable fpow : Qc -> Qc -> Qc.
Variable scenario : ScenarioInput.t.
Variable hiring_lookup : list (Z * list HiringPlan.t).
Variable capex_schedule : list (Z * CapexItem.t).

Lemma month_body_depreciation st month_index st' p t :
  month_body fpow scenario hiring_lookup capex_schedule st month_index = Ok (st', p, t) ->
  _compute_depreciation month_index capex_schedule (st_depreciation_tracks st)
    (st_fixed_assets st) (st_accumulated_depreciation st)
  = Ok (IncomeStatement.depreciation (MonthlyProjection.income_statement p),
        BalanceSheet.accumulated_depreciation (MonthlyProjection.balance_sheet p),
        BalanceSheet.fixed_assets (MonthlyProjection.balance_sheet p),
        st_depreciation_tracks st')
  /\ st_accumulated_depreciation st'
     = BalanceSheet.accumulated_depreciation (MonthlyProjection.balance_sheet p)
  /\ st_fixed_assets st' = BalanceSheet.fixed_assets (MonthlyProjection.balance_sheet p).
Proof.
  unfold month_body. intro H.
  inv_bind H. inv_bind H. destruct v0 as [[revenue_summary plan_states] plan_lines].
  inv_bind H. destruct v0 as [[headcount_breakdown payroll_total] headcount_states].
  inv_bind H. destruct v0 as [[cost_breakdown total_cogs] total_opex].
  destruct (_compute_revenue_taxes _ _ _) as [revenue_taxes_amount tax_breakdown].
  inv_bind H. destruct v0 as [[[depreciation accumulated] fixed] tracks].
  inv_bind H. destruct v0 as [[interest_expense principal_paid] debt_states].
  cbv zeta in H.
  destruct (_funding_inflows month_index _) as [equity_raise debt_inflows].
  destruct (_accumulate_annual _ _ _ _ _) as [annual_accumulators annual_cash].
  injection H as <- <- <-.
  repeat split. exact E3.
Qed.

Lemma run_loop_depreciation month_indices :
  forall st final months,
    run_loop fpow scenario hiring_lookup capex_schedule month_indices st
    = Ok (final, months) ->
    let depreciation :=
      map (fun pm => IncomeStatement.depreciation
                       (MonthlyProjection.income_statement (fst pm))) months in
    Forall (fun d => 0 <= d) depreciation
    /\ map (fun pm => BalanceSheet.accumulated_depreciation
                        (MonthlyProjection.balance_sheet (fst pm))) months
       = running_total (st_accumulated_depreciation st) depreciation.
Proof.
  induction month_indices as [|m rest IH]; intros st final months H.
  - injection H as <- <-. split; constructor.
  - simpl in H. inv_bind H. destruct v as [[st' p] t].
    inv_bind H. destruct v as [final' later]. injection H as <- <-.
    destruct (month_body_depreciation _ _ _ _ _ E) as (Hd & Hacc & _).
    destruct (compute_depreciation_returns m capex_schedule (st_depreciation_tracks st)
                (st_fixed_assets st) (st_accumulated_depreciation st))
      as (d & fa & u & Hsafe & Hpos & _).
    rewrite Hsafe in Hd. injection Hd as Hd1 Hd2 Hd3 Hd4.
    destruct (IH _ _ _ E0) as [Hall Hrun]. cbv zeta. cbn [map fst running_total].
    split.
    + constructor; [now rewrite <- Hd1 | exact Hall].
    + rewrite <- Hd1, Hd2. f_equal. rewrite Hrun, Hacc. reflexivity.
Qed.

End DepreciationSide.

Lemma running_total_monotone (xs : list Qc) :
  Forall (fun d => 0 <= d) xs ->
  forall start, Forall (fun a => start <= a) (running_total start xs).
Proof.
  induction 1 as [|x xs Hx _ IH]; intro start; cbn [running_total]; constructor.
  - unfold Qcle in *. rewrite this_plus. change (this 0) with 0%Q in Hx. lra.
  - eapply Forall_impl; [|apply IH]. cbn beta. intros a Ha.
    apply Qcle_trans with (start + x); [|exact Ha].
    unfold Qcle in *. rewrite this_plus. change (this 0) with 0%Q in Hx. lra.
Qed.

(** X6. Over a run, [accumulated_depreciation] is the running total of
    the monthly depreciation from the opening value of the company: no
    month's depreciation is negative, each balance sheet carries the
    previous accumulated depreciation plus the depreciation of the month,
    and no balance sheet carries less than the opening value. *)
Theorem run_accumulated_depreciation (fpow : Qc -> Qc -> Qc) (scenario : ScenarioInput.t)
  (final : LoopState) (months : list (MonthlyProjection.t * MonthTrace)) :
  run_months fpow scenario = Ok (final, months) ->
  let depreciation :=
    map (fun pm => IncomeStatement.depreciation
                     (MonthlyProjection.income_statement (fst pm))) months in
  let accumulated :=
    map (fun pm => BalanceSheet.accumulated_depreciation
                     (MonthlyProjection.balance_sheet (fst pm))) months in
  let opening :=
    CompanyState.accumulated_depreciation (ScenarioInput.company_state scenario) in
  Forall (fun d => 0 <= d) depreciation
  /\ accumulated = running_total opening depreciation
  /\ Forall (fun a => opening <= a) accumulated.
Proof.
  intro H. unfold run_months in H. apply run_loop_depreciation in H.
  cbv zeta in *. destruct H as [Hpos Hrun]. cbn [st_accumulated_depreciation init_state] in Hrun.
  split; [exact Hpos|]. split; [exact Hrun|].
  rewrite Hrun. now apply running_total_monotone.
Qed.

Lemma run_accumulated_depreciation_witness :
  exists final months,
    run_months fpow_example (scenario_S5 3) = Ok (final, months)
    /\ map (fun pm => BalanceSheet.accumulated_depreciation
                        (MonthlyProjection.balance_sheet (fst pm))) months
       = running_total 0
           (map (fun pm => IncomeStatement.depreciation
                             (MonthlyProjection.income_statement (fst pm))) months).
Proof.
  assert (H : exists final months,
             run_months fpow_example (scenario_S5 3) = Ok (final, months))
    by (vm_compute; do 2 eexists; reflexivity).
  destruct H as (final & months & H). exists final, months. split; [exact H|].
  exact (proj1 (proj2 (run_accumulated_depreciation fpow_example (scenario_S5 3)
                         final months H))).
Defined.

(* ------------------------------------------------------------------ *)
(** ** Supplier contracts *)


(* ------------------------------------------------------------------ *)
(** ** The terminal value *)

(** X8. [_compute_terminal_value] returns 0 without annual summaries and
    never raises under the multiple method.  Under the perpetuity method
    it raises exactly when [perpetual_growth_rate] equals [wacc], and then
    a division by zero. *)
Theorem terminal_value_errors (v : ValuationSettings.t) (annual : list AnnualSummary.t) :
  (annual = [] -> _compute_terminal_value v annual = Ok 0)
  /\ (ValuationSettings.terminal_method v = MULTIPLE ->
      exists tv, _compute_terminal_value v annual = Ok tv)
  /\ (forall e, _compute_terminal_value v annual = Raise e ->
      e = ZeroDivisionError
      /\ annual <> []
      /\ ValuationSettings.terminal_method v = PERPETUITY
      /\ ValuationSettings.wacc v = ValuationSettings.perpetual_growth_rate v)
  /\ (annual <> [] ->
      ValuationSettings.terminal_method v = PERPETUITY ->
      ValuationSettings.wacc v = ValuationSettings.perpetual_growth_rate v ->
      _compute_terminal_value v annual = Raise ZeroDivisionError).
Proof.
  unfold _compute_terminal_value.
  split; [intros ->; reflexivity|].
  split; [intros ->; destruct (rev annual); eauto|].
  split.
  - intros e H. destruct (rev annual) as [|last rest] eqn:Hrev; [discriminate|].
    assert (Hne : annual <> []) by (intros ->; discriminate).
    destruct (ValuationSettings.terminal_method v); [|discriminate].
    unfold py_div in H. destruct (Qc_eq_bool _ 0) eqn:Hz; [|discriminate].
    injection H as <-. apply Qc_eq_bool_true in Hz.
    repeat split; try assumption.
    rewrite <- (Qcplus_0_l (ValuationSettings.perpetual_growth_rate v)), <- Hz. ring.
  - intros Hne -> Heq. destruct (rev annual) as [|last rest] eqn:Hrev.
    + apply (f_equal (@rev _)) in Hrev. rewrite rev_involutive in Hrev. contradiction.
    + rewrite Heq. unfold py_div.
      replace (Qc_eq_bool _ 0) with true; [reflexivity|].
      symmetry. apply Qc_eq_bool_true. ring.
Qed.

(** What [run] returns of the discounted cash flow. *)
Lemma run_dcf_parts (fpow : Qc -> Qc -> Qc) (scenario : ScenarioInput.t)
  (r : ScenarioResult.t) :
  run fpow scenario = Ok r ->
  let dcf := ValuationResult.dcf (ScenarioResult.valuation r) in
  let v := ScenarioInput.valuation scenario in
  let factor :=
    fpow (1 + ValuationSettings.wacc v)
      (float_of_int (Z.of_nat (List.length (ScenarioResult.monthly r))) / fl 12) in
  _compute_terminal_value v (ScenarioResult.annual r)
  = Ok (DiscountedCashFlowResult.terminal_value dcf)
  /\ factor <> 0
  /\ DiscountedCashFlowResult.pv_of_terminal_value dcf
     = DiscountedCashFlowResult.terminal_value dcf / factor
  /\ DiscountedCashFlowResult.enterprise_value dcf
     = DiscountedCashFlowResult.pv_of_cash_flows dcf
       + DiscountedCashFlowResult.pv_of_terminal_value dcf
  /\ exists last_month,
       py_last (ScenarioResult.monthly r) = Ok last_month
       /\ DiscountedCashFlowResult.equity_value dcf
          = DiscountedCashFlowResult.enterprise_value dcf
            - BalanceSheet.debt (MonthlyProjection.balance_sheet last_month)
            + BalanceSheet.cash (MonthlyProjection.balance_sheet last_month).
Proof.
  unfold run. intro H. inv_bind H. destruct v as [final months].
  inv_bind H. injection H as <-.
  unfold _build_valuation in E0.
  inv_bind E0. inv_bind E0. inv_bind E0. inv_bind E0. inv_bind E0. inv_bind E0.
  injection E0 as <-.
  cbn [ScenarioResult.annual ScenarioResult.valuation ScenarioResult.monthly
       ValuationResult.dcf DiscountedCashFlowResult.terminal_value
       DiscountedCashFlowResult.pv_of_terminal_value
       DiscountedCashFlowResult.enterprise_value
       DiscountedCashFlowResult.pv_of_cash_flows
       DiscountedCashFlowResult.equity_value].
  rewrite length_map in E3. apply py_div_inv in E3. destruct E3 as [HD ->].
  split; [exact E2|]. split; [exact HD|].
  split; [reflexivity|]. split; [reflexivity|].
  exists v3. split; [exact E4 | reflexivity].
Qed.

Lemma Qcmult_neg_pos (x k : Qc) : x < 0 -> 0 < k -> x * k < 0.
Proof.
  intros Hx Hk. rewrite <- (Qcmult_0_l k). now apply Qcmult_lt_compat_r.
Qed.

(** X9. Under the perpetuity method with
    [-1 < perpetual_growth_rate < wacc] and a float power that is positive
    on positive bases, the present value of the terminal value has the
    sign of the FCFF of the last annual summary: it is negative exactly
    when that FCFF is. *)
Theorem run_pv_terminal_sign (fpow : Qc -> Qc -> Qc) (scenario : ScenarioInput.t)
  (r : ScenarioResult.t) (last : AnnualSummary.t) :
  (forall b e, 0 < b -> 0 < fpow b e) ->
  let v := ScenarioInput.valuation scenario in
  ValuationSettings.terminal_method v = PERPETUITY ->
  0 < 1 + ValuationSettings.perpetual_growth_rate v ->
  ValuationSettings.perpetual_growth_rate v < ValuationSettings.wacc v ->
  run fpow scenario = Ok r ->
  py_last (ScenarioResult.annual r) = Ok last ->
  let pv_terminal :=
    DiscountedCashFlowResult.pv_of_terminal_value
      (ValuationResult.dcf (ScenarioResult.valuation r)) in
  let fcff := CashFlowStatement.fcff (AnnualSummary.cash_flow last) in
  (0 <= fcff -> 0 <= pv_terminal) /\ (fcff < 0 -> pv_terminal < 0).
Proof.
  intros Hpos v Hm Hg Hw H Hlast. subst v.
  destruct (run_dcf_parts _ _ _ H) as (Htv & _ & Hpv & _). cbv zeta in *.
  unfold _compute_terminal_value, py_last in *.
  destruct (rev (ScenarioResult.annual r)) as [|l rest]; [discriminate|].
  injection Hlast as ->. rewrite Hm in Htv.
  apply py_div_inv in Htv. destruct Htv as [_ Htv].
  set (g := ValuationSettings.perpetual_growth_rate (ScenarioInput.valuation scenario)) in *.
  set (w := ValuationSettings.wacc (ScenarioInput.valuation scenario)) in *.
  set (f := CashFlowStatement.fcff (AnnualSummary.cash_flow last)) in *.
  match type of Hpv with _ = _ / ?d => set (D := d) in * end.
  assert (HD : 0 < D).
  { apply Hpos. apply Qclt_trans with (1 + g); [exact Hg|].
    unfold Qclt in *. rewrite !this_plus. rewrite this_plus in Hg. lra. }
  assert (Hk : 0 < / fl 12 * (1 + g) * / (w - g) * / D).
  { repeat apply Qcmult_pos; try (apply Qcinv_pos); try assumption.
    - unfold Qclt. vm_compute. reflexivity.
    - unfold Qclt in *. rewrite this_minus. change (this 0) with 0%Q. lra. }
  assert (Heq : DiscountedCashFlowResult.pv_of_terminal_value
                  (ValuationResult.dcf (ScenarioResult.valuation r))
                = f * (/ fl 12 * (1 + g) * / (w - g) * / D)).
  { rewrite Hpv, Htv. unfold Qcdiv. ring. }
  rewrite Heq. split; intro Hf.
  - apply Qcmult_nonneg; [exact Hf | now apply Qclt_le_weak].
  - now apply Qcmult_neg_pos.
Qed.

Lemma run_pv_terminal_sign_witness :
  exists r,
    run fpow_example (scenario_S6 (fl (5 # 100))) = Ok r
    /\ 0 <= DiscountedCashFlowResult.pv_of_terminal_value
              (ValuationResult.dcf (ScenarioResult.valuation r)).
Proof.
  assert (H : exists r last,
             run fpow_example (scenario_S6 (fl (5 # 100))) = Ok r
             /\ py_last (ScenarioResult.annual r) = Ok last
             /\ Qcleb 0 (CashFlowStatement.fcff (AnnualSummary.cash_flow last)) = true)
    by (vm_compute; do 2 eexists; repeat split; reflexivity).
  destruct H as (r & last & H & Hlast & Hf). exists r. split; [exact H|].
  apply Qcleb_le in Hf.
  refine (proj1 (run_pv_terminal_sign fpow_example (scenario_S6 (fl (5 # 100))) r last
                   fpow_example_pos eq_refl _ _ H Hlast) Hf).
  - apply Qcleb_gt. vm_compute. reflexivity.
  - apply Qcleb_gt. vm_compute. reflexivity.
Defined.

(* ------------------------------------------------------------------ *)
(** ** The VC method and the scorecard, continued *)

Lemma Qcpower_nonzero (b : Qc) (n : nat) : b <> 0 -> b ^ n <> 0.
Proof.
  intro Hb. induction n as [|n IH]; simpl.
  - exact Q_apart_0_1.
  - intro H. apply Qcmult_integral in H. tauto.
Qed.

Lemma Qcinv_nonzero (x : Qc) : x <> 0 -> / x <> 0.
Proof.
  intros Hx H. apply Q_apart_0_1.
  rewrite <- (Qcmult_inv_r x Hx), H. apply Qcmult_0_r.
Qed.

Lemma py_pow_int_nonzero (b : Qc) (n : Z) :
  b <> 0 -> exists p, py_pow_int b n = Ok p /\ p <> 0.
Proof.
  intro Hb. unfold py_pow_int. destruct (n <? 0)%Z.
  - apply Qc_eq_bool_false in Hb. rewrite Hb. eexists. split; [reflexivity|].
    apply Qcinv_nonzero, Qcpower_nonzero. now apply Qc_eq_bool_false.
  - eexists. split; [reflexivity|]. now apply Qcpower_nonzero.
Qed.

Lemma py_max_ge_r (a b : Qc) : b <= py_max a b.
Proof.
  unfold py_max. destruct (Qcleb b a) eqn:E.
  - now apply Qcleb_le.
  - apply Qcle_refl.
Qed.

Lemma Qcmult_nonzero (x y : Qc) : x <> 0 -> y <> 0 -> x * y <> 0.
Proof. intros Hx Hy H. apply Qcmult_integral in H. tauto. Qed.


(** A year with a net revenue of 200,000 and nothing else. *)
Definition annual_200000 : AnnualSummary.t :=
  AnnualSummary.mk 2024
    (IncomeStatement.mk (fl 200000) 0 (fl 200000) 0 (fl 200000) 0 (fl 200000) 0 0
       (fl 200000) 0 (fl 200000) 0 (fl 200000))
    (CashFlowStatement.mk (fl 200000) 0 0 (fl 200000) 0 (fl 200000) (fl 200000)).




(* ------------------------------------------------------------------ *)
(** ** Annual summaries *)

Lemma zget_zset_same {V : Type} (k : Z) (v : V) (d : list (Z * V)) :
  zget k (zset k v d) = Some v.
Proof.
  unfold zget, zset. induction d as [|[k' v'] d IH]; simpl.
  - now rewrite Z.eqb_refl.
  - destruct (Z.eqb k k') eqn:E; simpl; rewrite E; [reflexivity | exact IH].
Qed.

Lemma zget_zset_other {V : Type} (k k' : Z) (v : V) (d : list (Z * V)) :
  k <> k' -> zget k (zset k' v d) = zget k d.
Proof.
  intro Hne. unfold zget, zset. induction d as [|[k0 v0] d IH]; simpl.
  - apply Z.eqb_neq in Hne. now rewrite Hne.
  - destruct (Z.eqb k' k0) eqn:E; simpl.
    + apply Z.eqb_eq in E. subst k0. apply Z.eqb_neq in Hne. now rewrite Hne.
    + destruct (Z.eqb k k0); [reflexivity | exact IH].
Qed.

Lemma get_default_zset {V : Type} (k k' : Z) (dflt v : V) (d : list (Z * V)) :
  dict_get_default Z.eqb k dflt (zset k' v d)
  = if (k =? k')%Z then v else dict_get_default Z.eqb k dflt d.
Proof.
  unfold dict_get_default. fold (@zget V).
  destruct (Z.eqb_spec k k') as [->|Hne].
  - now rewrite zget_zset_same.
  - now rewrite zget_zset_other.
Qed.

Lemma keys_zset {V : Type} (k : Z) (v : V) (d : list (Z * V)) :
  dict_keys (zset k v d)
  = if existsb (Z.eqb k) (dict_keys d) then dict_keys d else dict_keys d ++ [k].
Proof.
  unfold dict_keys, zset. induction d as [|[k' v'] d IH]; simpl; [reflexivity|].
  destruct (Z.eqb k k') eqn:E; simpl; [reflexivity|].
  rewrite IH. now destruct (existsb (Z.eqb k) (map fst d)).
Qed.

(** What [_accumulate_annual] adds to the bundles of a year. *)
Definition income_acc_add (acc : IncomeAcc) (inc : IncomeStatement.t) : IncomeAcc :=
  mkIncomeAcc
    (a_gross_revenue acc + IncomeStatement.gross_revenue inc)
    (a_revenue_taxes acc + IncomeStatement.revenue_taxes inc)
    (a_net_revenue acc + IncomeStatement.net_revenue inc)
    (a_cogs acc + IncomeStatement.cogs inc)
    (a_operating_expenses acc + IncomeStatement.operating_expenses inc)
    (a_ebitda acc + IncomeStatement.ebitda inc)
    (a_depreciation acc + IncomeStatement.depreciation inc)
    (a_amortization acc + IncomeStatement.amortization inc)
    (a_ebit acc + IncomeStatement.ebit inc)
    (a_interest acc + IncomeStatement.interest inc)
    (a_ebt acc + IncomeStatement.ebt inc)
    (a_income_tax acc + IncomeStatement.income_tax inc)
    (a_net_income acc + IncomeStatement.net_income inc).

Definition cash_acc_add (acc : CashAcc) (cf : CashFlowStatement.t) : CashAcc :=
  mkCashAcc
    (a_operating acc + CashFlowStatement.operating_cash_flow cf)
    (a_investing acc + CashFlowStatement.investing_cash_flow cf)
    (a_financing acc + CashFlowStatement.financing_cash_flow cf)
    (a_fcff acc + CashFlowStatement.fcff cf)
    (a_fcfe acc + CashFlowStatement.fcfe cf).

Lemma accumulate_annual_eq (d : date) (inc : IncomeStatement.t)
  (cf : CashFlowStatement.t) (accs : list (Z * IncomeAcc)) (caccs : list (Z * CashAcc)) :
  _accumulate_annual d inc cf accs caccs
  = (zset (year d) (income_acc_add (dict_get_default Z.eqb (year d) IncomeAcc_zero accs) inc)
       accs,
     zset (year d) (cash_acc_add (dict_get_default Z.eqb (year d) CashAcc_zero caccs) cf)
       caccs).
Proof. reflexivity. Qed.

(** The months of a year. *)
Definition months_of_year (y : Z) (monthly : list MonthlyProjection.t)
  : list MonthlyProjection.t :=
  filter (fun p => (year (MonthlyProjection.period_start p) =? y)%Z) monthly.

Section AnnualSide.
Variable fpow : Qc -> Qc -> Qc.
Variable scenario : ScenarioInput.t.
Variable hiring_lookup : list (Z * list HiringPlan.t).
Variable capex_schedule : list (Z * CapexItem.t).

Lemma month_body_annual st month_index st' p t :
  month_body fpow scenario hiring_lookup capex_schedule st month_index = Ok (st', p, t) ->
  (st_annual_accumulators st', st_annual_cash st')
  = _accumulate_annual (MonthlyProjection.period_start p)
      (MonthlyProjection.income_statement p) (MonthlyProjection.cash_flow p)
      (st_annual_accumulators st) (st_annual_cash st).
Proof.
  unfold month_body. intro H.
  inv_bind H. inv_bind H. destruct v0 as [[revenue_summary plan_states] plan_lines].
  inv_bind H. destruct v0 as [[headcount_breakdown payroll_total] headcount_states].
  inv_bind H. destruct v0 as [[cost_breakdown total_cogs] total_opex].
  destruct (_compute_revenue_taxes _ _ _) as [revenue_taxes_amount tax_breakdown].
  inv_bind H. destruct v0 as [[[depreciation accumulated] fixed] tracks].
  inv_bind H. destruct v0 as [[interest_expense principal_paid] debt_states].
  cbv zeta in H.
  destruct (_funding_inflows month_index _) as [equity_raise debt_inflows].
  destruct (_accumulate_annual _ _ _ _ _) as [annual_accumulators annual_cash] eqn:Hacc.
  injection H as <- <- <-. symmetry. exact Hacc.
Qed.

(** One line of the income bundle, summed over the loop. *)
Lemma run_loop_income_line (fa : IncomeAcc -> Qc) (fi : IncomeStatement.t -> Qc) :
  (forall a inc, fa (income_acc_add a inc) = fa a + fi inc) ->
  forall month_indices st final months y,
    run_loop fpow scenario hiring_lookup capex_schedule month_indices st
    = Ok (final, months) ->
    fa (dict_get_default Z.eqb y IncomeAcc_zero (st_annual_accumulators final))
    = fold_left Qcplus
        (map (fun p => fi (MonthlyProjection.income_statement p))
           (months_of_year y (map fst months)))
        (fa (dict_get_default Z.eqb y IncomeAcc_zero (st_annual_accumulators st))).
Proof.
  intro Hadd. induction month_indices as [|m rest IH]; intros st final months y H.
  - injection H as <- <-. reflexivity.
  - simpl in H. inv_bind H. destruct v as [[st' p] t].
    inv_bind H. destruct v as [final' later]. injection H as <- <-.
    apply month_body_annual in E. rewrite accumulate_annual_eq in E.
    injection E as Hacc _.
    rewrite (IH _ _ _ y E0), Hacc, get_default_zset.
    unfold months_of_year. cbn [map fst filter].
    destruct (Z.eq_dec y (year (MonthlyProjection.period_start p))) as [->|Hne].
    + rewrite !Z.eqb_refl. cbn [map fold_left]. now rewrite Hadd.
    + rewrite (proj2 (Z.eqb_neq _ _) Hne).
      rewrite (proj2 (Z.eqb_neq (year (MonthlyProjection.period_start p)) y))
        by congruence.
      reflexivity.
Qed.

Lemma run_loop_cash_line (fa : CashAcc -> Qc) (fi : CashFlowStatement.t -> Qc) :
  (forall a cf, fa (cash_acc_add a cf) = fa a + fi cf) ->
  forall month_indices st final months y,
    run_loop fpow scenario hiring_lookup capex_schedule month_indices st
    = Ok (final, months) ->
    fa (dict_get_default Z.eqb y CashAcc_zero (st_annual_cash final))
    = fold_left Qcplus
        (map (fun p => fi (MonthlyProjection.cash_flow p))
           (months_of_year y (map fst months)))
        (fa (dict_get_default Z.eqb y CashAcc_zero (st_annual_cash st))).
Proof.
  intro Hadd. induction month_indices as [|m rest IH]; intros st final months y H.
  - injection H as <- <-. reflexivity.
  - simpl in H. inv_bind H. destruct v as [[st' p] t].
    inv_bind H. destruct v as [final' later]. injection H as <- <-.
    apply month_body_annual in E. rewrite accumulate_annual_eq in E.
    injection E as _ Hacc.
    rewrite (IH _ _ _ y E0), Hacc, get_default_zset.
    unfold months_of_year. cbn [map fst filter].
    destruct (Z.eq_dec y (year (MonthlyProjection.period_start p))) as [->|Hne].
    + rewrite !Z.eqb_refl. cbn [map fold_left]. now rewrite Hadd.
    + rewrite (proj2 (Z.eqb_neq _ _) Hne).
      rewrite (proj2 (Z.eqb_neq (year (MonthlyProjection.period_start p)) y))
        by congruence.
      reflexivity.
Qed.

(** The years that have a bundle are the years of the months. *)
Lemma run_loop_years month_indices :
  forall st final months,
    run_loop fpow scenario hiring_lookup capex_schedule month_indices st
    = Ok (final, months) ->
    (NoDup (dict_keys (st_annual_accumulators st)) ->
     NoDup (dict_keys (st_annual_accumulators final)))
    /\ forall y,
         In y (dict_keys (st_annual_accumulators final))
         <-> In y (dict_keys (st_annual_accumulators st))
             \/ exists p, In p (map fst months)
                          /\ year (MonthlyProjection.period_start p) = y.
Proof.
  induction month_indices as [|m rest IH]; intros st final months H.
  - injection H as <- <-. split; [auto|]. intro y. split; [auto|].
    intros [Hin|(p & [] & _)]. exact Hin.
  - simpl in H. inv_bind H. destruct v as [[st' p] t].
    inv_bind H. destruct v as [final' later]. injection H as <- <-.
    apply month_body_annual in E. rewrite accumulate_annual_eq in E.
    injection E as Hacc _.
    destruct (IH _ _ _ E0) as [Hnd Hin]. rewrite Hacc, keys_zset in Hnd, Hin.
    set (yp := year (MonthlyProjection.period_start p)) in *.
    set (keys := dict_keys (st_annual_accumulators st)) in *.
    assert (Hex : existsb (Z.eqb yp) keys = true <-> In yp keys).
    { rewrite existsb_exists. split.
      - intros (x & Hx & Hxe). apply Z.eqb_eq in Hxe. now subst.
      - intro Hx. exists yp. split; [exact Hx | apply Z.eqb_refl]. }
    split.
    + intro Hk. apply Hnd. destruct (existsb (Z.eqb yp) keys) eqn:Hb; [exact Hk|].
      apply NoDup_app; [exact Hk | repeat constructor; intros [] |].
      intros x Hx [<-|[]]. apply Hex in Hx. congruence.
    + intro y. rewrite Hin. cbn [map fst In]. split.
      * intros [Hy|(q & Hq & Hqy)].
        -- destruct (existsb (Z.eqb yp) keys); [now left|].
           apply in_app_or in Hy. destruct Hy as [Hy|[<-|[]]]; [now left|].
           right. exists p. split; [now left | reflexivity].
        -- right. exists q. split; [now right | exact Hqy].
      * intros [Hy|(q & [<-|Hq] & Hqy)].
        -- left. destruct (existsb (Z.eqb yp) keys); [exact Hy|].
           apply in_or_app. now left.
        -- left. subst y. fold yp.
           destruct (existsb (Z.eqb yp) keys) eqn:Hb; [now apply Hex|].
           apply in_or_app. right. now left.
        -- right. exists q. split; assumption.
Qed.

End AnnualSide.

From Stdlib Require Import Sorted.

Lemma insert_sorted_In (k x : Z) (l : list Z) :
  In x (insert_sorted k l) <-> x = k \/ In x l.
Proof.
  induction l as [|k' l IH]; simpl.
  - intuition.
  - destruct (k <=? k')%Z; simpl; [intuition|]. rewrite IH. intuition.
Qed.

Lemma sorted_In (x : Z) (l : list Z) : In x (sorted l) <-> In x l.
Proof.
  unfold sorted. induction l as [|k l IH]; simpl; [reflexivity|].
  rewrite insert_sorted_In, IH. intuition.
Qed.

Lemma insert_sorted_strict (k : Z) (l : list Z) :
  StronglySorted Z.lt l -> ~ In k l -> StronglySorted Z.lt (insert_sorted k l).
Proof.
  induction 1 as [|k' l Hs IH Hall]; intro Hnot; simpl.
  - repeat constructor.
  - destruct (Z.leb_spec k k') as [Hle|Hgt].
    + assert (Hlt : (k < k')%Z) by (simpl in Hnot; lia).
      constructor; [now constructor|]. constructor; [exact Hlt|].
      eapply Forall_impl; [|exact Hall]. cbn beta. lia.
    + constructor.
      * apply IH. intro Hin. apply Hnot. now right.
      * apply Forall_forall. intros x Hx. apply insert_sorted_In in Hx.
        destruct Hx as [->|Hx]; [exact Hgt|].
        rewrite Forall_forall in Hall. now apply Hall.
Qed.

Lemma sorted_strict (l : list Z) : NoDup l -> StronglySorted Z.lt (sorted l).
Proof.
  unfold sorted. induction 1 as [|k l Hnot _ IH]; simpl; [constructor|].
  apply insert_sorted_strict; [exact IH|]. fold (sorted l). now rewrite sorted_In.
Qed.

Lemma annual_summaries_years (accs : list (Z * IncomeAcc)) (caccs : list (Z * CashAcc)) :
  map AnnualSummary.year (_build_annual_summaries accs caccs) = sorted (dict_keys accs).
Proof.
  unfold _build_annual_summaries. rewrite map_map. cbn [AnnualSummary.year].
  apply map_id.
Qed.

(** X12. Each annual summary carries the totals of the months whose
    [period_start] falls in its year: gross revenue, net revenue, COGS,
    EBITDA, net income and FCFF are the sums of the monthly lines of that
    year, in month order; its gross margin is recomputed as net revenue
    minus COGS and its [ending_cash] is 0. *)
Theorem run_annual_totals (fpow : Qc -> Qc -> Qc) (scenario : ScenarioInput.t)
  (r : ScenarioResult.t) :
  run fpow scenario = Ok r ->
  Forall
    (fun s =>
       let inc := AnnualSummary.income_statement s in
       let of_year := months_of_year (AnnualSummary.year s) (ScenarioResult.monthly r) in
       let total (line : IncomeStatement.t -> Qc) :=
         py_sum (map (fun p => line (MonthlyProjection.income_statement p)) of_year) in
       IncomeStatement.gross_revenue inc = total IncomeStatement.gross_revenue
       /\ IncomeStatement.net_revenue inc = total IncomeStatement.net_revenue
       /\ IncomeStatement.cogs inc = total IncomeStatement.cogs
       /\ IncomeStatement.ebitda inc = total IncomeStatement.ebitda
       /\ IncomeStatement.net_income inc = total IncomeStatement.net_income
       /\ CashFlowStatement.fcff (AnnualSummary.cash_flow s)
          = py_sum (map (fun p => CashFlowStatement.fcff (MonthlyProjection.cash_flow p))
                      of_year)
       /\ IncomeStatement.gross_margin inc
          = IncomeStatement.net_revenue inc - IncomeStatement.cogs inc
       /\ CashFlowStatement.ending_cash (AnnualSummary.cash_flow s) = 0)
    (ScenarioResult.annual r).
Proof.
  intro H. unfold run in H. inv_bind H. destruct v as [final months].
  inv_bind H. injection H as <-.
  cbn [ScenarioResult.annual ScenarioResult.monthly].
  unfold run_months in E. unfold _build_annual_summaries.
  apply Forall_map, Forall_forall. intros y _. cbv zeta.
  cbn [AnnualSummary.income_statement AnnualSummary.cash_flow AnnualSummary.year
       IncomeStatement.gross_revenue IncomeStatement.net_revenue IncomeStatement.cogs
       IncomeStatement.ebitda IncomeStatement.net_income IncomeStatement.gross_margin
       CashFlowStatement.fcff CashFlowStatement.ending_cash].
  unfold py_sum.
  rewrite (run_loop_income_line _ _ _ _ a_gross_revenue IncomeStatement.gross_revenue
             ltac:(reflexivity) _ _ _ _ y E).
  rewrite (run_loop_income_line _ _ _ _ a_net_revenue IncomeStatement.net_revenue
             ltac:(reflexivity) _ _ _ _ y E).
  rewrite (run_loop_income_line _ _ _ _ a_cogs IncomeStatement.cogs
             ltac:(reflexivity) _ _ _ _ y E).
  rewrite (run_loop_income_line _ _ _ _ a_ebitda IncomeStatement.ebitda
             ltac:(reflexivity) _ _ _ _ y E).
  rewrite (run_loop_income_line _ _ _ _ a_net_income IncomeStatement.net_income
             ltac:(reflexivity) _ _ _ _ y E).
  rewrite (run_loop_cash_line _ _ _ _ a_fcff CashFlowStatement.fcff
             ltac:(reflexivity) _ _ _ _ y E).
  repeat split.
Qed.

Lemma run_annual_totals_witness :
  exists r,
    run fpow_example (scenario_S5 14) = Ok r
    /\ map AnnualSummary.year (ScenarioResult.annual r) = [2024; 2025]%Z
    /\ Forall
         (fun s =>
            IncomeStatement.ebitda (AnnualSummary.income_statement s)
            = py_sum (map (fun p => IncomeStatement.ebitda
                                      (MonthlyProjection.income_statement p))
                        (months_of_year (AnnualSummary.year s)
                           (ScenarioResult.monthly r))))
         (ScenarioResult.annual r).
Proof.
  assert (H : exists r,
             run fpow_example (scenario_S5 14) = Ok r
             /\ map AnnualSummary.year (ScenarioResult.annual r) = [2024; 2025]%Z)
    by (vm_compute; eexists; split; reflexivity).
  destruct H as (r & H & Hy). exists r. split; [exact H|]. split; [exact Hy|].
  pose proof (run_annual_totals fpow_example (scenario_S5 14) r H) as HX.
  rewrite Forall_forall in HX |- *. intros s Hs.
  destruct (HX s Hs) as (_ & _ & _ & He & _). exact He.
Defined.

(** X13. The annual summaries come in strictly ascending order of year,
    one for each calendar year in which a month of the run starts and for
    no other year. *)
Theorem run_annual_years (fpow : Qc -> Qc -> Qc) (scenario : ScenarioInput.t)
  (r : ScenarioResult.t) :
  run fpow scenario = Ok r ->
  let years := map AnnualSummary.year (ScenarioResult.annual r) in
  StronglySorted Z.lt years
  /\ forall y,
       In y years
       <-> exists p, In p (ScenarioResult.monthly r)
                     /\ year (MonthlyProjection.period_start p) = y.
Proof.
  intro H. unfold run in H. inv_bind H. destruct v as [final months].
  inv_bind H. injection H as <-.
  cbn [ScenarioResult.annual ScenarioResult.monthly]. cbv zeta.
  rewrite annual_summaries_years.
  unfold run_months in E. apply run_loop_years in E. destruct E as [Hnd Hin].
  split.
  - apply sorted_strict, Hnd. constructor.
  - intro y. rewrite sorted_In, Hin. cbn [st_annual_accumulators init_state dict_keys map In].
    tauto.
Qed.

Lemma run_annual_years_witness :
  exists r,
    run fpow_example (scenario_S5 14) = Ok r
    /\ StronglySorted Z.lt (map AnnualSummary.year (ScenarioResult.annual r)).
Proof.
  assert (H : exists r, run fpow_example (scenario_S5 14) = Ok r)
    by (vm_compute; eexists; reflexivity).
  destruct H as (r & H). exists r. split; [exact H|].
  exact (proj1 (run_annual_years fpow_example (scenario_S5 14) r H)).
Defined.

(* ------------------------------------------------------------------ *)
(** ** Month arithmetic *)

Lemma last_day_of_month_bounds (y m : Z) : (28 <= _last_day_of_month y m <= 31)%Z.
Proof.
  unfold _last_day_of_month.
  destruct (existsb _ _); [lia|]. destruct (existsb _ _); [lia|].
  destruct (_ || _); lia.
Qed.

(** The two outcomes of [_add_months]. *)
Lemma add_months_cases (dt : date) (months : Z) :
  (1 <= month dt <= 12)%Z -> (1 <= day dt)%Z ->
  let target_year := (year dt + (month dt - 1 + months) / 12)%Z in
  ((1 <= target_year <= 9999)%Z ->
   exists d,
     _add_months dt months = Ok d
     /\ (12 * year d + month d = 12 * year dt + month dt + months)%Z
     /\ year d = target_year
     /\ (1 <= month d <= 12)%Z
     /\ day d = Z.min (day dt) (_last_day_of_month (year d) (month d)))
  /\ (~ (1 <= target_year <= 9999)%Z -> _add_months dt months = Raise ValueError).
Proof.
  intros Hm Hd. cbv zeta. unfold _add_months, date_new.
  set (m0 := (month dt - 1 + months)%Z).
  set (y' := (year dt + m0 / 12)%Z).
  set (m' := (m0 mod 12 + 1)%Z).
  pose proof (Z.mod_pos_bound m0 12 ltac:(lia)) as Hmod.
  pose proof (Z.div_mod m0 12 ltac:(lia)) as Hdiv.
  pose proof (last_day_of_month_bounds y' m') as Hld.
  split.
  - intro Hy.
    replace ((1 <=? y') && (y' <=? 9999) && (1 <=? m') && (m' <=? 12)
             && (1 <=? Z.min (day dt) (_last_day_of_month y' m'))
             && (Z.min (day dt) (_last_day_of_month y' m') <=? _last_day_of_month y' m'))%Z
      with true.
    + eexists. split; [reflexivity|]. cbn [year month day].
      subst m' y' m0. repeat split; try lia.
    + symmetry. repeat (apply andb_true_intro; split); apply Z.leb_le; subst m'; lia.
  - intro Hy.
    replace ((1 <=? y') && (y' <=? 9999))%Z with false; [reflexivity|].
    symmetry. apply andb_false_iff.
    destruct (Z.leb_spec 1 y'); [right | left; reflexivity].
    apply Z.leb_gt. lia.
Qed.

(** X14. [_add_months] moves a date by exactly the given number of
    calendar months: counted in months since year 0, the result is the
    start plus [months].  The day is kept when the target month has it
    and cut to the last day of the target month otherwise (never for a
    day up to 28); the result is a date of the calendar.  The addition
    raises [ValueError] exactly when the target year leaves 1..9999. *)
Theorem add_months_spec (dt : date) (months : Z) :
  (1 <= month dt <= 12)%Z -> (1 <= day dt)%Z ->
  let target_year := (year dt + (month dt - 1 + months) / 12)%Z in
  ((1 <= target_year <= 9999)%Z ->
   exists d,
     _add_months dt months = Ok d
     /\ (12 * year d + month d = 12 * year dt + month dt + months)%Z
     /\ year d = target_year
     /\ (1 <= month d <= 12)%Z
     /\ day d = Z.min (day dt) (_last_day_of_month (year d) (month d))
     /\ (1 <= day d <= _last_day_of_month (year d) (month d))%Z
     /\ ((day dt <= 28)%Z -> day d = day dt))
  /\ (~ (1 <= target_year <= 9999)%Z -> _add_months dt months = Raise ValueError).
Proof.
  intros Hm Hd. cbv zeta.
  destruct (add_months_cases dt months Hm Hd) as [Hok Hbad]. cbv zeta in Hok, Hbad.
  split; [|exact Hbad].
  intro Hy. destruct (Hok Hy) as (d & H & Hcount & Hyear & Hmonth & Hday).
  pose proof (last_day_of_month_bounds (year d) (month d)) as Hlast.
  exists d. repeat split; try assumption; lia.
Qed.

Lemma add_months_spec_witness :
  exists d,
    _add_months (mkDate 2024 1 31) 13 = Ok d
    /\ (12 * year d + month d = 12 * 2024 + 1 + 13)%Z
    /\ day d = 28%Z.
Proof.
  destruct (proj1 (add_months_spec (mkDate 2024 1 31) 13
                     ltac:(cbn; lia) ltac:(cbn; lia)) ltac:(cbn; lia))
    as (d & H & Hcount & Hy & Hm & Hday & _).
  exists d. split; [exact H|]. split; [exact Hcount|].
  cbn [year month day] in Hcount, Hy, Hm. change (year d = 2025%Z) in Hy.
  assert (Hmonth : month d = 2%Z) by lia.
  rewrite Hday, Hy, Hmonth. reflexivity.
Defined.

Section PeriodSide.
Variable fpow : Qc -> Qc -> Qc.
Variable scenario : ScenarioInput.t.
Variable hiring_lookup : list (Z * list HiringPlan.t).
Variable capex_schedule : list (Z * CapexItem.t).

Lemma month_body_period st month_index st' p t :
  month_body fpow scenario hiring_lookup capex_schedule st month_index = Ok (st', p, t) ->
  _add_months (TimeframeSettings.start_date (ScenarioInput.timeframe scenario)) month_index
  = Ok (MonthlyProjection.period_start p).
Proof.
  unfold month_body. intro H.
  inv_bind H. inv_bind H. destruct v0 as [[revenue_summary plan_states] plan_lines].
  inv_bind H. destruct v0 as [[headcount_breakdown payroll_total] headcount_states].
  inv_bind H. destruct v0 as [[cost_breakdown total_cogs] total_opex].
  destruct (_compute_revenue_taxes _ _ _) as [revenue_taxes_amount tax_breakdown].
  inv_bind H. destruct v0 as [[[depreciation accumulated] fixed] tracks].
  inv_bind H. destruct v0 as [[interest_expense principal_paid] debt_states].
  cbv zeta in H.
  destruct (_funding_inflows month_index _) as [equity_raise debt_inflows].
  destruct (_accumulate_annual _ _ _ _ _) as [annual_accumulators annual_cash].
  injection H as <- <- <-. exact E.
Qed.

(** The iteration behind each recorded month. *)
Lemma run_loop_nth month_indices :
  forall st final months i pm,
    run_loop fpow scenario hiring_lookup capex_schedule month_indices st
    = Ok (final, months) ->
    nth_error months i = Some pm ->
    exists st_i st_i' month_index,
      nth_error month_indices i = Some month_index
      /\ month_body fpow scenario hiring_lookup capex_schedule st_i month_index
         = Ok (st_i', fst pm, snd pm).
Proof.
  induction month_indices as [|m rest IH]; intros st final months i pm H Hnth.
  - injection H as <- <-. destruct i; discriminate.
  - simpl in H. inv_bind H. destruct v as [[st' p] t].
    inv_bind H. destruct v as [final' later]. injection H as <- <-.
    destruct i as [|i].
    + injection Hnth as <-. exists st, st', m. split; [reflexivity | exact E].
    + exact (IH _ _ _ _ _ E0 Hnth).
Qed.

End PeriodSide.

(** X15. The months of a run are consecutive calendar months: counted in
    months since year 0, the [period_start] of the month of index [m] is
    that of [timeframe.start_date] plus [m], and its day is the day of the
    start date cut to the length of its month. *)
Theorem run_period_starts (fpow : Qc -> Qc -> Qc) (scenario : ScenarioInput.t)
  (final : LoopState) (months : list (MonthlyProjection.t * MonthTrace))
  (m : nat) (pm : MonthlyProjection.t * MonthTrace) :
  let start := TimeframeSettings.start_date (ScenarioInput.timeframe scenario) in
  (1 <= month start <= 12)%Z -> (1 <= day start)%Z ->
  run_months fpow scenario = Ok (final, months) ->
  nth_error months m = Some pm ->
  let d := MonthlyProjection.period_start (fst pm) in
  (12 * year d + month d = 12 * year start + month start + Z.of_nat m)%Z
  /\ (1 <= month d <= 12)%Z
  /\ (1 <= year d <= 9999)%Z
  /\ day d = Z.min (day start) (_last_day_of_month (year d) (month d)).
Proof.
  cbv zeta. intros Hm Hd H Hnth. unfold run_months in H.
  destruct (run_loop_nth _ _ _ _ _ _ _ _ _ _ H Hnth) as (st_i & st_i' & mi & Hmi & Hbody).
  apply nth_error_py_range in Hmi. subst mi.
  apply month_body_period in Hbody.
  destruct (add_months_cases _ (Z.of_nat m) Hm Hd) as [Hok Hbad]. cbv zeta in Hok, Hbad.
  destruct (Z_le_dec 1 (year (TimeframeSettings.start_date (ScenarioInput.timeframe scenario))
                        + (month (TimeframeSettings.start_date
                                    (ScenarioInput.timeframe scenario)) - 1 + Z.of_nat m) / 12))
    as [Hlo|Hlo];
  [destruct (Z_le_dec (year (TimeframeSettings.start_date (ScenarioInput.timeframe scenario))
                        + (month (TimeframeSettings.start_date
                                    (ScenarioInput.timeframe scenario)) - 1 + Z.of_nat m) / 12)
               9999) as [Hhi|Hhi]|].
  - destruct (Hok (conj Hlo Hhi)) as (d & Hd' & Hcount & Hy & Hmonth & Hday).
    rewrite Hd' in Hbody. injection Hbody as <-.
    repeat split; try assumption; try lia.
  - rewrite Hbad in Hbody by lia. discriminate.
  - rewrite Hbad in Hbody by lia. discriminate.
Qed.

Lemma run_period_starts_witness :
  exists final months pm,
    run_months fpow_example (scenario_S5 14) = Ok (final, months)
    /\ nth_error months 13 = Some pm
    /\ (12 * year (MonthlyProjection.period_start (fst pm))
        + month (MonthlyProjection.period_start (fst pm))
        = 12 * 2024 + 1 + 13)%Z.
Proof.
  assert (H : exists final months pm,
             run_months fpow_example (scenario_S5 14) = Ok (final, months)
             /\ nth_error months 13 = Some pm)
    by (vm_compute; do 3 eexists; split; reflexivity).
  destruct H as (final & months & pm & H & Hnth). exists final, months, pm.
  split; [exact H|]. split; [exact Hnth|].
  exact (proj1 (run_period_starts fpow_example (scenario_S5 14) final months 13 pm
                  ltac:(cbn; lia) ltac:(cbn; lia) H Hnth)).
Defined.

(* ------------------------------------------------------------------ *)
(** ** The deferral queue *)

(** The plan names of the dictionary of plan states with the length of
    each queue. *)
Definition queue_lengths (plan_states : sdict PlanState.t) : list (string * nat) :=
  map (fun entry => (fst entry, List.length (PlanState.deferred_revenue (snd entry))))
    plan_states.

Lemma queue_lengths_sset (name : string) (state state' : PlanState.t)
  (plan_states : sdict PlanState.t) :
  sget name plan_states = Some state ->
  List.length (PlanState.deferred_revenue state')
  = List.length (PlanState.deferred_revenue state) ->
  queue_lengths (sset name state' plan_states) = queue_lengths plan_states.
Proof.
  unfold sget, sset, queue_lengths. intros Hget Hlen.
  induction plan_states as [|[k s] d IH]; [discriminate|].
  simpl in *. destruct (String.eqb name k).
  - injection Hget as ->. simpl. now rewrite Hlen.
  - simpl. now rewrite IH.
Qed.

Lemma revenue_bodies_queue_lengths (month_index : Z) (plans : list RevenuePlan.t) :
  forall acc acc',
    for_each (revenue_plan_body month_index) plans acc = Ok acc' ->
    queue_lengths (acc_plan_states acc') = queue_lengths (acc_plan_states acc)
    /\ List.length (acc_lines acc') = (List.length (acc_lines acc) + List.length plans)%nat.
Proof.
  induction plans as [|plan plans IH]; intros acc acc' H.
  - injection H as <-. split; [reflexivity | simpl; lia].
  - simpl in H. inv_bind H. destruct (IH _ _ H) as [Hq Hl].
    apply revenue_plan_body_inv in E.
    destruct E as (state & line & active' & deferred' & Hget & Hst & Hlines & _ & _ & Hd).
    split.
    + rewrite Hq, Hst. apply (queue_lengths_sset _ state); [exact Hget|].
      cbn [PlanState.deferred_revenue].
      destruct (0 <? RevenuePlan.revenue_deferral_months plan)%Z.
      * destruct Hd as (head & Happ & _).
        apply (f_equal (@List.length _)) in Happ.
        rewrite length_app in Happ. simpl in Happ. lia.
      * destruct Hd as [_ ->]. reflexivity.
    + rewrite Hl, Hlines, length_app. simpl. lia.
Qed.

(** X16. [_compute_revenue] keeps the dictionary of plan states in shape:
    the same plan names in the same order, each queue of deferred revenue
    as long as before (a plan that defers pushes one amount and pops one);
    and it computes one line per plan. *)
Theorem compute_revenue_keeps_queues (month_index : Z) (revenue_model : RevenueModel.t)
  (plan_states plan_states' : sdict PlanState.t) (summary : RevenueSummary.t)
  (lines : list PlanLine.t) :
  _compute_revenue month_index revenue_model plan_states
  = Ok (summary, plan_states', lines) ->
  queue_lengths plan_states' = queue_lengths plan_states
  /\ List.length lines = List.length (RevenueModel.plans revenue_model).
Proof.
  unfold _compute_revenue. intro H. inv_bind H. injection H as <- <- <-.
  apply revenue_bodies_queue_lengths in E. exact E.
Qed.

Lemma compute_revenue_keeps_queues_witness :
  exists summary plan_states' lines,
    _compute_revenue 0
      (revenue_of [subscription_plan "saas" (fl 100) (fl 1000) 0 3])
      [("saas"%string, PlanState.mk (fl 100) [0; 0; 0])]
    = Ok (summary, plan_states', lines)
    /\ queue_lengths plan_states' = [("saas"%string, 3%nat)].
Proof.
  assert (H : exists summary plan_states' lines,
             _compute_revenue 0
               (revenue_of [subscription_plan "saas" (fl 100) (fl 1000) 0 3])
               [("saas"%string, PlanState.mk (fl 100) [0; 0; 0])]
             = Ok (summary, plan_states', lines))
    by (vm_compute; do 3 eexists; reflexivity).
  destruct H as (summary & plan_states' & lines & H).
  exists summary, plan_states', lines. split; [exact H|].
  exact (proj1 (compute_revenue_keeps_queues _ _ _ _ _ _ H)).
Defined.

(** A plan loop leaves the state of a name that none of its plans has. *)
Lemma bodies_keep_other_state (month_index : Z) (name : string)
  (plans : list RevenuePlan.t) :
  Forall (fun q => RevenuePlan.name q <> name) plans ->
  forall acc acc',
    for_each (revenue_plan_body month_index) plans acc = Ok acc' ->
    sget name (acc_plan_states acc') = sget name (acc_plan_states acc)
    /\ exists lines,
         acc_lines acc' = acc_lines acc ++ lines
         /\ List.length lines = List.length plans.
Proof.
  induction 1 as [|q plans Hq _ IH]; intros acc acc' H.
  - injection H as <-. split; [reflexivity|]. exists []. now rewrite app_nil_r.
  - simpl in H. inv_bind H. destruct (IH _ _ H) as (Hs & lines & Hl & Hlen).
    apply revenue_plan_body_inv in E.
    destruct E as (state & line & active' & deferred' & _ & Hst & Hlines & _).
    split.
    + rewrite Hs, Hst. apply sget_sset_other. congruence.
    + exists (line :: lines). rewrite Hl, Hlines, <- app_assoc. simpl.
      now rewrite Hlen.
Qed.

(** One call of [_compute_revenue], seen from a plan that defers and
    whose name no other plan shares: it pushes its gross revenue and
    recognizes the head of the queue, divided by the number of months. *)
Lemma compute_revenue_queue (month_index : Z) (revenue_model : RevenueModel.t)
  (before after : list RevenuePlan.t) (plan : RevenuePlan.t)
  (plan_states plan_states' : sdict PlanState.t) (state : PlanState.t)
  (summary : RevenueSummary.t) (lines : list PlanLine.t) :
  RevenueModel.plans revenue_model = before ++ plan :: after ->
  Forall (fun q => RevenuePlan.name q <> RevenuePlan.name plan) (before ++ after) ->
  (0 < RevenuePlan.revenue_deferral_months plan)%Z ->
  sget (RevenuePlan.name plan) plan_states = Some state ->
  _compute_revenue month_index revenue_model plan_states
  = Ok (summary, plan_states', lines) ->
  exists line state' head,
    nth_error lines (List.length before) = Some line
    /\ sget (RevenuePlan.name plan) plan_states' = Some state'
    /\ PlanState.deferred_revenue state ++ [PlanLine.gross_revenue line]
       = head :: PlanState.deferred_revenue state'
    /\ PlanLine.recognized line
       = head / float_of_int (RevenuePlan.revenue_deferral_months plan).
Proof.
  intros Hplans Hnames Hk Hget H. unfold _compute_revenue in H. rewrite Hplans in H.
  apply Forall_app in Hnames. destruct Hnames as [Hbefore Hafter].
  inv_bind H. injection H as <- <- <-.
  apply for_each_app in E. destruct E as (mid & E1 & E2).
  simpl in E2. inv_bind E2.
  destruct (bodies_keep_other_state _ _ _ Hbefore
              (mkRevenueAcc 0 0 0 0 0 plan_states []) _ E1) as (Hs1 & lines1 & Hl1 & Hlen1).
  cbn [acc_plan_states acc_lines app] in Hs1, Hl1.
  apply revenue_plan_body_inv in E.
  destruct E as (state1 & line & active' & deferred' & Hget1 & Hst & Hlines & _ & _ & Hd).
  rewrite Hs1, Hget in Hget1. injection Hget1 as <-.
  destruct (bodies_keep_other_state _ _ _ Hafter _ _ E2) as (Hs3 & lines3 & Hl3 & _).
  pose proof Hk as Hk'. apply Z.ltb_lt in Hk'. rewrite Hk' in Hd.
  destruct Hd as (head & Happ & Hrec).
  exists line, (PlanState.mk active' deferred'), head.
  split; [|split; [|split]].
  - rewrite Hl3, Hlines, Hl1, <- app_assoc, nth_error_app2 by lia.
    now rewrite Hlen1, Nat.sub_diag.
  - rewrite Hs3, Hst. apply sget_sset_same.
  - exact Happ.
  - rewrite Hrec. now rewrite Z.max_r by lia.
Qed.

Section QueueSide.
Variable fpow : Qc -> Qc -> Qc.
Variable scenario : ScenarioInput.t.
Variable hiring_lookup : list (Z * list HiringPlan.t).
Variable capex_schedule : list (Z * CapexItem.t).

(** Over the loop, the amount recognized in the [j]-th month is the
    [j]-th entry of the queue at the start followed by the gross revenue
    of the months. *)
Lemma run_loop_queue (before after : list RevenuePlan.t) (plan : RevenuePlan.t) :
  RevenueModel.plans (ScenarioInput.revenue scenario) = before ++ plan :: after ->
  Forall (fun q => RevenuePlan.name q <> RevenuePlan.name plan) (before ++ after) ->
  (0 < RevenuePlan.revenue_deferral_months plan)%Z ->
  forall month_indices st final months state,
    run_loop fpow scenario hiring_lookup capex_schedule month_indices st
    = Ok (final, months) ->
    sget (RevenuePlan.name plan) (st_plan_states st) = Some state ->
    exists plan_lines,
      Forall2 (fun pm line =>
                 nth_error (tr_plan_lines (snd pm)) (List.length before) = Some line)
        months plan_lines
      /\ forall j line,
           nth_error plan_lines j = Some line ->
           PlanLine.recognized line
           = nth j (PlanState.deferred_revenue state
                    ++ map PlanLine.gross_revenue plan_lines) 0
             / float_of_int (RevenuePlan.revenue_deferral_months plan).
Proof.
  intros Hplans Hnames Hk.
  induction month_indices as [|mi rest IH]; intros st final months state H Hget.
  - injection H as <- <-. exists []. split; [constructor|].
    intros j line Hj. destruct j; discriminate.
  - simpl in H. inv_bind H. destruct v as [[st' p] t].
    inv_bind H. destruct v as [final' later]. injection H as <- <-.
    apply month_body_revenue in E.
    destruct (compute_revenue_queue _ _ _ _ _ _ _ _ _ _ Hplans Hnames Hk Hget E)
      as (line & state' & head & Hline & Hget' & Happ & Hrec).
    destruct (IH _ _ _ _ E0 Hget') as (plan_lines & Hall & Hrecs).
    exists (line :: plan_lines). split; [constructor; assumption|].
    intros j l Hj. cbn [map].
    replace (PlanState.deferred_revenue state
             ++ PlanLine.gross_revenue line :: map PlanLine.gross_revenue plan_lines)
      with (head :: PlanState.deferred_revenue state'
                    ++ map PlanLine.gross_revenue plan_lines).
    + destruct j as [|j].
      * injection Hj as <-. exact Hrec.
      * cbn [nth]. exact (Hrecs j l Hj).
    + change (head :: PlanState.deferred_revenue state'
                      ++ map PlanLine.gross_revenue plan_lines)
        with ((head :: PlanState.deferred_revenue state')
              ++ map PlanLine.gross_revenue plan_lines).
      rewrite <- Happ, <- app_assoc. reflexivity.
Qed.

End QueueSide.

Lemma init_plan_states_queue (before after : list RevenuePlan.t) (plan : RevenuePlan.t) :
  Forall (fun q => RevenuePlan.name q <> RevenuePlan.name plan) (before ++ after) ->
  sget (RevenuePlan.name plan) (init_plan_states (before ++ plan :: after))
  = Some (PlanState.mk (RevenuePlan.initial_customers plan)
            (repeat 0 (Z.to_nat (RevenuePlan.revenue_deferral_months plan)))).
Proof.
  intro Hnames. apply Forall_app in Hnames. destruct Hnames as [_ Hafter].
  unfold init_plan_states. rewrite fold_left_app. cbn [fold_left].
  rewrite sget_fold_others by exact Hafter. apply sget_sset_same.
Qed.

Lemma Forall2_nth_error {A B : Type} (R : A -> B -> Prop) (xs : list A) (ys : list B) :
  Forall2 R xs ys ->
  forall i x, nth_error xs i = Some x -> exists y, nth_error ys i = Some y /\ R x y.
Proof.
  induction 1 as [|x0 y0 xs ys Hr _ IH]; intros i x Hi.
  - destruct i; discriminate.
  - destruct i as [|i].
    + injection Hi as <-. exists y0. split; [reflexivity | exact Hr].
    + exact (IH i x Hi).
Qed.

(** X17. Deferred revenue is recognized [k] months late and divided by
    [k]: for a plan with [revenue_deferral_months = k > 0] whose name no
    other plan shares, the amount recognized in a month [m >= k] is the
    gross revenue of the plan in month [m - k], divided by [k]. *)
Theorem run_deferred_recognition (fpow : Qc -> Qc -> Qc) (scenario : ScenarioInput.t)
  (before after : list RevenuePlan.t) (plan : RevenuePlan.t) (final : LoopState)
  (months : list (MonthlyProjection.t * MonthTrace)) (m k : nat)
  (earlier later : MonthlyProjection.t * MonthTrace) (pushed popped : PlanLine.t) :
  RevenueModel.plans (ScenarioInput.revenue scenario) = before ++ plan :: after ->
  Forall (fun q => RevenuePlan.name q <> RevenuePlan.name plan) (before ++ after) ->
  RevenuePlan.revenue_deferral_months plan = Z.of_nat k ->
  (0 < k <= m)%nat ->
  run_months fpow scenario = Ok (final, months) ->
  nth_error months (m - k) = Some earlier ->
  nth_error months m = Some later ->
  nth_error (tr_plan_lines (snd earlier)) (List.length before) = Some pushed ->
  nth_error (tr_plan_lines (snd later)) (List.length before) = Some popped ->
  PlanLine.recognized popped = PlanLine.gross_revenue pushed / float_of_int (Z.of_nat k).
Proof.
  intros Hplans Hnames Hk Hm H Hearlier Hlater Hpushed Hpopped.
  unfold run_months in H.
  assert (Hget : sget (RevenuePlan.name plan) (st_plan_states (init_state scenario))
                 = Some (PlanState.mk (RevenuePlan.initial_customers plan)
                           (repeat 0 (Z.to_nat (RevenuePlan.revenue_deferral_months plan))))).
  { cbn [st_plan_states init_state]. rewrite Hplans. now apply init_plan_states_queue. }
  destruct (run_loop_queue _ _ _ _ _ _ _ Hplans Hnames ltac:(lia) _ _ _ _ _ H Hget)
    as (plan_lines & Hall & Hrecs).
  destruct (Forall2_nth_error _ _ _ Hall _ _ Hlater) as (l1 & Hl1 & Hl1').
  destruct (Forall2_nth_error _ _ _ Hall _ _ Hearlier) as (l0 & Hl0 & Hl0').
  rewrite Hpopped in Hl1'. injection Hl1' as <-.
  rewrite Hpushed in Hl0'. injection Hl0' as <-.
  rewrite (Hrecs _ _ Hl1). cbn [PlanState.deferred_revenue].
  rewrite Hk, Nat2Z.id. f_equal.
  rewrite app_nth2 by (rewrite repeat_length; lia). rewrite repeat_length.
  apply nth_error_nth. rewrite nth_error_map, Hl0. reflexivity.
Qed.

Lemma run_deferred_recognition_witness :
  exists final months earlier later pushed popped,
    run_months fpow_example (scenario_S2 6) = Ok (final, months)
    /\ nth_error months 1 = Some earlier
    /\ nth_error months 4 = Some later
    /\ nth_error (tr_plan_lines (snd earlier)) 0 = Some pushed
    /\ nth_error (tr_plan_lines (snd later)) 0 = Some popped
    /\ PlanLine.recognized popped = PlanLine.gross_revenue pushed / float_of_int 3.
Proof.
  assert (H : exists final months earlier later pushed popped,
             run_months fpow_example (scenario_S2 6) = Ok (final, months)
             /\ nth_error months 1 = Some earlier
             /\ nth_error months 4 = Some later
             /\ nth_error (tr_plan_lines (snd earlier)) 0 = Some pushed
             /\ nth_error (tr_plan_lines (snd later)) 0 = Some popped)
    by (vm_compute; do 6 eexists; repeat split; reflexivity).
  destruct H as (final & months & earlier & later & pushed & popped
                 & H & He & Hl & Hpu & Hpo).
  exists final, months, earlier, later, pushed, popped.
  repeat (split; [assumption|]).
  exact (run_deferred_recognition fpow_example (scenario_S2 6) [] []
           (subscription_plan "saas" (fl 100) (fl 1000) (fl (1 # 10)) 3)
           final months 4 3 earlier later pushed popped
           eq_refl (Forall_nil _) eq_refl ltac:(lia) H He Hl Hpu Hpo).
Defined.

(* ------------------------------------------------------------------ *)
(** ** Cost and payroll breakdowns *)

Lemma fold_left_Qcplus_acc (xs : list Qc) (a : Qc) :
  fold_left Qcplus xs a = a + py_sum xs.
Proof.
  unfold py_sum. revert a. induction xs as [|x xs IH]; intro a; simpl.
  - ring.
  - rewrite (IH (a + x)), (IH (0 + x)). ring.
Qed.

Lemma py_sum_cons (x : Qc) (xs : list Qc) : py_sum (x :: xs) = x + py_sum xs.
Proof.
  unfold py_sum at 1. simpl. rewrite fold_left_Qcplus_acc. ring.
Qed.

Section DictSum.
Context {K V : Type} (eqb : K -> K -> bool).

(** Adding [a] to one counter of the entry under [k] adds [a] to the sum
    of that counter over the dictionary. *)
Lemma dict_update_sum (counter : V -> Qc) (dflt : V) (k : K) (v' : V) (a : Qc)
  (d : list (K * V)) :
  counter dflt = 0 ->
  counter v' = counter (dict_get_default eqb k dflt d) + a ->
  py_sum (map (fun entry => counter (snd entry)) (dict_set eqb k v' d))
  = py_sum (map (fun entry => counter (snd entry)) d) + a.
Proof.
  intros Hdflt. unfold dict_get_default.
  induction d as [|[k0 v0] d IH]; simpl; intro Hv.
  - rewrite py_sum_cons, Hv, Hdflt. ring.
  - destruct (eqb k k0); simpl; rewrite !py_sum_cons; simpl.
    + rewrite Hv. ring.
    + rewrite (IH Hv). ring.
Qed.

Lemma dict_update_Forall (P : V -> Prop) (k : K) (v' : V) (d : list (K * V)) :
  P v' -> Forall (fun entry => P (snd entry)) d ->
  Forall (fun entry => P (snd entry)) (dict_set eqb k v' d).
Proof.
  intros Hv. induction 1 as [|[k0 v0] d H0 Hd IH]; simpl.
  - constructor; [exact Hv | constructor].
  - destruct (eqb k k0); constructor; assumption.
Qed.

Hypothesis eqb_eq : forall a b, eqb a b = true <-> a = b.

Lemma dict_set_keys_In (k x : K) (v : V) (d : list (K * V)) :
  In x (map fst (dict_set eqb k v d)) -> x = k \/ In x (map fst d).
Proof.
  induction d as [|[k0 v0] d IH]; simpl.
  - intros [<-|[]]. now left.
  - destruct (eqb k k0); simpl.
    + intros [<-|H]; right; [now left | now right].
    + intros [<-|H]; [right; now left|].
      destruct (IH H) as [->|H']; [now left | right; now right].
Qed.

Lemma dict_set_keys_NoDup (k : K) (v : V) (d : list (K * V)) :
  NoDup (map fst d) -> NoDup (map fst (dict_set eqb k v d)).
Proof.
  induction d as [|[k0 v0] d IH]; simpl; intro H.
  - constructor; [intros [] | constructor].
  - inversion H as [|? ? Hnot Hd]; subst.
    destruct (eqb k k0) eqn:E; simpl.
    + constructor; assumption.
    + constructor; [|exact (IH Hd)].
      intro Hin. apply dict_set_keys_In in Hin. destruct Hin as [->|Hin].
      * assert (eqb k k = true) by now apply eqb_eq. congruence.
      * contradiction.
Qed.

End DictSum.

Lemma CostCenter_eqb_eq (a b : CostCenter) : CostCenter_eqb a b = true <-> a = b.
Proof. destruct a, b; simpl; split; congruence. Qed.

(** What the two loops of [_compute_costs] keep: the amounts by cost
    center add up to the two totals, and no cost center comes twice. *)
Definition costs_balanced (acc : list (CostCenter * Qc) * Qc * Qc) : Prop :=
  let '(breakdown, cogs_total, opex_total) := acc in
  py_sum (map (fun entry => snd entry) breakdown) = cogs_total + opex_total
  /\ NoDup (map fst breakdown).

Lemma add_cost_balanced (allocation : CostAllocation) (center : CostCenter) (amount : Qc)
  (acc : list (CostCenter * Qc) * Qc * Qc) :
  costs_balanced acc -> costs_balanced (add_cost allocation center amount acc).
Proof.
  destruct acc as [[breakdown cogs_total] opex_total]. intros [Hsum Hkeys].
  unfold add_cost.
  assert (Hsum' :
    py_sum (map (fun entry => snd entry)
              (dict_set CostCenter_eqb center
                 (dict_get_default CostCenter_eqb center 0 breakdown + amount) breakdown))
    = cogs_total + opex_total + amount).
  { rewrite (dict_update_sum CostCenter_eqb (fun v => v) 0 center _ amount)
      by reflexivity.
    now rewrite Hsum. }
  pose proof (dict_set_keys_NoDup CostCenter_eqb CostCenter_eqb_eq center
                (dict_get_default CostCenter_eqb center 0 breakdown + amount)
                breakdown Hkeys) as Hkeys'.
  destruct allocation; (split; [rewrite Hsum'; ring | exact Hkeys']).
Qed.

Section CostSide.
Variable fpow : Qc -> Qc -> Qc.

Lemma cost_items_balanced (month_index : Z) (revenue_summary : RevenueSummary.t)
  (items : list CostItem.t) :
  forall acc, costs_balanced acc ->
    costs_balanced (fold_left (cost_item_body fpow month_index revenue_summary) items acc).
Proof.
  induction items as [|item items IH]; intros acc Hacc; [exact Hacc|].
  simpl. apply IH. unfold cost_item_body. now apply add_cost_balanced.
Qed.

Lemma contracts_balanced (month_index : Z) (contracts : list SupplierContract.t) :
  forall acc acc', costs_balanced acc ->
    for_each (contract_body month_index) contracts acc = Ok acc' ->
    costs_balanced acc'.
Proof.
  induction contracts as [|contract contracts IH]; intros acc acc' Hacc H.
  - injection H as <-. exact Hacc.
  - simpl in H. inv_bind H. apply (IH v acc'); [|exact H].
    unfold contract_body in E.
    destruct (month_index <? SupplierContract.start_month contract)%Z.
    + injection E as <-. exact Hacc.
    + inv_bind E. inv_bind E. injection E as <-. now apply add_cost_balanced.
Qed.

Lemma contracts_return (month_index : Z) (contracts : list SupplierContract.t) :
  Forall (fun contract =>
            (SupplierContract.start_month contract <= month_index)%Z ->
            SupplierContract.escalation_frequency_months contract <> 0%Z) contracts ->
  forall acc, exists acc', for_each (contract_body month_index) contracts acc = Ok acc'.
Proof.
  induction 1 as [|contract contracts Hc _ IH]; intro acc.
  - exists acc. reflexivity.
  - simpl.
    assert (Hbody : exists v, contract_body month_index acc contract = Ok v).
    { unfold contract_body, py_floordiv, py_pow_int.
      destruct (month_index <? SupplierContract.start_month contract)%Z eqn:E.
      - eexists. reflexivity.
      - apply Z.ltb_ge in E. apply Hc in E. apply Z.eqb_neq in E. rewrite E.
        cbn [bind].
        replace (Z.max 0 _ <? 0)%Z with false by (symmetry; apply Z.ltb_ge; lia).
        eexists. reflexivity. }
    destruct Hbody as [v ->]. cbn [bind]. apply IH.
Qed.

Lemma contracts_raise (month_index : Z) (contracts : list SupplierContract.t) :
  Exists (fun contract =>
            (SupplierContract.start_month contract <= month_index)%Z
            /\ SupplierContract.escalation_frequency_months contract = 0%Z) contracts ->
  forall acc, for_each (contract_body month_index) contracts acc = Raise ZeroDivisionError.
Proof.
  induction contracts as [|contract contracts IH]; intros Hex acc.
  - inversion Hex.
  - simpl.
    destruct (Z_lt_dec month_index (SupplierContract.start_month contract)) as [Hlt|Hge].
    + unfold contract_body at 1. apply Z.ltb_lt in Hlt. rewrite Hlt. cbn [bind].
      apply IH. inversion Hex as [? ? [Hs _]|]; subst; [|assumption].
      apply Z.ltb_lt in Hlt. lia.
    + destruct (Z.eq_dec (SupplierContract.escalation_frequency_months contract) 0)
        as [Hz|Hnz].
      * unfold contract_body at 1, py_floordiv.
        replace (month_index <? _)%Z with false by (symmetry; apply Z.ltb_ge; lia).
        rewrite Hz. reflexivity.
      * destruct (contracts_return month_index [contract]
                    ltac:(constructor; [intros _; exact Hnz | constructor]) acc)
          as [v Hv].
        simpl in Hv. destruct (contract_body month_index acc contract) as [v'|]
          eqn:E; [|discriminate].
        cbn [bind]. apply IH. inversion Hex as [? ? [_ Hz]|]; subst; [contradiction|].
        assumption.
Qed.



End CostSide.

Definition hosting_contract : SupplierContract.t :=
  SupplierContract.mk "hosting" 2 (fl 500) (fl (1 # 10)) 3 COGS ENGINEERING.

Definition audit_fee : CostItem.t :=
  CostItem.mk "audit" FIXED OPEX GNA (fl 250) 0 "revenue"
    (PriceAdjustment.mk None 0) (schedule_const 1).


(* ------------------------------------------------------------------ *)
(** ** Payroll *)

Section PayrollSide.
Variable fpow : Qc -> Qc -> Qc.

Lemma apply_hire_returns (hire : HiringPlan.t) (states : sdict HeadcountState.t)
  (state : HeadcountState.t) :
  sget (HiringPlan.role hire) states = Some state ->
  exists states', apply_hire hire states = Ok states'.
Proof.
  intro H. unfold apply_hire. rewrite H. eexists. reflexivity.
Qed.

Lemma hire_body_returns (headcount_model : HeadcountModel.t)
  (states : sdict HeadcountState.t) (hire : HiringPlan.t) :
  exists states', hire_body headcount_model states hire = Ok states'.
Proof.
  unfold hire_body. destruct (sget (HiringPlan.role hire) states) as [state|] eqn:E.
  - exact (apply_hire_returns _ _ _ E).
  - destruct (find _ _) as [matching|].
    + eapply apply_hire_returns. apply sget_sset_same.
    + eexists. reflexivity.
Qed.

Lemma hires_return (headcount_model : HeadcountModel.t) (hires : list HiringPlan.t) :
  forall states, exists states',
    for_each (hire_body headcount_model) hires states = Ok states'.
Proof.
  induction hires as [|hire hires IH]; intro states.
  - exists states. reflexivity.
  - simpl. destruct (hire_body_returns headcount_model states hire) as [v ->].
    cbn [bind]. apply IH.
Qed.

(** What the payroll loop keeps: the payroll total is the sum of the
    totals by area, each area's total is the sum of its three parts, no
    area comes twice, and the states keep their names in their order. *)
Definition payroll_balanced (before : list string)
  (acc : sdict HeadcountState.t * Qc * sdict AreaMetrics) : Prop :=
  let '(states, payroll_total, area_totals) := acc in
  map fst states = before
  /\ payroll_total = py_sum (map (fun entry => m_total (snd entry)) area_totals)
  /\ Forall (fun entry =>
               m_total (snd entry)
               = m_salaries (snd entry) + m_benefits (snd entry)
                 + m_subscriptions (snd entry)) area_totals
  /\ NoDup (map fst area_totals).

Lemma String_eqb_eq (a b : string) : String.eqb a b = true <-> a = b.
Proof. apply String.eqb_eq. Qed.

Lemma payroll_body_balanced (month_index : Z) (attrition_rate : Qc)
  (before : list string) (acc : sdict HeadcountState.t * Qc * sdict AreaMetrics)
  (entry : string * HeadcountState.t) :
  payroll_balanced before acc ->
  payroll_balanced (before ++ [fst entry])
    (payroll_body fpow month_index attrition_rate acc entry).
Proof.
  destruct acc as [[states payroll_total] area_totals], entry as [role state].
  intros (Hnames & Hsum & Hparts & Hkeys). unfold payroll_body.
  destruct (Qcleb (HeadcountState.fte state) 0).
  - repeat split; try assumption. rewrite map_app, Hnames. reflexivity.
  - cbv zeta. split; [|split; [|split]].
    + rewrite map_app, Hnames. reflexivity.
    + unfold sset.
      erewrite (dict_update_sum String.eqb m_total (mkAreaMetrics 0 0 0 0 0));
        [rewrite <- Hsum; reflexivity | reflexivity | reflexivity].
    + unfold sset. apply (dict_update_Forall String.eqb
        (fun v => m_total v = m_salaries v + m_benefits v + m_subscriptions v));
        [|exact Hparts].
      cbn [m_total m_salaries m_benefits m_subscriptions].
      unfold dict_get_default.
      destruct (dict_get String.eqb _ area_totals) as [metrics|] eqn:E.
      * assert (Hm : m_total metrics
                     = m_salaries metrics + m_benefits metrics + m_subscriptions metrics).
        { clear - E Hparts. induction area_totals as [|[k0 v0] d IH];
            [discriminate|].
          simpl in E. inversion Hparts; subst.
          destruct (String.eqb _ k0); [injection E as <-; assumption | now apply IH]. }
        rewrite Hm. ring.
      * cbn [m_total m_salaries m_benefits m_subscriptions]. ring.
    + unfold sset. now apply dict_set_keys_NoDup; [apply String_eqb_eq|].
Qed.

Lemma payroll_loop_balanced (month_index : Z) (attrition_rate : Qc)
  (entries : sdict HeadcountState.t) :
  forall before acc, payroll_balanced before acc ->
    payroll_balanced (before ++ map fst entries)
      (fold_left (payroll_body fpow month_index attrition_rate) entries acc).
Proof.
  induction entries as [|entry entries IH]; intros before acc Hacc.
  - simpl. now rewrite app_nil_r.
  - simpl.
    replace (before ++ fst entry :: map fst entries)
      with ((before ++ [fst entry]) ++ map fst entries)
      by (rewrite <- app_assoc; reflexivity).
    apply IH. now apply payroll_body_balanced.
Qed.


End PayrollSide.

(* ------------------------------------------------------------------ *)
(** ** The record layer: construction, [copy] and [model_dump] *)

Lemma sget_None_iff {V : Type} (k : string) (d : sdict V) :
  sget k d = None <-> ~ In k (map fst d).
Proof.
  unfold sget. induction d as [|[k0 v0] d IH]; simpl.
  - tauto.
  - destruct (String.eqb k k0) eqn:E.
    + apply String.eqb_eq in E. subst k0. split; [discriminate | tauto].
    + apply String.eqb_neq in E. rewrite IH. split.
      * intros H [H'|H']; [congruence | tauto].
      * tauto.
Qed.

(** [for key, value in entries: acc[key] = value] *)
Lemma sget_set_all {V : Type} (k : string) (entries : sdict V) :
  NoDup (map fst entries) ->
  forall acc,
    sget k (fold_left (fun acc kv => sset (fst kv) (snd kv) acc) entries acc)
    = match sget k entries with Some v => Some v | None => sget k acc end.
Proof.
  induction entries as [|[k0 v0] entries IH]; intros Hkeys acc; [reflexivity|].
  simpl in Hkeys. inversion Hkeys as [|? ? Hnot Hrest]; subst.
  cbn [fold_left fst snd]. rewrite (IH Hrest).
  unfold sget at 3. cbn [dict_get]. fold (@sget V).
  destruct (String.eqb k k0) eqn:E.
  - apply String.eqb_eq in E. subst k0.
    apply sget_None_iff in Hnot. rewrite Hnot. apply sget_sset_same.
  - apply String.eqb_neq in E. now rewrite (sget_sset_other _ _ _ _ E).
Qed.

Lemma set_all_keys_NoDup {V : Type} (entries : sdict V) :
  forall acc, NoDup (map fst acc) ->
    NoDup (map fst (fold_left (fun acc kv => sset (fst kv) (snd kv) acc) entries acc)).
Proof.
  induction entries as [|[k0 v0] entries IH]; intros acc Hacc; [exact Hacc|].
  cbn [fold_left fst snd]. apply IH. unfold sset.
  now apply dict_set_keys_NoDup; [apply String_eqb_eq|].
Qed.

Lemma keys_filter_NoDup {V : Type} (keep : string * V -> bool) (d : sdict V) :
  NoDup (map fst d) -> NoDup (map fst (filter keep d)).
Proof.
  induction d as [|[k0 v0] d IH]; simpl; intro H; [constructor|].
  inversion H as [|? ? Hnot Hrest]; subst.
  destruct (keep (k0, v0)); [|now apply IH].
  simpl. constructor; [|now apply IH].
  intro Hin. apply Hnot. apply in_map_iff in Hin. destruct Hin as ([k v] & <- & Hin).
  apply filter_In in Hin. apply in_map_iff. exists (k, v). tauto.
Qed.

Section RecordLayer.
Context {V : Type}.

(** The value [__init__] gives a field: the given one, else the default,
    else the value of the factory. *)
Definition field_value (data : sdict V) (name : string) (info : Pydantic.FieldInfo V)
  : option V :=
  match sget name data with
  | Some v => Some v
  | None =>
      match Pydantic.default info with
      | Some v => Some v
      | None => Pydantic.default_factory info
      end
  end.

Definition unprovided (data : sdict V) (field : string * Pydantic.FieldInfo V) : bool :=
  match field_value data (fst field) (snd field) with
  | Some _ => false
  | None => true
  end.

(** [{name: getattr(self, name) for name in self._field_infos.keys()}];
    [None] stands for the [AttributeError] of an object that lacks one
    of them, which no constructed object does. *)
Fixpoint BaseModel_model_dump (infos : list (string * Pydantic.FieldInfo V))
  (attrs : sdict V) : option (sdict V) :=
  match infos with
  | [] => Some []
  | (name, _) :: rest =>
      match sget name attrs, BaseModel_model_dump rest attrs with
      | Some v, Some vs => Some ((name, v) :: vs)
      | _, _ => None
      end
  end.

(** [copy(update=...)]: the declared fields of the object, overwritten
    by a non-empty [update], go through [__init__] again. *)
Definition BaseModel_copy (cls : string) (infos : list (string * Pydantic.FieldInfo V))
  (attrs : sdict V) (update : option (sdict V)) : option (result (sdict V)) :=
  match BaseModel_model_dump infos attrs with
  | None => None
  | Some values =>
      let values :=
        match update with
        | Some ((_ :: _) as update) =>
            fold_left (fun acc kv => sset (fst kv) (snd kv) acc) update values
        | _ => values
        end in
      Some (Pydantic.BaseModel_init cls infos values)
  end.

Lemma collect_cons (cls name : string) (info : Pydantic.FieldInfo V)
  (infos : list (string * Pydantic.FieldInfo V)) (data : sdict V) :
  Pydantic.collect cls ((name, info) :: infos) data
  = match field_value data name info with
    | Some v => vs <- Pydantic.collect cls infos data ;; Ok ((name, v) :: vs)
    | None => Raise (ValidationError ("Field '" ++ name ++ "' is required for " ++ cls))
    end.
Proof.
  simpl. unfold field_value.
  destruct (sget name data), (Pydantic.default info), (Pydantic.default_factory info);
    reflexivity.
Qed.

Lemma collect_spec (cls : string) (infos : list (string * Pydantic.FieldInfo V))
  (data : sdict V) :
  match find (unprovided data) infos with
  | Some field =>
      Pydantic.collect cls infos data
      = Raise (ValidationError ("Field '" ++ fst field ++ "' is required for " ++ cls))
  | None =>
      exists values,
        Pydantic.collect cls infos data = Ok values
        /\ forall k,
             sget k values
             = match sget k infos with
               | Some info => field_value data k info
               | None => None
               end
  end.
Proof.
  induction infos as [|[name info] infos IH].
  - exists []. split; reflexivity.
  - rewrite collect_cons. cbn [find]. unfold unprovided at 1. cbn [fst snd].
    destruct (field_value data name info) as [v|] eqn:Ev; [|reflexivity].
    destruct (find (unprovided data) infos) as [field|].
    + rewrite IH. reflexivity.
    + destruct IH as (values & -> & Hvalues). exists ((name, v) :: values).
      split; [reflexivity|]. intro k. unfold sget at 1 2. cbn [dict_get].
      fold (@sget V) (@sget (Pydantic.FieldInfo V)).
      destruct (String.eqb k name) eqn:E.
      * apply String.eqb_eq in E. subst k. now rewrite Ev.
      * apply Hvalues.
Qed.

Lemma sget_extras (infos : list (string * Pydantic.FieldInfo V)) (data : sdict V)
  (k : string) :
  sget k (filter (fun kv => match sget (fst kv) infos with
                            | Some _ => false | None => true end) data)
  = match sget k infos with Some _ => None | None => sget k data end.
Proof.
  induction data as [|[k0 v0] data IH]; cbn [filter fst].
  - now destruct (sget k infos).
  - destruct (String.eqb k k0) eqn:E.
    + apply String.eqb_eq in E. subst k0.
      destruct (sget k infos) eqn:Ek.
      * exact IH.
      * unfold sget. cbn [dict_get]. now rewrite String.eqb_refl.
    + assert (Hskip : forall rest : sdict V, sget k ((k0, v0) :: rest) = sget k rest).
      { intro rest. unfold sget. cbn [dict_get]. now rewrite E. }
      rewrite Hskip. destruct (sget k0 infos); [exact IH|].
      rewrite Hskip. exact IH.
Qed.

Lemma init_returns (cls : string)
  (infos : list (string * Pydantic.FieldInfo V)) (data : sdict V) :
  find (unprovided data) infos = None ->
  exists attrs, Pydantic.BaseModel_init cls infos data = Ok attrs.
Proof.
  intro Hfind. unfold Pydantic.BaseModel_init.
  pose proof (collect_spec cls infos data) as H. rewrite Hfind in H.
  destruct H as (values & -> & _). eexists. reflexivity.
Qed.

Lemma init_succeeded (cls : string)
  (infos : list (string * Pydantic.FieldInfo V)) (data attrs : sdict V) :
  Pydantic.BaseModel_init cls infos data = Ok attrs ->
  find (unprovided data) infos = None.
Proof.
  intro H. unfold Pydantic.BaseModel_init in H.
  pose proof (collect_spec cls infos data) as Hc.
  destruct (find (unprovided data) infos) as [field|]; [|reflexivity].
  rewrite Hc in H. discriminate.
Qed.

Lemma provided_fields (infos : list (string * Pydantic.FieldInfo V)) (data : sdict V) :
  find (unprovided data) infos = None ->
  forall k info, sget k infos = Some info -> field_value data k info <> None.
Proof.
  intros Hfind k. induction infos as [|[name info0] infos IH]; [discriminate|].
  intros info. unfold sget. cbn [dict_get]. fold (@sget (Pydantic.FieldInfo V)).
  cbn [find] in Hfind. unfold unprovided at 1 in Hfind. cbn [fst snd] in Hfind.
  destruct (field_value data name info0) eqn:Ev; [|discriminate].
  destruct (String.eqb k name) eqn:E.
  - apply String.eqb_eq in E. subst k. intro Hi. injection Hi as <-. congruence.
  - apply IH. exact Hfind.
Qed.

(** The attributes [__init__] sets, key by key. *)
Lemma init_attributes (cls : string)
  (infos : list (string * Pydantic.FieldInfo V)) (data attrs : sdict V) :
  NoDup (map fst data) ->
  Pydantic.BaseModel_init cls infos data = Ok attrs ->
  forall k,
    sget k attrs
    = match sget k infos with
      | Some info => field_value data k info
      | None => sget k data
      end.
Proof.
  intros Hdata H k. unfold Pydantic.BaseModel_init in H.
  pose proof (collect_spec cls infos data) as Hc.
  destruct (find (unprovided data) infos) as [field|] eqn:Hfind.
  - rewrite Hc in H. discriminate.
  - destruct Hc as (values & Hc & Hvalues). rewrite Hc in H. cbn [bind] in H.
    injection H as <-.
    rewrite sget_set_all by (apply keys_filter_NoDup; exact Hdata).
    rewrite sget_extras, Hvalues.
    destruct (sget k infos) as [info|] eqn:Ek; [reflexivity|].
    now destruct (sget k data).
Qed.

Lemma init_fields_set (cls : string)
  (infos : list (string * Pydantic.FieldInfo V)) (data attrs : sdict V) :
  NoDup (map fst data) ->
  Pydantic.BaseModel_init cls infos data = Ok attrs ->
  forall k, sget k infos <> None -> sget k attrs <> None.
Proof.
  intros Hdata H k Hk. rewrite (init_attributes cls infos data attrs Hdata H k).
  destruct (sget k infos) as [info|] eqn:Ek; [|congruence].
  exact (provided_fields infos data (init_succeeded cls infos data attrs H) k info Ek).
Qed.


(** X22. The attributes of a constructed object.  A declared field holds
    the given value, else its default, else the value of its factory; a
    key of the data that is no declared field is kept as an attribute
    with its value; the object has no other attribute. *)
Theorem BaseModel_init_values (cls : string)
  (infos : list (string * Pydantic.FieldInfo V)) (data attrs : sdict V) :
  NoDup (map fst data) ->
  Pydantic.BaseModel_init cls infos data = Ok attrs ->
  forall k,
    sget k attrs
    = match sget k infos with
      | Some info => field_value data k info
      | None => sget k data
      end
    /\ (sget k infos <> None -> sget k attrs <> None).
Proof.
  intros Hdata H k.
  pose proof (init_attributes cls infos data attrs Hdata H k) as Hk.
  split; [exact Hk|]. intro Hfield. rewrite Hk.
  destruct (sget k infos) as [info|] eqn:Ek; [|congruence].
  apply (provided_fields infos data); [|exact Ek].
  exact (init_succeeded cls infos data attrs H).
Qed.

Lemma model_dump_spec (infos : list (string * Pydantic.FieldInfo V)) (attrs : sdict V) :
  (forall k, sget k infos <> None -> sget k attrs <> None) ->
  exists values,
    BaseModel_model_dump infos attrs = Some values
    /\ map fst values = map fst infos
    /\ forall k,
         sget k values
         = match sget k infos with Some _ => sget k attrs | None => None end.
Proof.
  induction infos as [|[name info] infos IH]; intro Hset.
  - exists []. repeat split.
  - destruct (sget name attrs) as [v|] eqn:Ev.
    2: { exfalso. apply (Hset name); [|exact Ev].
         unfold sget. cbn [dict_get]. now rewrite String.eqb_refl. }
    destruct IH as (values & Hd & Hkeys & Hvalues).
    { intros k Hk. destruct (String.eqb k name) eqn:E.
      - apply String.eqb_eq in E. subst k. congruence.
      - apply Hset. unfold sget. cbn [dict_get]. rewrite E. exact Hk. }
    exists ((name, v) :: values). cbn [BaseModel_model_dump]. rewrite Ev, Hd.
    split; [reflexivity|]. split; [simpl; now rewrite Hkeys|].
    intro k. unfold sget at 1 2. cbn [dict_get].
    fold (@sget V) (@sget (Pydantic.FieldInfo V)).
    destruct (String.eqb k name) eqn:E.
    + apply String.eqb_eq in E. subst k. now rewrite Ev.
    + apply Hvalues.
Qed.

(** X23. [copy] of a constructed object never fails.  In the copy a key
    of [update] holds the value of [update], also when it is no declared
    field; any other declared field holds the value of the original; the
    undeclared attributes of the original are dropped. *)
Theorem BaseModel_copy_values (cls : string)
  (infos : list (string * Pydantic.FieldInfo V)) (data attrs : sdict V)
  (update : option (sdict V)) :
  let changes := match update with Some changes => changes | None => [] end in
  NoDup (map fst infos) -> NoDup (map fst data) -> NoDup (map fst changes) ->
  Pydantic.BaseModel_init cls infos data = Ok attrs ->
  exists attrs',
    BaseModel_copy cls infos attrs update = Some (Ok attrs')
    /\ forall k,
         sget k attrs'
         = match sget k changes with
           | Some v => Some v
           | None => match sget k infos with Some _ => sget k attrs | None => None end
           end.
Proof.
  intros changes Hinfos Hdata Hchanges Hinit.
  pose proof (init_fields_set cls infos data attrs Hdata Hinit) as Hattrs.
  destruct (model_dump_spec infos attrs Hattrs)
    as (values & Hdump & Hkeys & Hvalues).
  unfold BaseModel_copy. rewrite Hdump.
  set (updated := match update with
                  | Some ((_ :: _) as update) =>
                      fold_left (fun acc kv => sset (fst kv) (snd kv) acc) update values
                  | _ => values
                  end).
  assert (Hupdated : updated
                     = fold_left (fun acc kv => sset (fst kv) (snd kv) acc) changes values).
  { subst updated changes. destruct update as [[|]|]; reflexivity. }
  clearbody updated. subst updated.
  set (updated := fold_left (fun acc kv => sset (fst kv) (snd kv) acc) changes values).
  assert (Hget : forall k,
             sget k updated
             = match sget k changes with
               | Some v => Some v
               | None => match sget k infos with Some _ => sget k attrs | None => None end
               end).
  { intro k. subst updated. rewrite sget_set_all by exact Hchanges.
    now rewrite Hvalues. }
  assert (Hnodup : NoDup (map fst updated)).
  { subst updated. apply set_all_keys_NoDup. now rewrite Hkeys. }
  assert (Hfields : forall k, sget k infos <> None -> sget k updated <> None).
  { intros k Hk. rewrite Hget. destruct (sget k changes); [discriminate|].
    destruct (sget k infos) eqn:Ei; [|congruence]. apply (Hattrs k). congruence. }
  assert (Hfind : find (unprovided updated) infos = None).
  { clear - Hfields. induction infos as [|[name info] infos IH]; [reflexivity|].
    cbn [find]. unfold unprovided at 1, field_value. cbn [fst snd].
    destruct (sget name updated) eqn:E.
    - apply IH. intros k Hk.
      destruct (String.eqb k name) eqn:Ek.
      + apply String.eqb_eq in Ek. subst k. congruence.
      + apply Hfields. unfold sget. cbn [dict_get]. rewrite Ek. exact Hk.
    - exfalso. apply (Hfields name); [|exact E].
      unfold sget. cbn [dict_get]. now rewrite String.eqb_refl. }
  destruct (init_returns cls infos updated Hfind) as [attrs' Hcopy].
  exists attrs'. split; [now rewrite Hcopy|].
  intro k.
  pose proof (init_attributes cls infos updated attrs' Hnodup Hcopy k) as Hk.
  rewrite Hk. destruct (sget k infos) as [info|] eqn:Ek.
  - unfold field_value. specialize (Hfields k). rewrite Ek in Hfields.
    destruct (sget k updated) eqn:Eu; [|exfalso; now apply Hfields].
    rewrite <- Eu, Hget, Ek. reflexivity.
  - rewrite Hget, Ek. reflexivity.
Qed.

End RecordLayer.

Lemma BaseModel_init_values_witness :
  exists attrs,
    TimeframeSettings_new
      [("months", TV_int 24); ("label", TV_int 7); ("start_date", TV_date jan_2024)]%string
    = Ok attrs
    /\ sget "months"%string attrs = Some (TV_int 24)
    /\ sget "label"%string attrs = Some (TV_int 7).
Proof.
  assert (H : exists attrs,
             TimeframeSettings_new
               [("months", TV_int 24); ("label", TV_int 7);
                ("start_date", TV_date jan_2024)]%string
             = Ok attrs)
    by (eexists; reflexivity).
  destruct H as [attrs H]. exists attrs. split; [exact H|].
  assert (Hkeys : NoDup (map fst [("months", TV_int 24); ("label", TV_int 7);
                                  ("start_date", TV_date jan_2024)]%string)).
  { repeat constructor; simpl; intuition discriminate. }
  split.
  - exact (proj1 (BaseModel_init_values "TimeframeSettings" TimeframeSettings_fields
                    _ attrs Hkeys H "months"%string)).
  - exact (proj1 (BaseModel_init_values "TimeframeSettings" TimeframeSettings_fields
                    _ attrs Hkeys H "label"%string)).
Defined.

Lemma BaseModel_copy_values_witness :
  exists attrs attrs',
    TimeframeSettings_new
      [("start_date", TV_date jan_2024); ("months", TV_int 24); ("label", TV_int 7)]%string
    = Ok attrs
    /\ BaseModel_copy "TimeframeSettings" TimeframeSettings_fields attrs
         (Some [("months"%string, TV_int 0)])
       = Some (Ok attrs')
    /\ sget "months"%string attrs' = Some (TV_int 0)
    /\ sget "start_date"%string attrs' = sget "start_date"%string attrs
    /\ sget "label"%string attrs' = None.
Proof.
  assert (H : exists attrs,
             TimeframeSettings_new
               [("start_date", TV_date jan_2024); ("months", TV_int 24);
                ("label", TV_int 7)]%string
             = Ok attrs)
    by (eexists; reflexivity).
  destruct H as [attrs H].
  assert (Hdata : NoDup (map fst [("start_date", TV_date jan_2024); ("months", TV_int 24);
                                  ("label", TV_int 7)]%string)).
  { repeat constructor; simpl; intuition discriminate. }
  assert (Hinfos : NoDup (map fst TimeframeSettings_fields)).
  { repeat constructor; simpl; intuition discriminate. }
  assert (Hchanges : NoDup (map fst [("months"%string, TV_int 0)])).
  { repeat constructor; simpl; intuition discriminate. }
  destruct (BaseModel_copy_values "TimeframeSettings" TimeframeSettings_fields _ attrs
              (Some [("months"%string, TV_int 0)]) Hinfos Hdata Hchanges H)
    as (attrs' & Hcopy & Hvalues).
  exists attrs, attrs'. split; [exact H|]. split; [exact Hcopy|].
  split; [exact (Hvalues "months"%string)|].
  split; [exact (Hvalues "start_date"%string) | exact (Hvalues "label"%string)].
Defined.

(* ------------------------------------------------------------------ *)
(** ** main.py: the request handlers

    The module keeps the posted scenarios in the dictionary [SCENARIOS].
    A handler takes the dictionary as an argument and, when it writes to
    it, returns the new one.  A handler ends by returning its response,
    by raising an [HTTPException], or by letting an error of the
    calculator through. *)

From Stdlib Require Import Ascii.

Inductive HandlerError : Type :=
| HTTPException (status_code : Z) (detail : string)
| Unhandled (e : PyError).

Inductive reply (A : Type) : Type :=
| Respond (a : A)
| Abort (e : HandlerError).

Arguments Respond {A} a.
Arguments Abort {A} e.

Module ScenarioCreateRequest.
Record t : Type := mk { scenario : ScenarioInput.t; clone_from : option string }.
End ScenarioCreateRequest.

Module ScenarioRunRequest.
Record t : Type := mk {
  scenario_id : option string;
  scenario : option ScenarioInput.t;
  months : option Z
}.
End ScenarioRunRequest.

(** [s.split(",")] *)
Fixpoint split_commas (s : string) : list string :=
  match s with
  | EmptyString => [EmptyString]
  | String c rest =>
      match split_commas rest with
      | [] => []
      | part :: parts =>
          if Ascii.eqb c ","%char then EmptyString :: part :: parts
          else String c part :: parts
      end
  end.

Definition nonempty (s : string) : bool :=
  match s with EmptyString => false | String _ _ => true end.

(** [timeframe.copy(update={"months": months})] and
    [scenario.copy(update={"timeframe": timeframe})] on the records. *)
Definition copy_months (timeframe : TimeframeSettings.t) (months : Z)
  : TimeframeSettings.t :=
  TimeframeSettings.mk (TimeframeSettings.start_date timeframe) months.

Definition copy_timeframe (scenario : ScenarioInput.t) (timeframe : TimeframeSettings.t)
  : ScenarioInput.t :=
  ScenarioInput.mk (ScenarioInput.meta scenario) (ScenarioInput.currency scenario)
    timeframe (ScenarioInput.company_state scenario) (ScenarioInput.revenue scenario)
    (ScenarioInput.headcount scenario) (ScenarioInput.costs scenario)
    (ScenarioInput.taxes scenario) (ScenarioInput.capex scenario)
    (ScenarioInput.working_capital scenario) (ScenarioInput.funding scenario)
    (ScenarioInput.valuation scenario).

Definition TimeframeSettings_attrs (timeframe : TimeframeSettings.t)
  : sdict TimeframeValue :=
  [("start_date", TV_date (TimeframeSettings.start_date timeframe));
   ("months", TV_int (TimeframeSettings.months timeframe))]%string.

Section Handlers.
Variable fpow : Qc -> Qc -> Qc.

Definition served {A : Type} (c : result A) : reply A :=
  match c with
  | Ok a => Respond a
  | Raise e => Abort (Unhandled e)
  end.

Definition create_scenario (SCENARIOS : sdict ScenarioInput.t)
  (payload : ScenarioCreateRequest.t) : sdict ScenarioInput.t * string :=
  let scenario := ScenarioCreateRequest.scenario payload in
  let SCENARIOS :=
    sset (ScenarioMeta.id (ScenarioInput.meta scenario)) scenario SCENARIOS in
  (SCENARIOS, ScenarioMeta.id (ScenarioInput.meta scenario)).

Definition list_scenarios (SCENARIOS : sdict ScenarioInput.t) : list string :=
  dict_keys SCENARIOS.

Definition run_scenario (SCENARIOS : sdict ScenarioInput.t)
  (payload : ScenarioRunRequest.t) : reply ScenarioResult.t :=
  let scenario :=
    match ScenarioRunRequest.scenario payload with
    | Some scenario => Some scenario
    | None =>
        match ScenarioRunRequest.scenario_id payload with
        | Some scenario_id =>
            if nonempty scenario_id then sget scenario_id SCENARIOS else None
        | None => None
        end
    end in
  match scenario with
  | None => Abort (HTTPException 404 "Scenario not found")
  | Some scenario =>
      let scenario :=
        match ScenarioRunRequest.months payload with
        | Some months =>
            if (months =? 0)%Z then scenario
            else copy_timeframe scenario
                   (copy_months (ScenarioInput.timeframe scenario) months)
        | None => scenario
        end in
      served (run fpow scenario)
  end.

Definition get_scenario_projection (SCENARIOS : sdict ScenarioInput.t)
  (scenario_id : string) : reply ScenarioResult.t :=
  match sget scenario_id SCENARIOS with
  | None => Abort (HTTPException 404 "Scenario not found")
  | Some scenario => served (run fpow scenario)
  end.

Fixpoint compare_loop (SCENARIOS : sdict ScenarioInput.t) (ids : list string)
  (valuations : list Qc) : reply (list Qc) :=
  match ids with
  | [] => Respond valuations
  | _id :: rest =>
      match sget _id SCENARIOS with
      | None => Abort (HTTPException 404 ("Scenario " ++ _id ++ " not found"))
      | Some scenario =>
          match run fpow scenario with
          | Raise e => Abort (Unhandled e)
          | Ok result =>
              compare_loop SCENARIOS rest (valuations ++ [enterprise_value_of result])
          end
      end
  end.

Definition compare_scenarios (SCENARIOS : sdict ScenarioInput.t)
  (scenario_id ids : string) : reply (list string * list Qc) :=
  let base_ids := scenario_id :: filter nonempty (split_commas ids) in
  match compare_loop SCENARIOS base_ids [] with
  | Abort e => Abort e
  | Respond valuations => Respond (base_ids, valuations)
  end.

Definition healthcheck : sdict string := [("status", "ok")]%string.

End Handlers.

(** The two copies of [run_scenario] through the record layer: each
    returns the object whose attributes are those of the updated
    record. *)
Lemma copy_months_record_layer (scenario : ScenarioInput.t) (months : Z) :
  let timeframe := copy_months (ScenarioInput.timeframe scenario) months in
  BaseModel_copy "TimeframeSettings" TimeframeSettings_fields
    (TimeframeSettings_attrs (ScenarioInput.timeframe scenario))
    (Some [("months"%string, TV_int months)])
  = Some (Ok (TimeframeSettings_attrs timeframe))
  /\ BaseModel_copy "ScenarioInput" ScenarioInput_fields (kwargs_of scenario)
       (Some [("timeframe"%string, F_timeframe timeframe)])
     = Some (Ok (kwargs_of (copy_timeframe scenario timeframe))).
Proof. destruct scenario. split; reflexivity. Qed.

Lemma dict_keys_sset {V : Type} (k : string) (v : V) (d : sdict V) :
  dict_keys (sset k v d)
  = match sget k d with Some _ => dict_keys d | None => dict_keys d ++ [k] end.
Proof.
  unfold dict_keys, sset, sget. induction d as [|[k0 v0] d IH]; simpl; [reflexivity|].
  destruct (String.eqb k k0); simpl; [reflexivity|].
  rewrite IH. now destruct (dict_get String.eqb k d).
Qed.

(** X24. Posting a scenario stores it under its [meta.id]: a projection
    asked for that id afterwards is the run of the posted scenario,
    whatever was stored under the id before, and the other ids answer as
    before.  The list of ids keeps its order; the id is appended to it
    only when it is new.  [clone_from] plays no part. *)
Theorem create_scenario_stored (fpow : Qc -> Qc -> Qc) (SCENARIOS : sdict ScenarioInput.t)
  (payload : ScenarioCreateRequest.t) :
  let scenario := ScenarioCreateRequest.scenario payload in
  let SCENARIOS' := fst (create_scenario SCENARIOS payload) in
  let scenario_id := snd (create_scenario SCENARIOS payload) in
  scenario_id = ScenarioMeta.id (ScenarioInput.meta scenario)
  /\ get_scenario_projection fpow SCENARIOS' scenario_id = served (run fpow scenario)
  /\ (forall other,
        other <> scenario_id ->
        get_scenario_projection fpow SCENARIOS' other
        = get_scenario_projection fpow SCENARIOS other)
  /\ list_scenarios SCENARIOS'
     = if existsb (String.eqb scenario_id) (list_scenarios SCENARIOS)
       then list_scenarios SCENARIOS
       else list_scenarios SCENARIOS ++ [scenario_id].
Proof.
  cbv zeta. unfold create_scenario, get_scenario_projection, list_scenarios.
  cbn [fst snd]. split; [reflexivity|]. split; [|split].
  - now rewrite sget_sset_same.
  - intros other Hne. now rewrite sget_sset_other.
  - rewrite dict_keys_sset.
    set (k := ScenarioMeta.id _). clearbody k.
    assert (H : existsb (String.eqb k) (dict_keys SCENARIOS)
                = match sget k SCENARIOS with Some _ => true | None => false end).
    { unfold dict_keys, sget. induction SCENARIOS as [|[k0 v0] d IH]; simpl;
        [reflexivity|].
      destruct (String.eqb k k0); [reflexivity | exact IH]. }
    rewrite H. now destruct (sget k SCENARIOS).
Qed.

Lemma run_months_count (fpow : Qc -> Qc -> Qc) (scenario : ScenarioInput.t)
  (r : ScenarioResult.t) :
  run fpow scenario = Ok r ->
  List.length (ScenarioResult.monthly r)
  = Z.to_nat (TimeframeSettings.months (ScenarioInput.timeframe scenario)).
Proof.
  intro H. unfold run in H. inv_bind H. destruct v as [final months].
  inv_bind H. injection H as <-. cbn [ScenarioResult.monthly].
  unfold run_months in E. apply run_loop_length in E.
  now rewrite length_map, E, py_range_length.
Qed.

(** The scenario [run_scenario] works on: the one of the payload, else
    the stored one under a non-empty [scenario_id]. *)
Definition chosen (SCENARIOS : sdict ScenarioInput.t) (payload : ScenarioRunRequest.t)
  (scenario : ScenarioInput.t) : Prop :=
  ScenarioRunRequest.scenario payload = Some scenario
  \/ (ScenarioRunRequest.scenario payload = None
      /\ exists scenario_id,
           ScenarioRunRequest.scenario_id payload = Some scenario_id
           /\ scenario_id <> EmptyString
           /\ sget scenario_id SCENARIOS = Some scenario).

(** X25. The [months] of a run request override the horizon of the
    chosen scenario without any check: a positive value gives a response
    with that many monthly projections, whatever the scenario says; zero
    is taken as no override; a negative value makes the calculator fail
    with an error that the handler does not catch. *)
Theorem run_scenario_months (fpow : Qc -> Qc -> Qc) (SCENARIOS : sdict ScenarioInput.t)
  (payload : ScenarioRunRequest.t) (scenario : ScenarioInput.t) (months : Z) :
  chosen SCENARIOS payload scenario ->
  ScenarioRunRequest.months payload = Some months ->
  ((0 < months)%Z ->
   forall r, run_scenario fpow SCENARIOS payload = Respond r ->
             Z.of_nat (List.length (ScenarioResult.monthly r)) = months)
  /\ (months = 0%Z ->
      run_scenario fpow SCENARIOS payload = served (run fpow scenario))
  /\ ((months < 0)%Z ->
      run_scenario fpow SCENARIOS payload = Abort (Unhandled IndexError)
      \/ run_scenario fpow SCENARIOS payload = Abort (Unhandled ZeroDivisionError)).
Proof.
  intros Hchosen Hmonths. unfold run_scenario. rewrite Hmonths.
  assert (Hs : match ScenarioRunRequest.scenario payload with
               | Some scenario => Some scenario
               | None =>
                   match ScenarioRunRequest.scenario_id payload with
                   | Some scenario_id =>
                       if nonempty scenario_id then sget scenario_id SCENARIOS else None
                   | None => None
                   end
               end = Some scenario).
  { destruct Hchosen as [->|(-> & scenario_id & -> & Hne & Hget)]; [reflexivity|].
    destruct scenario_id; [congruence | exact Hget]. }
  rewrite Hs. split; [|split].
  - intros Hpos r H. replace (months =? 0)%Z with false in H by (symmetry; lia).
    destruct (run fpow _) as [r'|] eqn:E; [|discriminate].
    injection H as <-. apply run_months_count in E. rewrite E.
    cbn [ScenarioInput.timeframe copy_timeframe TimeframeSettings.months copy_months].
    lia.
  - intros ->. reflexivity.
  - intro Hneg. replace (months =? 0)%Z with false by (symmetry; lia).
    destruct (run_zero_months_raises fpow
                (copy_timeframe scenario
                   (copy_months (ScenarioInput.timeframe scenario) months)))
      as [H|H].
    + cbn [ScenarioInput.timeframe copy_timeframe TimeframeSettings.months copy_months].
      lia.
    + left. now rewrite H.
    + right. now rewrite H.
Qed.

Definition stored_S4 : sdict ScenarioInput.t := [("s"%string, scenario_S4 2)].

Lemma run_scenario_months_witness :
  exists r,
    run_scenario fpow_example stored_S4
      (ScenarioRunRequest.mk (Some "s"%string) None (Some 5%Z))
    = Respond r
    /\ Z.of_nat (List.length (ScenarioResult.monthly r)) = 5%Z.
Proof.
  assert (H : exists r,
             run_scenario fpow_example stored_S4
               (ScenarioRunRequest.mk (Some "s"%string) None (Some 5%Z))
             = Respond r)
    by (vm_compute; eexists; reflexivity).
  destruct H as [r H]. exists r. split; [exact H|].
  assert (Hchosen : chosen stored_S4
                      (ScenarioRunRequest.mk (Some "s"%string) None (Some 5%Z))
                      (scenario_S4 2)).
  { right. split; [reflexivity|]. exists "s"%string.
    split; [reflexivity|]. split; [discriminate | reflexivity]. }
  exact (proj1 (run_scenario_months fpow_example stored_S4 _ (scenario_S4 2) 5
                  Hchosen eq_refl) ltac:(lia) r H).
Defined.

Lemma compare_loop_spec (fpow : Qc -> Qc -> Qc) (SCENARIOS : sdict ScenarioInput.t)
  (ids : list string) :
  forall valuations out,
    compare_loop fpow SCENARIOS ids valuations = Respond out ->
    exists added,
      out = valuations ++ added
      /\ Forall2 (fun _id value =>
                    exists scenario result,
                      sget _id SCENARIOS = Some scenario
                      /\ run fpow scenario = Ok result
                      /\ value = enterprise_value_of result) ids added.
Proof.
  induction ids as [|_id ids IH]; intros valuations out H.
  - injection H as <-. exists []. split; [now rewrite app_nil_r | constructor].
  - cbn [compare_loop] in H.
    destruct (sget _id SCENARIOS) as [scenario|] eqn:Hget; [|discriminate].
    destruct (run fpow scenario) as [result|] eqn:Hrun; [|discriminate].
    destruct (IH _ _ H) as (added & -> & Hall).
    exists (enterprise_value_of result :: added). split.
    + now rewrite <- app_assoc.
    + constructor; [|exact Hall]. exists scenario, result. repeat split; assumption.
Qed.

Lemma compare_loop_missing (fpow : Qc -> Qc -> Qc) (SCENARIOS : sdict ScenarioInput.t)
  (found : list string) (missing : string) (rest : list string) :
  Forall (fun _id => exists scenario result,
                       sget _id SCENARIOS = Some scenario
                       /\ run fpow scenario = Ok result) found ->
  sget missing SCENARIOS = None ->
  forall valuations,
    compare_loop fpow SCENARIOS (found ++ missing :: rest) valuations
    = Abort (HTTPException 404 ("Scenario " ++ missing ++ " not found")).
Proof.
  intros Hfound Hmissing. induction Hfound as [|_id found (scenario & result & Hget & Hrun) _ IH];
    intro valuations.
  - cbn [app compare_loop]. now rewrite Hmissing.
  - cbn [app compare_loop]. rewrite Hget, Hrun. apply IH.
Qed.

(** X26. A comparison that answers lists the path id followed by the
    non-empty parts of [ids] between commas, in their order and with
    their repetitions, and beside each id the enterprise value of the run
    of the scenario stored under it.  When an id is not stored, and the
    scenarios before it are stored and run, the answer is a 404 that
    names that id. *)
Theorem compare_scenarios_answer (fpow : Qc -> Qc -> Qc)
  (SCENARIOS : sdict ScenarioInput.t) (scenario_id ids : string) :
  let base_ids := scenario_id :: filter nonempty (split_commas ids) in
  (forall scenario_ids valuation,
      compare_scenarios fpow SCENARIOS scenario_id ids
      = Respond (scenario_ids, valuation) ->
      scenario_ids = base_ids
      /\ Forall2 (fun _id value =>
                    exists scenario result,
                      sget _id SCENARIOS = Some scenario
                      /\ run fpow scenario = Ok result
                      /\ value = enterprise_value_of result) scenario_ids valuation)
  /\ (forall found missing rest,
        base_ids = found ++ missing :: rest ->
        Forall (fun _id => exists scenario result,
                             sget _id SCENARIOS = Some scenario
                             /\ run fpow scenario = Ok result) found ->
        sget missing SCENARIOS = None ->
        compare_scenarios fpow SCENARIOS scenario_id ids
        = Abort (HTTPException 404 ("Scenario " ++ missing ++ " not found"))).
Proof.
  cbv zeta. unfold compare_scenarios. split.
  - intros scenario_ids valuation H.
    destruct (compare_loop fpow SCENARIOS _ []) as [valuations|] eqn:E; [|discriminate].
    injection H as <- <-. split; [reflexivity|].
    apply compare_loop_spec in E. destruct E as (added & -> & Hall). exact Hall.
  - intros found missing rest Hids Hfound Hmissing. rewrite Hids.
    now rewrite (compare_loop_missing fpow SCENARIOS found missing rest Hfound Hmissing).
Qed.

Definition stored_S6 : sdict ScenarioInput.t := [("s"%string, scenario_S6 0)].

Lemma compare_scenarios_answer_witness :
  exists valuation,
    compare_scenarios fpow_example stored_S6 "s" "s,,s"
    = Respond (["s"; "s"; "s"]%string, valuation)
    /\ Forall2 (fun _id value =>
                  exists scenario result,
                    sget _id stored_S6 = Some scenario
                    /\ run fpow_example scenario = Ok result
                    /\ value = enterprise_value_of result)
         ["s"; "s"; "s"]%string valuation.
Proof.
  assert (H : exists valuation,
             compare_scenarios fpow_example stored_S6 "s" "s,,s"
             = Respond (["s"; "s"; "s"]%string, valuation))
    by (vm_compute; eexists; reflexivity).
  destruct H as [valuation H]. exists valuation. split; [exact H|].
  exact (proj2 (proj1 (compare_scenarios_answer fpow_example stored_S6 "s" "s,,s")
                  _ _ H)).
Defined.

(* ------------------------------------------------------------------ *)
(** ** The balance sheet from month to month *)

(** The balances the loop carries from one iteration to the next. *)
Definition state_balance (st : LoopState) : BalanceSheet.t :=
  BalanceSheet.mk (st_cash st) (st_accounts_receivable st) (st_inventory st)
    (st_fixed_assets st) (st_accumulated_depreciation st) (st_accounts_payable st)
    (st_debt_balance st) (st_equity st).

(** The balances [run] starts from: those of [company_state], with the
    opening equity. *)
Definition opening_balance (scenario : ScenarioInput.t) : BalanceSheet.t :=
  state_balance (init_state scenario).

(** Assets less liabilities and equity. *)
Definition imbalance (bs : BalanceSheet.t) : Qc :=
  BalanceSheet.cash bs + BalanceSheet.accounts_receivable bs + BalanceSheet.inventory bs
  + (BalanceSheet.fixed_assets bs - BalanceSheet.accumulated_depreciation bs)
  - (BalanceSheet.accounts_payable bs + BalanceSheet.debt bs + BalanceSheet.equity bs).

Lemma capex_fold (month_index : Z) (capex_schedule : list (Z * CapexItem.t)) :
  forall (fixed_assets : Qc) (tracks : list DepreciationTrack),
    fst (fold_left
           (fun '(fa, tracks) '(idx, item) =>
              if (idx =? month_index)%Z then
                (fa + CapexItem.amount item,
                 tracks ++ [(CapexItem.useful_life_months item, CapexItem.amount item,
                             CapexItem.salvage_value item)])
              else (fa, tracks))
           capex_schedule (fixed_assets, tracks))
    = fixed_assets
      + py_sum (map (fun entry => CapexItem.amount (snd entry))
                  (filter (fun entry => (fst entry =? month_index)%Z) capex_schedule)).
Proof.
  induction capex_schedule as [|[idx item] rest IH]; intros fixed_assets tracks.
  - cbn. unfold py_sum. cbn. ring.
  - cbn [fold_left filter fst]. destruct (idx =? month_index)%Z.
    + rewrite IH. cbn [map snd]. rewrite py_sum_cons. ring.
    + apply IH.
Qed.

Lemma compute_depreciation_balances (month_index : Z)
  (capex_schedule : list (Z * CapexItem.t)) (tracks tracks' : list DepreciationTrack)
  (fixed_assets accumulated depreciation accumulated' fixed_assets' : Qc) :
  _compute_depreciation month_index capex_schedule tracks fixed_assets accumulated
  = Ok (depreciation, accumulated', fixed_assets', tracks') ->
  fixed_assets'
  = fixed_assets
    + py_sum (map (fun entry => CapexItem.amount (snd entry))
                (filter (fun entry => (fst entry =? month_index)%Z) capex_schedule))
  /\ accumulated' = accumulated + depreciation.
Proof.
  unfold _compute_depreciation. intro H.
  pose proof (capex_fold month_index capex_schedule fixed_assets tracks) as Hfold.
  unfold DepreciationTrack in *.
  match type of H with
  | context [fold_left ?f capex_schedule ?a] =>
      destruct (fold_left f capex_schedule a) as [fa trs]
  end.
  cbn [fst] in Hfold. inv_bind H. destruct v as [d updated].
  injection H as <- <- <- <-. split; [exact Hfold | reflexivity].
Qed.

Section BalanceSide.
Variable fpow : Qc -> Qc -> Qc.
Variable scenario : ScenarioInput.t.
Variable hiring_lookup : list (Z * list HiringPlan.t).
Variable capex_schedule : list (Z * CapexItem.t).

(** How one iteration moves the balances. *)
Definition rolls_forward (prev : BalanceSheet.t) (p : MonthlyProjection.t) : Prop :=
  let inc := MonthlyProjection.income_statement p in
  let bs := MonthlyProjection.balance_sheet p in
  let cf := MonthlyProjection.cash_flow p in
  let wcd := MonthlyProjection.working_capital_delta p in
  CashFlowStatement.ending_cash cf = BalanceSheet.cash bs
  /\ BalanceSheet.cash bs
     = BalanceSheet.cash prev + CashFlowStatement.operating_cash_flow cf
       + CashFlowStatement.investing_cash_flow cf
       + CashFlowStatement.financing_cash_flow cf
  /\ BalanceSheet.debt bs
     = BalanceSheet.debt prev + (CashFlowStatement.fcfe cf - CashFlowStatement.fcff cf)
  /\ BalanceSheet.fixed_assets bs
     = BalanceSheet.fixed_assets prev - CashFlowStatement.investing_cash_flow cf
  /\ BalanceSheet.accumulated_depreciation bs
     = BalanceSheet.accumulated_depreciation prev + IncomeStatement.depreciation inc
  /\ BalanceSheet.accounts_receivable bs
     = BalanceSheet.accounts_receivable prev + WorkingCapitalDelta.change_ar wcd
  /\ BalanceSheet.accounts_payable bs
     = BalanceSheet.accounts_payable prev + WorkingCapitalDelta.change_ap wcd
  /\ BalanceSheet.inventory bs
     = BalanceSheet.inventory prev + WorkingCapitalDelta.change_inventory wcd
  /\ imbalance bs = imbalance prev - IncomeStatement.interest inc.

(** The cash flows of one iteration, by their parts. *)
Lemma month_body_flows st month_index st' p t :
  month_body fpow scenario hiring_lookup capex_schedule st month_index = Ok (st', p, t) ->
  let inc := MonthlyProjection.income_statement p in
  let bs := MonthlyProjection.balance_sheet p in
  let cf := MonthlyProjection.cash_flow p in
  let wcd := MonthlyProjection.working_capital_delta p in
  let debt_inflows :=
    py_sum (map DebtInstrument.amount
              (filter (fun new_debt =>
                         (DebtInstrument.month_index new_debt =? month_index)%Z)
                 (FundingModel.debt (ScenarioInput.funding scenario)))) in
  let capex_amount :=
    py_sum (map (fun entry => CapexItem.amount (snd entry))
              (filter (fun entry => (fst entry =? month_index)%Z) capex_schedule)) in
  CashFlowStatement.operating_cash_flow cf
  = IncomeStatement.net_income inc + IncomeStatement.depreciation inc + 0
    - WorkingCapitalDelta.total_change wcd
  /\ CashFlowStatement.investing_cash_flow cf = - capex_amount
  /\ tr_financing_before_backstop t
     = tr_equity_raise t + debt_inflows - tr_principal_paid t
       - IncomeStatement.interest inc
  /\ CashFlowStatement.fcfe cf
     = CashFlowStatement.fcff cf - tr_principal_paid t + debt_inflows
  /\ WorkingCapitalDelta.total_change wcd
     = WorkingCapitalDelta.change_ar wcd - WorkingCapitalDelta.change_ap wcd
       + WorkingCapitalDelta.change_inventory wcd
  /\ BalanceSheet.accounts_receivable bs
     = st_accounts_receivable st + WorkingCapitalDelta.change_ar wcd
  /\ BalanceSheet.accounts_payable bs
     = st_accounts_payable st + WorkingCapitalDelta.change_ap wcd
  /\ BalanceSheet.inventory bs
     = st_inventory st + WorkingCapitalDelta.change_inventory wcd
  /\ st_accounts_receivable st' = BalanceSheet.accounts_receivable bs
  /\ st_accounts_payable st' = BalanceSheet.accounts_payable bs
  /\ st_inventory st' = BalanceSheet.inventory bs.
Proof.
  unfold month_body. intro H.
  inv_bind H. inv_bind H. destruct v0 as [[revenue_summary plan_states] plan_lines].
  inv_bind H. destruct v0 as [[headcount_breakdown payroll_total] headcount_states].
  inv_bind H. destruct v0 as [[cost_breakdown total_cogs] total_opex].
  destruct (_compute_revenue_taxes _ _ _) as [revenue_taxes_amount tax_breakdown].
  inv_bind H. destruct v0 as [[[depreciation accumulated] fixed] tracks].
  inv_bind H. destruct v0 as [[interest_expense principal_paid] debt_states].
  cbv zeta in H.
  destruct (_funding_inflows month_index _) as [equity_raise debt_inflows] eqn:Hfund.
  destruct (_accumulate_annual _ _ _ _ _) as [annual_accumulators annual_cash].
  injection H as <- <- <-.
  unfold _funding_inflows in Hfund. injection Hfund as _ <-.
  cbn [MonthlyProjection.cash_flow MonthlyProjection.balance_sheet
       MonthlyProjection.income_statement MonthlyProjection.working_capital_delta
       CashFlowStatement.operating_cash_flow CashFlowStatement.investing_cash_flow
       CashFlowStatement.fcfe CashFlowStatement.fcff
       BalanceSheet.accounts_receivable BalanceSheet.accounts_payable
       BalanceSheet.inventory
       IncomeStatement.net_income IncomeStatement.depreciation IncomeStatement.interest
       tr_financing_before_backstop tr_equity_raise tr_principal_paid
       st_accounts_receivable st_accounts_payable st_inventory].
  repeat split; reflexivity.
Qed.

Lemma month_body_rolls_forward st month_index st' p t :
  month_body fpow scenario hiring_lookup capex_schedule st month_index = Ok (st', p, t) ->
  MonthlyProjection.balance_sheet p = state_balance st'
  /\ rolls_forward (state_balance st) p.
Proof.
  intro H.
  pose proof (month_body_cash _ _ _ _ _ _ _ _ _ H) as Hcash.
  pose proof (month_body_flows _ _ _ _ _ H) as Hflows.
  destruct (month_body_debt _ _ _ _ _ _ _ _ _ H) as (interest & _ & Hdebt & Hdebt').
  destruct (month_body_depreciation _ _ _ _ _ _ _ _ _ H) as (Hdep & Hacc' & Hfixed').
  apply compute_depreciation_balances in Hdep. destruct Hdep as [Hfixed Hacc].
  cbv zeta in Hcash, Hflows.
  destruct Hcash as (Hnet & Hbefore & _ & Hshort & Hfin & Hend & Hbs & Hst & Heq0
                     & Heq & Heq').
  destruct Hflows as (Hocf & Hicf & Hfb & Hfcfe & Htotal & Har & Hap & Hinv
                      & Har' & Hap' & Hinv').
  split.
  - unfold state_balance. rewrite Hst, Har', Hinv', Hfixed', Hacc', Hap', Hdebt', Heq', <- Hbs.
    now destruct (MonthlyProjection.balance_sheet p).
  - unfold rolls_forward, imbalance, state_balance. cbv zeta.
    cbn [BalanceSheet.cash BalanceSheet.accounts_receivable BalanceSheet.inventory
         BalanceSheet.fixed_assets BalanceSheet.accumulated_depreciation
         BalanceSheet.accounts_payable BalanceSheet.debt BalanceSheet.equity].
    assert (Hcash_roll :
      BalanceSheet.cash (MonthlyProjection.balance_sheet p)
      = st_cash st
        + CashFlowStatement.operating_cash_flow (MonthlyProjection.cash_flow p)
        + CashFlowStatement.investing_cash_flow (MonthlyProjection.cash_flow p)
        + CashFlowStatement.financing_cash_flow (MonthlyProjection.cash_flow p)).
    { rewrite Hbs, Hend, Hfin, Hbefore, Hnet.
      destruct (tr_backstop_fired t); ring. }
    assert (Hequity_roll :
      BalanceSheet.equity (MonthlyProjection.balance_sheet p)
      = st_equity st
        + (CashFlowStatement.financing_cash_flow (MonthlyProjection.cash_flow p)
           - tr_financing_before_backstop t)
        + (IncomeStatement.net_income (MonthlyProjection.income_statement p)
           + tr_equity_raise t)).
    { rewrite Heq, Hfin, Heq0. destruct (tr_backstop_fired t); ring. }
    split; [symmetry; exact Hbs|].
    split; [exact Hcash_roll|].
    split; [rewrite Hdebt, Hfcfe; ring|].
    split; [rewrite Hfixed, Hicf; ring|].
    split; [exact Hacc|].
    split; [exact Har|]. split; [exact Hap|]. split; [exact Hinv|].
    rewrite Hcash_roll, Hequity_roll, Har, Hap, Hinv, Hfixed, Hacc, Hdebt.
    rewrite Hocf, Hicf, Hfb, Htotal. ring.
Qed.

Lemma run_loop_rolls_forward month_indices :
  forall st final months m prev pm,
    run_loop fpow scenario hiring_lookup capex_schedule month_indices st
    = Ok (final, months) ->
    nth_error (state_balance st
               :: map (fun pm => MonthlyProjection.balance_sheet (fst pm)) months) m
    = Some prev ->
    nth_error months m = Some pm ->
    rolls_forward prev (fst pm).
Proof.
  induction month_indices as [|mi rest IH]; intros st final months m prev pm H Hprev Hpm.
  - injection H as <- <-. destruct m; discriminate.
  - simpl in H. inv_bind H. destruct v as [[st' p] t].
    inv_bind H. destruct v as [final' later]. injection H as <- <-.
    destruct (month_body_rolls_forward _ _ _ _ _ E) as [Hbs Hroll].
    destruct m as [|m].
    + injection Hprev as <-. injection Hpm as <-. exact Hroll.
    + cbn [nth_error map fst] in Hprev, Hpm. rewrite Hbs in Hprev.
      exact (IH _ _ _ _ _ _ E0 Hprev Hpm).
Qed.

End BalanceSide.







(* ------------------------------------------------------------------ *)
(** ** Straight-line amortization *)

Definition fnat (n : nat) : Qc := float_of_int (Z.of_nat n).

Lemma float_of_int_plus (a b : Z) :
  float_of_int (a + b) = float_of_int a + float_of_int b.
Proof.
  unfold float_of_int. apply Qc_is_canon. rewrite this_plus. cbn [this Q2Qc].
  rewrite !Qred_correct, inject_Z_plus. reflexivity.
Qed.

Lemma float_of_int_1 : float_of_int 1 = 1.
Proof. apply Qc_is_canon. vm_compute. reflexivity. Qed.

Lemma float_of_int_0 : float_of_int 0 = 0.
Proof. apply Qc_is_canon. vm_compute. reflexivity. Qed.

Lemma fnat_S (n : nat) : fnat (S n) = fnat n + 1.
Proof.
  unfold fnat. rewrite Nat2Z.inj_succ, <- Z.add_1_r, float_of_int_plus, float_of_int_1.
  reflexivity.
Qed.

Lemma fnat_nonneg (n : nat) : 0 <= fnat n.
Proof.
  induction n as [|n IH].
  - unfold fnat. cbn [Z.of_nat]. rewrite float_of_int_0. apply Qcle_refl.
  - rewrite fnat_S. rewrite <- (Qcplus_0_l 0) at 1.
    apply Qcplus_le_compat; [exact IH | discriminate].
Qed.

Lemma fnat_ge_1 (n : nat) : 1 <= fnat (S n).
Proof.
  rewrite fnat_S. rewrite <- (Qcplus_0_l 1) at 1.
  apply Qcplus_le_compat; [apply fnat_nonneg | apply Qcle_refl].
Qed.

Section StraightLine.
Variable name : string.
Variable rate installment : Qc.
Variable term : Z.
Hypothesis installment_kept : fl (1 # 1000000) < installment.

(** The states of a loan with [r] installments left, [g] months of grace
    left. *)
Definition loan_states (g r : nat) : list DebtState.t :=
  match r with
  | O => []
  | S _ =>
      [DebtState.mk name (installment * fnat r) rate term (Z.of_nat r) (Z.of_nat g)]
  end.

Definition loan_payment (g r : nat) : Qc :=
  match g, r with
  | O, S _ => installment
  | _, _ => 0
  end.

Definition loan_next (g r : nat) : nat * nat :=
  match g with
  | O => (O, Nat.pred r)
  | S g' => (g', r)
  end.

Lemma installment_pos : 0 < installment.
Proof. exact (Qclt_trans _ _ _ micro_pos installment_kept). Qed.

Lemma installment_le (r : nat) : installment <= installment * fnat (S r).
Proof.
  rewrite <- (Qcmult_1_l installment) at 1. rewrite (Qcmult_comm installment).
  apply Qcmult_le_compat_r; [apply fnat_ge_1|].
  apply Qclt_le_weak, installment_pos.
Qed.

Lemma loan_step (g r : nat) :
  exists interest,
    for_each debt_state_body (loan_states g r) (0, 0, [])
    = Ok (interest, loan_payment g r,
          loan_states (fst (loan_next g r)) (snd (loan_next g r))).
Proof.
  destruct r as [|r].
  - exists 0. destruct g; reflexivity.
  - assert (Hpos : 0 < installment * fnat (S r)).
    { exact (Qclt_le_trans _ _ _ installment_pos (installment_le r)). }
    assert (Hnot : Qcleb (installment * fnat (S r)) 0 = false) by now apply Qcleb_gt.
    cbn [loan_states for_each]. unfold debt_state_body.
    cbn [DebtState.outstanding DebtState.grace_months DebtState.remaining_term
         DebtState.name DebtState.interest_rate DebtState.term_months].
    rewrite Hnot. destruct g as [|g].
    + change (0 <? Z.of_nat 0)%Z with false. cbv iota.
      replace (0 <? Z.of_nat (S r))%Z with true by (symmetry; apply Z.ltb_lt; lia).
      rewrite py_div_ok
        by (intro H0; pose proof (fnat_ge_1 r) as H1; unfold fnat in H1;
            rewrite H0 in H1; now apply H1).
      cbn [bind].
      assert (Hq : installment * fnat (S r) / float_of_int (Z.of_nat (S r)) = installment).
      { fold (fnat (S r)). field. intro H0. pose proof (fnat_ge_1 r) as H1.
        rewrite H0 in H1. now apply H1. }
      rewrite Hq.
      assert (Hmin : py_min installment (installment * fnat (S r)) = installment).
      { unfold py_min. now rewrite (proj2 (Qcleb_le _ _) (installment_le r)). }
      rewrite Hmin.
      assert (Hout : installment * fnat (S r) - installment = installment * fnat r).
      { rewrite fnat_S. ring. }
      rewrite Hout.
      replace (Z.max 0 (Z.of_nat (S r) - 1)) with (Z.of_nat r) by lia.
      eexists. cbn [loan_payment loan_next fst snd Nat.pred].
      f_equal. f_equal; [f_equal; ring|].
      destruct r as [|r].
      * cbn [loan_states]. unfold fnat. cbn [Z.of_nat]. rewrite float_of_int_0.
        rewrite Qcmult_0_r. reflexivity.
      * cbn [loan_states].
        replace (Qcleb (installment * fnat (S r)) (fl (1 # 1000000))) with false.
        { reflexivity. }
        symmetry. apply Qcleb_gt.
        exact (Qclt_le_trans _ _ _ installment_kept (installment_le r)).
    + replace (0 <? Z.of_nat (S g))%Z with true by (symmetry; apply Z.ltb_lt; lia).
      eexists. cbn [loan_payment loan_next fst snd loan_states app].
      replace (Z.of_nat (S g) - 1)%Z with (Z.of_nat g) by lia.
      reflexivity.
Qed.

(** The principal repaid month by month, from a month with [g] months of
    grace and [r] installments left. *)
Fixpoint loan_schedule (g r len : nat) : list Qc :=
  match len with
  | O => []
  | S len' =>
      loan_payment g r
      :: loan_schedule (fst (loan_next g r)) (snd (loan_next g r)) len'
  end.

Lemma loan_schedule_nth (len : nat) :
  forall g r m x,
    nth_error (loan_schedule g r len) m = Some x ->
    x = if (g <=? m)%nat && (m <? g + r)%nat then installment else 0.
Proof.
  induction len as [|len IH]; intros g r m x H; [destruct m; discriminate|].
  cbn [loan_schedule] in H. destruct m as [|m].
  - injection H as <-. destruct g, r; reflexivity.
  - cbn [nth_error] in H. apply IH in H. rewrite H.
    destruct g as [|g]; cbn [loan_next fst snd].
    + destruct r as [|r]; cbn [Nat.pred].
      * reflexivity.
      * cbn [Nat.leb]. f_equal.
        destruct (m <? 0 + r)%nat eqn:E1, (S m <? 0 + S r)%nat eqn:E2;
          try reflexivity;
          [apply Nat.ltb_lt in E1; apply Nat.ltb_ge in E2
          |apply Nat.ltb_ge in E1; apply Nat.ltb_lt in E2]; lia.
    + change (S g <=? S m)%nat with (g <=? m)%nat.
      change (S m <? S g + r)%nat with (m <? g + r)%nat. reflexivity.
Qed.

Lemma loan_balances_nth (len : nat) :
  forall g r m balance x,
    nth_error (balances balance (map (fun paid => (paid, 0)) (loan_schedule g r len))) m
    = Some x ->
    x = balance - installment * fnat (Nat.min r (S m - g)).
Proof.
  induction len as [|len IH]; intros g r m balance x H; [destruct m; discriminate|].
  cbn [loan_schedule map balances] in H. destruct m as [|m].
  - injection H as <-. destruct g as [|g], r as [|r]; cbn [loan_payment].
    + cbn [Nat.min]. unfold fnat. cbn [Z.of_nat]. rewrite float_of_int_0. ring.
    + replace (Nat.min (S r) (1 - 0)) with 1%nat by lia.
      unfold fnat. change (Z.of_nat 1) with 1%Z. rewrite float_of_int_1. ring.
    + cbn [Nat.min]. unfold fnat. cbn [Z.of_nat]. rewrite float_of_int_0. ring.
    + replace (Nat.min (S r) (1 - S g)) with 0%nat by lia.
      unfold fnat. cbn [Z.of_nat]. rewrite float_of_int_0. ring.
  - cbn [nth_error] in H. apply IH in H. rewrite H.
    destruct g as [|g]; cbn [loan_next fst snd loan_payment].
    + destruct r as [|r]; cbn [Nat.pred].
      * cbn [Nat.min]. ring.
      * replace (Nat.min (S r) (S (S m) - 0)) with (S (Nat.min r (S m - 0))) by lia.
        rewrite fnat_S. ring.
    + replace (S (S m) - S g)%nat with (S m - g)%nat by lia.
      destruct r; ring.
Qed.

End StraightLine.

Section LoanSide.
Variable funding : FundingModel.t.
Variable name : string.
Variable debt_type : DebtType.
Variable rate installment : Qc.
Variable term grace : nat.

Hypothesis installment_kept : fl (1 # 1000000) < installment.
Hypothesis the_loan :
  FundingModel.debt funding
  = [DebtInstrument.mk name 0 (installment * fnat (S term)) rate (Z.of_nat (S term))
       debt_type (Z.of_nat grace)].

Lemma loan_later_months (s g r : nat) :
  exists interest,
    _compute_debt (Z.of_nat (S s)) funding
      (loan_states name rate installment (Z.of_nat (S term)) g r) 0
    = Ok (interest, loan_payment installment g r,
          loan_states name rate installment (Z.of_nat (S term))
            (fst (loan_next g r)) (snd (loan_next g r))).
Proof.
  destruct (loan_step name rate installment (Z.of_nat (S term)) installment_kept g r)
    as [interest Hstep].
  exists interest. unfold _compute_debt. rewrite the_loan.
  cbn [fold_left DebtInstrument.month_index].
  replace (0 =? Z.of_nat (S s))%Z with false by (symmetry; apply Z.eqb_neq; lia).
  exact Hstep.
Qed.

Lemma loan_loop_later (len : nat) :
  forall s g r,
    debt_loop funding (map Z.of_nat (seq (S s) len))
      (loan_states name rate installment (Z.of_nat (S term)) g r)
    = Ok (map (fun paid => (paid, 0)) (loan_schedule installment g r len)).
Proof.
  induction len as [|len IH]; intros s g r; [reflexivity|].
  cbn [seq map debt_loop loan_schedule].
  destruct (loan_later_months s g r) as (interest & Hcd).
  rewrite Hcd. cbn [bind]. rewrite IH. cbn [bind]. rewrite the_loan.
  cbn [filter DebtInstrument.month_index].
  replace (0 =? Z.of_nat (S s))%Z with false by (symmetry; apply Z.eqb_neq; lia).
  reflexivity.
Qed.

Lemma loan_loop (len : nat) :
  debt_loop funding (map Z.of_nat (seq 0 (S len))) []
  = Ok ((loan_payment installment grace (S term), installment * fnat (S term))
        :: map (fun paid => (paid, 0))
             (loan_schedule installment (fst (loan_next grace (S term)))
                (snd (loan_next grace (S term))) len)).
Proof.
  cbn [seq map debt_loop].
  destruct (loan_step name rate installment (Z.of_nat (S term)) installment_kept
              grace (S term)) as [interest Hstep].
  assert (Hcd : _compute_debt (Z.of_nat 0) funding [] 0
                = Ok (interest, loan_payment installment grace (S term),
                      loan_states name rate installment (Z.of_nat (S term))
                        (fst (loan_next grace (S term)))
                        (snd (loan_next grace (S term))))).
  { unfold _compute_debt. rewrite the_loan.
    cbn [fold_left DebtInstrument.month_index DebtInstrument.name DebtInstrument.amount
         DebtInstrument.interest_rate_annual DebtInstrument.term_months
         DebtInstrument.grace_period_months Z.of_nat app].
    change (0 =? 0)%Z with true. cbv iota. exact Hstep. }
  rewrite Hcd. cbn [bind]. rewrite loan_loop_later. cbn [bind]. rewrite the_loan.
  cbn [filter DebtInstrument.month_index Z.of_nat]. change (0 =? 0)%Z with true.
  cbv iota. cbn [map DebtInstrument.amount]. unfold py_sum. cbn [fold_left].
  f_equal. f_equal. f_equal. ring.
Qed.

End LoanSide.

Lemma balances_drawn (balance paid drawn : Qc) (flows : list (Qc * Qc)) :
  balances balance ((paid, drawn) :: flows)
  = balances (balance + drawn) ((paid, 0) :: flows).
Proof.
  cbn [balances].
  replace (balance + drawn + 0 - paid) with (balance + drawn - paid) by ring.
  reflexivity.
Qed.


Definition scenario_loan : ScenarioInput.t :=
  quiet_scenario 8 no_revenue no_costs [] no_working_capital
    (FundingModel.mk [] [DebtInstrument.mk "loan" 0 (fl 90000) (fl (12 # 100)) 3 TERM 2])
    default_valuation.

